(** * Sunday Zero-Stakes Pick'Em: the schedule page of [src/app.js]

    A shallow embedding of the page's script and the properties its
    specification states about it.  The first part models the JavaScript
    built-ins the script relies on (numbers, string/number conversions,
    [Array.prototype.sort], timers); the second part translates the script
    function by function; the third part holds the theorems. *)

From Stdlib Require Import ZArith String Ascii List Bool Lia Permutation Sorted.
From Stdlib Require Import Floats.SpecFloat.
From stdpp Require Import gmap strings.

Set Warnings "-register-all,-clear-no-such-hyp".

Local Open Scope string_scope.
Local Open Scope Z_scope.

(** ** JavaScript values and numbers *)

Module JS.

(** A JavaScript Number is an IEEE 754 binary64 value, with one NaN. *)
Definition number : Type := spec_float.

Definition prec : Z := 53.
Definition emax : Z := 1024.

(** The numbers that exist at run time are the canonical ones. *)
Definition is_double (x : number) : bool := valid_binary prec emax x.

Definition NaN : number := S754_nan.
Definition pzero : number := S754_zero false.
Definition nzero : number := S754_zero true.

(** [𝔽(z)]: the Number for a mathematical integer, rounded to nearest even. *)
Definition of_Z (z : Z) : number := binary_normalize prec emax z 0 false.

(** The values [res.json()] can produce, plus [undefined] for an absent
    property. *)
Inductive value : Type :=
  | VUndefined
  | VNull
  | VBool (b : bool)
  | VNum (x : number)
  | VStr (s : string)
  | VArr (items : list value)
  | VObj (fields : list (string * value)).

(** *** Completions

    A call returns a value or throws.  Of an exception the model keeps a
    text: the message of an [Error] the script creates or the rejection
    of a request, and for an error the engine raises its name (the wording
    of the message is the engine's own). *)
Inductive outcome (A : Type) : Type :=
  | Returned (a : A)
  | Threw (err : string).
Arguments Returned {A} a.
Arguments Threw {A} err.

Definition TypeError : string := "TypeError".

Definition andThen {A B : Type} (o : outcome A) (k : A -> outcome B) : outcome B :=
  match o with
  | Returned a => k a
  | Threw err => Threw err
  end.

Definition returns {A : Type} (o : outcome A) : bool :=
  match o with
  | Returned _ => true
  | Threw _ => false
  end.

Declare Scope js_scope.
Delimit Scope js_scope with js.
Notation "'let?' x ':=' c 'in' k" := (andThen c (fun x => k))
  (at level 10, x name, c at level 100, k at level 200) : js_scope.
Local Open Scope js_scope.

(** The steps of a loop body that may throw, run in order. *)
Fixpoint mapOutcome {A B : Type} (f : A -> outcome B) (l : list A) : outcome (list B) :=
  match l with
  | nil => Returned nil
  | x :: r => let? y := f x in let? ys := mapOutcome f r in Returned (y :: ys)
  end.

(** *** Decimal digits of a non-negative integer *)

Definition digitChar (d : Z) : string :=
  String (ascii_of_nat (48 + Z.to_nat d)) EmptyString.

Fixpoint decimalFuel (fuel : nat) (n : Z) : string :=
  match fuel with
  | O => EmptyString
  | S f =>
      if n <? 10 then digitChar n
      else decimalFuel f (n / 10) ++ digitChar (n mod 10)
  end.

Definition decimal (n : Z) : string :=
  decimalFuel (S (Z.to_nat (Z.log2 n))) n.

Fixpoint zeros (k : nat) : string :=
  match k with
  | O => EmptyString
  | S k' => String "0" (zeros k')
  end.

Definition strlen (s : string) : Z := Z.of_nat (String.length s).
Definition take (n : Z) (s : string) : string := substring 0 (Z.to_nat n) s.
Definition drop (n : Z) (s : string) : string :=
  substring (Z.to_nat n) (String.length s - Z.to_nat n) s.

(** *** Number::toString (radix 10)

    For a finite [x = m * 2^e > 0] the standard asks for integers [n], [k],
    [s] with [10^(k-1) <= s < 10^k], [𝔽(s * 10^(n-k)) = x] and [k] as small
    as possible.  [s * 10^E] rounds to [x] exactly when it lies in the
    rounding interval of [x], whose end points are half-way to the
    neighbouring doubles (and belong to it when [m] is even).  The fewest
    digits come with the largest [E] for which a multiple of [10^E] is in
    the interval, so the search walks [E] downwards from an upper bound. *)

Section Shortest.
Variables (m : positive) (e : Z).

(** Compare [s * 10^E] with [N * 2^(e-2)] on integers. *)
Definition cmpScaled (s E N : Z) : comparison :=
  Z.compare (s * 10 ^ Z.max E 0 * 2 ^ Z.max (2 - e) 0)
            (N * 2 ^ Z.max (e - 2) 0 * 10 ^ Z.max (- E) 0).

(** End points of the rounding interval, in units of [2^(e-2)]. *)
Definition lowerN : Z :=
  if Pos.eqb m (Pos.shiftl 1 52) && (Z.sub 3 (emax + prec) <? e)
  then 4 * Zpos m - 1 else 4 * Zpos m - 2.
Definition upperN : Z := 4 * Zpos m + 2.

Definition roundsToX (s E : Z) : bool :=
  match cmpScaled s E lowerN with
  | Gt => true | Eq => Z.even (Zpos m) | Lt => false
  end &&
  match cmpScaled s E upperN with
  | Lt => true | Eq => Z.even (Zpos m) | Gt => false
  end.

(** [floor (x / 10^E)] *)
Definition floorDiv10 (E : Z) : Z :=
  (Zpos m * 2 ^ Z.max e 0 * 10 ^ Z.max (- E) 0)
    / (2 ^ Z.max (- e) 0 * 10 ^ Z.max E 0).

(** The digits [s] at exponent [E], when some multiple of [10^E]
    rounds to [x]; of two candidates the one closer to [x] (the even
    one on a tie). *)
Definition candidate (E : Z) : option Z :=
  let lo := floorDiv10 E in
  let hi := lo + 1 in
  let okLo := (1 <=? lo) && roundsToX lo E in
  let okHi := roundsToX hi E in
  match okLo, okHi with
  | true, false => Some lo
  | false, true => Some hi
  | false, false => None
  | true, true =>
      match cmpScaled (lo + hi) E (8 * Zpos m) with
      | Gt => Some lo
      | Lt => Some hi
      | Eq => Some (if Z.even lo then lo else hi)
      end
  end.

Fixpoint searchDigits (fuel : nat) (E : Z) : Z * Z :=
  match fuel with
  | O => (Z.max 1 (floorDiv10 E), E)
  | S f =>
      match candidate E with
      | Some s => (s, E)
      | None => searchDigits f (E - 1)
      end
  end.

(** [x < 2^(digits2 m + e)], and [30103 / 100000] exceeds [log10 2], so
    no multiple of [10^startE] other than 0 is in the interval; seventeen
    digits always suffice, so the search ends well within its fuel. *)
Definition startE : Z := (Zpos (digits2_pos m) + e) * 30103 / 100000 + 2.

Definition shortest : Z * Z := searchDigits 25 startE.
End Shortest.

(** Steps 6 to 10 of Number::toString: lay the digits [s] out, [n] being
    the position of the decimal point. *)
Definition layoutDigits (s E : Z) : string :=
  let ds := decimal s in
  let k := strlen ds in
  let n := k + E in
  if (k <=? n) && (n <=? 21) then ds ++ zeros (Z.to_nat (n - k))
  else if (0 <? n) && (n <=? 21) then take n ds ++ "." ++ drop n ds
  else if (-6 <? n) && (n <=? 0) then "0." ++ zeros (Z.to_nat (- n)) ++ ds
  else
    let ex := n - 1 in
    let exs := (if ex <? 0 then "-" else "+") ++ decimal (Z.abs ex) in
    if k =? 1 then ds ++ "e" ++ exs
    else take 1 ds ++ "." ++ drop 1 ds ++ "e" ++ exs.

Definition numberToString (x : number) : string :=
  match x with
  | S754_nan => "NaN"
  | S754_zero _ => "0"
  | S754_infinity s => if s then "-Infinity" else "Infinity"
  | S754_finite s m e =>
      let '(d, E) := shortest m e in
      (if s then "-" else "") ++ layoutDigits d E
  end.

(** *** Number predicates and operators used by the script *)

Definition isFinite (x : number) : bool :=
  match x with
  | S754_zero _ | S754_finite _ _ _ => true
  | _ => false
  end.

Definition isInteger (x : number) : bool :=
  match x with
  | S754_zero _ => true
  | S754_finite _ m e => (0 <=? e) || (Zpos m mod 2 ^ (- e) =? 0)
  | _ => false
  end.

Definition neg (x : number) : number := SFopp x.
Definition abs (x : number) : number := SFabs x.
Definition lt (x y : number) : bool := SFltb x y.
Definition gt (x y : number) : bool := SFltb y x.

(** *** Number.prototype.toFixed(1) *)

Definition tenthsOf (m : positive) (e : Z) : Z :=
  (20 * Zpos m * 2 ^ Z.max e 0 + 2 ^ Z.max (- e) 0) / (2 * 2 ^ Z.max (- e) 0).

Definition toFixed1 (x : number) : string :=
  match x with
  | S754_nan => "NaN"
  | S754_infinity s => if s then "-Infinity" else "Infinity"
  | S754_zero _ => "0.0"
  | S754_finite s m e =>
      let sgn := if s then "-" else "" in
      if 10 ^ 21 * 2 ^ Z.max (- e) 0 <=? Zpos m * 2 ^ Z.max e 0
      then sgn ++ numberToString (S754_finite false m e)
      else
        let ds := decimal (tenthsOf m e) in
        let ds := if strlen ds <=? 1 then zeros (Z.to_nat (2 - strlen ds)) ++ ds else ds in
        let k := strlen ds in
        sgn ++ take (k - 1) ds ++ "." ++ drop (k - 1) ds
  end.

(** [s.replace(/\.0$/, "")] *)
Fixpoint stripDotZero (s : string) : string :=
  match s with
  | EmptyString => EmptyString
  | String c r =>
      if String.eqb s ".0" then EmptyString else String c (stripDotZero r)
  end.

(** *** Strings to numbers *)

Definition code (c : ascii) : Z := Z.of_nat (nat_of_ascii c).
Definition isDigit (c : ascii) : bool := (48 <=? code c) && (code c <=? 57).

Definition white3 (x y z : Z) : bool :=
  ((x =? 225) && (y =? 154) && (z =? 128))
  || ((x =? 226) && (y =? 128)
        && (((128 <=? z) && (z <=? 138)) || (z =? 168) || (z =? 169) || (z =? 175)))
  || ((x =? 226) && (y =? 129) && (z =? 159))
  || ((x =? 227) && (y =? 128) && (z =? 128))
  || ((x =? 239) && (y =? 187) && (z =? 191)).

(** Drop leading white space and line terminators (strings are UTF-8). *)
Fixpoint skipWhite (s : string) : string :=
  match s with
  | EmptyString => s
  | String a r1 =>
      let x := code a in
      if (x =? 9) || (x =? 10) || (x =? 11) || (x =? 12) || (x =? 13) || (x =? 32)
      then skipWhite r1
      else
        match r1 with
        | EmptyString => s
        | String b r2 =>
            if (x =? 194) && (code b =? 160) then skipWhite r2
            else
              match r2 with
              | EmptyString => s
              | String c r3 =>
                  if white3 x (code b) (code c) then skipWhite r3 else s
              end
        end
  end.

Definition onlyWhite (s : string) : bool := String.eqb (skipWhite s) "".

(** A maximal run of digits in radix [r]: its value, its length, the rest. *)
Definition digitIn (r : Z) (c : ascii) : option Z :=
  let x := code c in
  let d := if (48 <=? x) && (x <=? 57) then x - 48
           else if (97 <=? x) && (x <=? 122) then x - 87
           else if (65 <=? x) && (x <=? 90) then x - 55
           else r in
  if d <? r then Some d else None.

Fixpoint digitsRun (r : Z) (s : string) (acc cnt : Z) : Z * Z * string :=
  match s with
  | EmptyString => (acc, cnt, s)
  | String c rest =>
      match digitIn r c with
      | Some d => digitsRun r rest (acc * r + d) (cnt + 1)
      | None => (acc, cnt, s)
      end
  end.

Definition signOf (s : string) : bool * string :=
  match s with
  | String "-" r => (true, r)
  | String "+" r => (false, r)
  | _ => (false, s)
  end.

(** The Number nearest to [D * 10^Ex]. *)
Definition decimalToNumber (sg : bool) (D Ex : Z) : number :=
  if D =? 0 then S754_zero sg
  else
    let n := strlen (decimal D) + Ex in
    if 400 <? n then S754_infinity sg
    else if n <? -400 then S754_zero sg
    else if 0 <=? Ex
    then binary_normalize prec emax ((if sg then -1 else 1) * D * 10 ^ Ex) 0 false
    else SFdiv prec emax (S754_finite sg (Z.to_pos D) 0)
                         (S754_finite false (Z.to_pos (10 ^ (- Ex))) 0).

Definition prefixRest (p s : string) : option string :=
  if String.prefix p s
  then Some (substring (String.length p) (String.length s - String.length p) s)
  else None.

(** StringToNumber: the StringNumericLiteral grammar. *)
Definition StringToNumber (str : string) : number :=
  let s := skipWhite str in
  if String.eqb s "" then pzero
  else
    let nonDecimal (r : Z) (body : string) :=
      let '(v, cnt, rest) := digitsRun r body 0 0 in
      if (0 <? cnt) && onlyWhite rest then of_Z v else NaN in
    match s with
    | String "0" (String ("x" | "X") body) => nonDecimal 16 body
    | String "0" (String ("o" | "O") body) => nonDecimal 8 body
    | String "0" (String ("b" | "B") body) => nonDecimal 2 body
    | _ =>
        let '(sg, s1) := signOf s in
        match prefixRest "Infinity" s1 with
        | Some rest => if onlyWhite rest then S754_infinity sg else NaN
        | None =>
            let '(ip, ic, r1) := digitsRun 10 s1 0 0 in
            let '(D, fc, r2) :=
              match r1 with
              | String "." r => digitsRun 10 r ip 0
              | _ => (ip, 0, r1)
              end in
            if ic + fc =? 0 then NaN
            else
              let '(X, r3) :=
                match r2 with
                | String ("e" | "E") r =>
                    let '(esg, r') := signOf r in
                    let '(x, xc, r'') := digitsRun 10 r' 0 0 in
                    if 0 <? xc then ((if esg then - x else x), r'') else (0, r2)
                | _ => (0, r2)
                end in
              if onlyWhite r3 then decimalToNumber sg D (X - fc) else NaN
        end
    end.

(** [parseInt(string, 10)] on a string. *)
Definition parseInt10 (str : string) : number :=
  let '(sg, s1) := signOf (skipWhite str) in
  let '(v, cnt, _) := digitsRun 10 s1 0 0 in
  if cnt =? 0 then NaN
  else if v =? 0 then S754_zero sg
  else of_Z (if sg then - v else v).

(** *** ToString, ToNumber

    An object is first converted to a primitive, through its [valueOf] and
    [toString].  An object of a JSON text has no function among its own
    properties, so an own property [toString] hides the inherited method,
    no primitive is found and a TypeError is thrown; otherwise the
    inherited [toString] answers.  An array is joined, which converts each
    element in turn. *)

(** The object has an own property [k]. *)
Definition hasOwn (k : string) (fields : list (string * value)) : bool :=
  existsb (fun kv => String.eqb (fst kv) k) fields.

Definition booleanToString (b : bool) : string := if b then "true" else "false".

Fixpoint ToString (v : value) : outcome string :=
  match v with
  | VUndefined => Returned "undefined"
  | VNull => Returned "null"
  | VBool b => Returned (booleanToString b)
  | VNum x => Returned (numberToString x)
  | VStr s => Returned s
  | VArr items =>
      (fix join (l : list value) : outcome string :=
         match l with
         | nil => Returned ""
         | x :: rest =>
             let? sx := match x with
                        | VUndefined | VNull => Returned ""
                        | _ => ToString x
                        end in
             match rest with
             | nil => Returned sx
             | _ => let? sr := join rest in Returned (sx ++ "," ++ sr)
             end
         end) items
  | VObj fields =>
      if hasOwn "toString" fields then Threw TypeError else Returned "[object Object]"
  end.

Definition ToNumber (v : value) : outcome number :=
  match v with
  | VUndefined => Returned NaN
  | VNull => Returned pzero
  | VBool b => Returned (if b then of_Z 1 else pzero)
  | VNum x => Returned x
  | VStr s => Returned (StringToNumber s)
  | VArr _ | VObj _ => let? s := ToString v in Returned (StringToNumber s)
  end.

(** *** Numbers in conditions, comparisons and sums *)

(** A Number in a boolean context: 0, -0 and NaN are falsy. *)
Definition truthyNumber (x : number) : bool :=
  match x with
  | S754_zero _ | S754_nan => false
  | _ => true
  end.

(** [x === y] *)
Definition strictEq (x y : number) : bool := SFeqb x y.

Definition add (x y : number) : number := SFadd prec emax x y.
Definition sub (x y : number) : number := SFsub prec emax x y.

(** [Math.min(x, y)] and [Math.max(x, y)]: NaN if one of them is, and -0
    is below +0. *)
Definition Math_min (x y : number) : number :=
  match SFcompare x y with
  | None => NaN
  | Some Lt => x
  | Some Gt => y
  | Some Eq => match x with
               | S754_zero true => x
               | _ => y
               end
  end.

Definition Math_max (x y : number) : number :=
  match SFcompare x y with
  | None => NaN
  | Some Lt => y
  | Some Gt => x
  | Some Eq => match x with
               | S754_zero true => y
               | _ => x
               end
  end.

(** *** Strings *)

(** [s.toLowerCase()], on the ASCII letters.  A letter outside ASCII is
    kept as it is: the script compares a lowered text only with names
    spelled in ASCII letters none of which is the lower case of a letter
    outside ASCII, so that no comparison tells the difference. *)
Definition lowerChar (c : ascii) : ascii :=
  if (65 <=? code c) && (code c <=? 90) then ascii_of_nat (nat_of_ascii c + 32) else c.

Fixpoint toLowerCase (s : string) : string :=
  match s with
  | EmptyString => EmptyString
  | String c r => String (lowerChar c) (toLowerCase r)
  end.

(** [haystack] contains [needle]. *)
Fixpoint includes (needle haystack : string) : bool :=
  String.prefix needle haystack
  || match haystack with
     | EmptyString => false
     | String _ r => includes needle r
     end.

(** An optional string in a boolean context: absent and [""] are falsy. *)
Definition truthy (o : option string) : bool :=
  match o with
  | Some s => negb (String.eqb s "")
  | None => false
  end.

(** [a || b] on optional strings. *)
Definition orElse (a b : option string) : option string :=
  if truthy a then a else b.

(** *** Array.prototype.sort

    The sort is stable, and a comparator result of NaN counts as +0.  A
    comparator result is modelled by its exact value, [None] standing for
    NaN; only its sign matters.  When the comparator is consistent on the
    elements (it never yields NaN and orders them as a total preorder) the
    result is the same in every engine, and is what insertion from the
    right gives.  When it is not, the standard leaves the order to the
    engine: the order below is then but one that an engine may produce,
    and what is proved of a sort in general assumes consistency. *)

Section ArraySort.
Context {A : Type} (comparefn : A -> A -> option Z).

Definition SortCompare (x y : A) : Z :=
  match comparefn x y with
  | Some v => v
  | None => 0
  end.

Fixpoint insertSorted (x : A) (l : list A) : list A :=
  match l with
  | nil => x :: nil
  | y :: r => if SortCompare x y <=? 0 then x :: l else y :: insertSorted x r
  end.

Definition Array_sort (l : list A) : list A := fold_right insertSorted nil l.
End ArraySort.

(** *** Nullish coalescing

    [a ?? b] is [b] when [a] is [null] or [undefined]. *)

Definition nullish (v : value) : bool :=
  match v with
  | VUndefined | VNull => true
  | _ => false
  end.

Definition coalesce (a b : value) : value := if nullish a then b else a.

(** *** Properties of an object literal

    [o[k]] on an object written as a literal [{ ... }] is the value of its
    own property [k]; without one it is the property [k] of
    [Object.prototype], a function or an object that is neither [null] nor
    [undefined]; and only without that it is [undefined]. *)

Definition ObjectPrototype : list string :=
  "constructor" :: "hasOwnProperty" :: "isPrototypeOf" :: "propertyIsEnumerable"
  :: "toLocaleString" :: "toString" :: "valueOf" :: "__proto__"
  :: "__defineGetter__" :: "__defineSetter__" :: "__lookupGetter__"
  :: "__lookupSetter__" :: nil.

Definition inheritedName (k : string) : bool := existsb (String.eqb k) ObjectPrototype.

Inductive property (A : Type) : Type :=
  | Own (a : A)
  | Inherited (name : string)
  | Absent.
Arguments Own {A} a.
Arguments Inherited {A} name.
Arguments Absent {A}.

Definition getProperty {A : Type} (o : gmap string A) (k : string) : property A :=
  match o !! k with
  | Some a => Own a
  | None => if inheritedName k then Inherited k else Absent
  end.

(** [a.length]: an array has fewer than [2^32] elements. *)
Definition Array_length {A : Type} (a : list A) : Z :=
  Z.min (Z.of_nat (length a)) (2 ^ 32 - 1).

(** *** Trimming, and the two replacements of the script

    White space is what [skipWhite] drops: the characters [\s] matches and
    [trim] removes. *)

(** [s.trimEnd()] *)
Fixpoint trimEnd (s : string) : string :=
  match s with
  | EmptyString => EmptyString
  | String c r => if onlyWhite s then EmptyString else String c (trimEnd r)
  end.

(** [s.trim()] *)
Definition trim (s : string) : string := trimEnd (skipWhite s).

(** A line terminator starts the text: what [.] does not match. *)
Definition lineBreakAt (s : string) : bool :=
  match s with
  | EmptyString => false
  | String a r =>
      (code a =? 10) || (code a =? 13)
      || match r with
         | String b (String c _) =>
             (code a =? 226) && (code b =? 128) && ((code c =? 168) || (code c =? 169))
         | _ => false
         end
  end.

(** [s] matches [.*\)\s*$]. *)
Fixpoint closesParen (s : string) : bool :=
  match s with
  | EmptyString => false
  | String c r =>
      (Ascii.eqb c ")" && onlyWhite r) || (negb (lineBreakAt s) && closesParen r)
  end.

(** [s] matches [\s*\(.*\)\s*$] from its first character. *)
Definition parenTail (s : string) : bool :=
  match skipWhite s with
  | String c r => Ascii.eqb c "(" && closesParen r
  | EmptyString => false
  end.

(** [s.replace(/\s*\(.*\)\s*$/, "")]: the text is cut at the first
    position from which the pattern matches. *)
Fixpoint stripParenTail (s : string) : string :=
  match s with
  | EmptyString => EmptyString
  | String c r => if parenTail s then EmptyString else String c (stripParenTail r)
  end.

(** [s.replace(/[()]/g, "")] *)
Fixpoint removeParens (s : string) : string :=
  match s with
  | EmptyString => EmptyString
  | String c r =>
      if Ascii.eqb c "(" || Ascii.eqb c ")" then removeParens r
      else String c (removeParens r)
  end.

End JS.

Import JS.

(** ** The script *)

Module App.

Local Open Scope js_scope.

(** *** The scoreboard JSON

    Records follow the fields the script reads; a field that may be absent
    is an [option], and a field the script takes for a Number is one.  The
    spread of an odds entry, the score of a competitor and the values of a
    line score are kept as raw JSON values, because the script coerces them
    itself ([Number(raw)], [parseInt(x, 10)]). *)

Record StatusType := {
  st_state : option string;
  st_detail : option string;
  st_shortDetail : option string }.

Record Status := { status_type : option StatusType }.

Record Team := {
  team_name : option string;
  team_shortDisplayName : option string;
  team_abbreviation : option string;
  team_displayName : option string;
  team_location : option string;
  team_city : option string }.

(** The score of one period, read through [value], [displayValue] and
    [score]. *)
Record LineScore := {
  ls_value : value;
  ls_displayValue : value;
  ls_score : value }.

Record Competitor := {
  homeAway : option string;
  score : value;
  team : option Team;
  linescores : option (list LineScore) }.

Record Odds := { spread : value }.

Record Competition := {
  comp_status : option Status;
  competitors : option (list Competitor);
  odds : option (list Odds);
  comp_name : option string }.

Record Event := {
  ev_id : option string;
  ev_date : option string;
  ev_name : option string;
  ev_shortName : option string;
  competitions : option (list Competition);
  ev_status : option Status }.

Record CalendarEntry := {
  cal_label : option string;
  cal_entries : option (list string) }.

Record League := {
  lg_seasonYear : option number;
  lg_weekNumber : option number;
  lg_calendar : option (list CalendarEntry) }.

Record Scoreboard := {
  leagues : option (list League);
  sb_weekNumber : option number;
  sb_events : option (list Event) }.

(** [{}] where the script falls back to an empty object *)
Definition noCompetition : Competition :=
  {| comp_status := None; competitors := None; odds := None; comp_name := None |}.
Definition noCompetitor : Competitor :=
  {| homeAway := None; score := VUndefined; team := None; linescores := None |}.

(** [x?.[0]] *)
Definition first {A : Type} (l : option (list A)) : option A :=
  match l with
  | Some (x :: _) => Some x
  | _ => None
  end.

(** [s?.type?.state] *)
Definition stateOf (s : option Status) : option string :=
  match s with
  | Some {| status_type := Some t |} => st_state t
  | _ => None
  end.

Definition orEmpty (o : option string) : string :=
  match o with
  | Some s => s
  | None => ""
  end.

(** *** Status helpers *)

Definition STATUS_ORDER : gmap string Z :=
  {[ "post" := 0; "in" := 1; "pre" := 2 ]}.

Definition getState (e : Event) : string :=
  toLowerCase
    (orEmpty (orElse (stateOf (match first (competitions e) with
                               | Some c => comp_status c
                               | None => None
                               end))
                     (orElse (stateOf (ev_status e)) (Some "")))).

(** What [STATUS_ORDER[s] ?? 3] may be: a Number, or the function or
    object that [STATUS_ORDER] inherits under the name [s]. *)
Inductive rank :=
  | RankNumber (n : Z)
  | RankObject (name : string).

(** [STATUS_ORDER[getState(e)] ?? 3] *)
Definition statusRank (e : Event) : rank :=
  match getProperty STATUS_ORDER (getState e) with
  | Own r => RankNumber r
  | Inherited name => RankObject name
  | Absent => RankNumber 3
  end.

(** [sa === sb]: two inherited properties are the same object only under
    the same name. *)
Definition sameRank (sa sb : rank) : bool :=
  match sa, sb with
  | RankNumber x, RankNumber y => x =? y
  | RankObject j, RankObject k => String.eqb j k
  | _, _ => false
  end.

Section WithClock.
(** [Date.parse] on a string: the time value in milliseconds, [None] for
    an invalid date.  [thisYear] is [new Date().getFullYear()]. *)
Variable Date_parse : string -> option Z.
Variable thisYear : Z.

(** The time value of [new Date(e.date)]; [new Date(undefined)] is
    invalid. *)
Definition timeOf (e : Event) : option Z :=
  match ev_date e with
  | Some d => Date_parse d
  | None => None
  end.

(** The comparator of [sortEvents].  A difference with a function or an
    object is NaN.  Two time values differ by less than [2^54]
    milliseconds, so the sign of their difference as a Number is the sign
    of the exact difference. *)
Definition compareEvents (a b : Event) : option Z :=
  let sa := statusRank a in
  let sb := statusRank b in
  if negb (sameRank sa sb)
  then match sa, sb with
       | RankNumber x, RankNumber y => Some (x - y)
       | _, _ => None
       end
  else
    match timeOf a, timeOf b with
    | Some ta, Some tb => Some (ta - tb)
    | _, _ => None
    end.

Definition sortEvents (evts : list Event) : list Event :=
  Array_sort compareEvents evts.

End WithClock.

(** *** Utils *)

Definition safeInt (x : value) : outcome number :=
  let? s := ToString x in
  let n := parseInt10 s in
  Returned (if isFinite n then n else pzero).

Definition clamp (n lo hi : number) : number := Math_max lo (Math_min hi n).

Definition teamNickname (t : option Team) : string :=
  match t with
  | Some t =>
      orEmpty (orElse (team_name t)
                (orElse (team_shortDisplayName t)
                   (orElse (team_abbreviation t)
                      (orElse (team_displayName t) (Some "")))))
  | None => ""
  end.

Definition teamCity (t : option Team) : string :=
  match t with
  | Some t => orEmpty (orElse (team_location t) (orElse (team_city t) (Some "")))
  | None => ""
  end.

(** The home spread is a Number or [null]; [None] is [null]. *)
Definition parseHomeSpread (competition : Competition) : outcome (option number) :=
  let raw := match first (odds competition) with
             | Some o => spread o
             | None => VUndefined
             end in
  let? n := ToNumber raw in
  Returned (if isFinite n then Some n else None).

Definition prettyNum (n : number) : string :=
  if isInteger n then numberToString n else stripDotZero (toFixed1 n).

Definition EPSILON : number := Eval vm_compute in StringToNumber "1e-9".

(** [isHome ? homeSpread : -homeSpread] on a non-null spread *)
Definition sideValue (homeSpread : number) (isHome : bool) : number :=
  if isHome then homeSpread else neg homeSpread.

Definition spreadSuffixForSide (homeSpread : option number) (isHome : bool) : string :=
  match homeSpread with
  | None => ""
  | Some h =>
      let val := sideValue h isHome in
      if lt (abs val) EPSILON then " (PK)"
      else
        let sign := if gt val pzero then "+" else "" in
        " (" ++ sign ++ prettyNum val ++ ")"
  end.

(** [find(t => t.homeAway === side) || competitors?.[k] || {}] *)
Definition pickCompetitor (side : string) (k : nat) (comp : Competition) : Competitor :=
  match competitors comp with
  | Some l =>
      match List.find (fun t => match homeAway t with
                                | Some h => String.eqb h side
                                | None => false
                                end) l with
      | Some c => c
      | None => nth k l noCompetitor
      end
  | None => noCompetitor
  end.

(** *** Line scores *)

Definition hasLineScores (competition : Competition) : bool :=
  let comps := match competitors competition with
               | Some l => l
               | None => nil
               end in
  (2 <=? length comps)%nat
  && forallb (fun c => match linescores c with
                       | Some (_ :: _) => true
                       | _ => false
                       end) comps.

(** [comps[k]?.linescores?.length || 0] *)
Definition periodsOf (c : option Competitor) : nat :=
  match c with
  | Some {| linescores := Some l |} => length l
  | _ => 0%nat
  end.

(** [i < 4 ? `Q${i+1}` : `OT${i-3}`] *)
Definition periodLabel (i : nat) : string :=
  if (i <? 4)%nat then "Q" ++ decimal (Z.of_nat i + 1) else "OT" ++ decimal (Z.of_nat i - 3).

(** [ls.value ?? ls.displayValue ?? ls.score ?? 0] *)
Definition periodValue (ls : LineScore) : value :=
  coalesce (coalesce (coalesce (ls_value ls) (ls_displayValue ls)) (ls_score ls)) (VNum pzero).

(** A cell of a row: a Number, or the [""] a short row is padded with. *)
Definition cellText (c : option number) : string :=
  match c with
  | Some n => numberToString n
  | None => ""
  end.

(** [c.linescores || []] *)
Definition lineScoresOf (c : Competitor) : list LineScore :=
  match linescores c with
  | Some l => l
  | None => nil
  end.

(** The texts of the table: the header cells, and for each row the team
    and the data cells. *)
Record LineTable := {
  lt_header : list string;
  lt_rows : list (string * list string) }.

(** Without [competitors], [comps[0]] is a TypeError. *)
Definition buildLineScoreTable (competition : Competition) : outcome LineTable :=
  match competitors competition with
  | None => Threw TypeError
  | Some comps =>
      let maxPeriods := Nat.max (periodsOf (nth_error comps 0)) (periodsOf (nth_error comps 1)) in
      let header := ("" :: List.map periodLabel (seq 0 maxPeriods) ++ "T" :: nil)%list in
      let? rows :=
        mapOutcome
          (fun c =>
             let? byP := mapOutcome (fun ls => let? n := safeInt (periodValue ls) in
                                               Returned (Some n))
                                    (lineScoresOf c) in
             let byP := (byP ++ repeat None (maxPeriods - length byP))%list in
             let? total := safeInt (score c) in
             Returned (match team c with
                       | Some t => orEmpty (orElse (team_abbreviation t)
                                              (orElse (team_shortDisplayName t) (Some "")))
                       | None => ""
                       end,
                       (byP ++ Some total :: nil)%list))
          comps in
      Returned {| lt_header := header;
                  lt_rows := List.map (fun r => (fst r, List.map cellText (snd r))) rows |}
  end.

(** *** The page: state, document, browser

    [State] is the script's [state] object.  [Page] holds what the script
    writes to the document; [Browser] holds the active interval timers, the
    console and the requests in flight.  Of a card, the logo and the meta
    line are left out, and so is the class list of the grid.

    The script writes the names of an event and of its teams into the
    page as markup, through [innerHTML].  Text without [<], [&], NUL and
    carriage return is taken by the HTML parser as it is; with one of
    them, what the element then holds is the parser's reading of the
    markup, which is not modelled: the text of the element is [None]. *)

Definition markupChar (c : ascii) : bool :=
  (code c =? 60) || (code c =? 38) || (code c =? 0) || (code c =? 13).

Fixpoint markupFree (s : string) : bool :=
  match s with
  | EmptyString => true
  | String c r => negb (markupChar c) && markupFree r
  end.

Definition parsedText (s : string) : option string :=
  if markupFree s then Some s else None.

Record State := {
  seasonYear : option number;
  seasonType : Z;
  week : option number;
  maxWeeks : Z;
  liveEventIds : gset (option string);
  refreshTimer : option nat }.

(** [btn_lineA] and [btn_lineB] are the [textContent] of the two lines
    of the button. *)
Record TeamBtn := {
  btn_className : string;
  btn_lineA : option string;
  btn_lineB : option string;
  btn_disabled : bool }.

Record Card := {
  card_className : string;
  card_title : option string;
  card_badge : string;
  card_awayBtn : TeamBtn;
  card_awayScore : string;
  card_homeBtn : TeamBtn;
  card_homeScore : string;
  card_lineScore : option LineTable;
  card_eventId : option string }.

Inductive Node :=
  | SectionHeader (text : string)
  | CardGrid (cards : list Card).

(** [weekOptions] are the values of the options of the week selector,
    [weekValue] the option the script has selected last, if any. *)
Record Page := {
  GRID : list Node;
  STATUS : string;
  weekOptions : list Z;
  weekValue : option Z;
  SEASON_LABEL : string;
  wired : bool }.

(** An [async] function is suspended at its [await fetchJSON(url)]. *)
Inductive Flow :=
  | InitFlow
  | LoadFlow (fromInit : bool)
  | RefreshFlow.

Record Browser := {
  timers : gset nat;
  nextTimer : nat;
  console : list string;
  pending : list Flow }.

Record World := {
  state : State;
  page : Page;
  browser : Browser }.

Definition initialState : State :=
  {| seasonYear := None; seasonType := 2; week := None; maxWeeks := 18;
     liveEventIds := ∅; refreshTimer := None |}.

Definition initialWorld : World :=
  {| state := initialState;
     page := {| GRID := nil; STATUS := ""; weekOptions := nil; weekValue := None;
                SEASON_LABEL := ""; wired := false |};
     browser := {| timers := ∅; nextTimer := 1; console := nil; pending := nil |} |}.

Definition onState (f : State -> State) (w : World) : World :=
  {| state := f (state w); page := page w; browser := browser w |}.
Definition onPage (f : Page -> Page) (w : World) : World :=
  {| state := state w; page := f (page w); browser := browser w |}.
Definition onBrowser (f : Browser -> Browser) (w : World) : World :=
  {| state := state w; page := page w; browser := f (browser w) |}.

Definition withSeasonYear (y : option number) (s : State) : State :=
  {| seasonYear := y; seasonType := seasonType s; week := week s; maxWeeks := maxWeeks s;
     liveEventIds := liveEventIds s; refreshTimer := refreshTimer s |}.
Definition withWeek (k : option number) (s : State) : State :=
  {| seasonYear := seasonYear s; seasonType := seasonType s; week := k; maxWeeks := maxWeeks s;
     liveEventIds := liveEventIds s; refreshTimer := refreshTimer s |}.
Definition withMaxWeeks (k : Z) (s : State) : State :=
  {| seasonYear := seasonYear s; seasonType := seasonType s; week := week s; maxWeeks := k;
     liveEventIds := liveEventIds s; refreshTimer := refreshTimer s |}.
Definition withLive (l : gset (option string)) (s : State) : State :=
  {| seasonYear := seasonYear s; seasonType := seasonType s; week := week s;
     maxWeeks := maxWeeks s; liveEventIds := l; refreshTimer := refreshTimer s |}.
Definition withRefreshTimer (t : option nat) (s : State) : State :=
  {| seasonYear := seasonYear s; seasonType := seasonType s; week := week s;
     maxWeeks := maxWeeks s; liveEventIds := liveEventIds s; refreshTimer := t |}.

Definition withGRID (g : list Node) (p : Page) : Page :=
  {| GRID := g; STATUS := STATUS p; weekOptions := weekOptions p; weekValue := weekValue p;
     SEASON_LABEL := SEASON_LABEL p; wired := wired p |}.
Definition withSTATUS (t : string) (p : Page) : Page :=
  {| GRID := GRID p; STATUS := t; weekOptions := weekOptions p; weekValue := weekValue p;
     SEASON_LABEL := SEASON_LABEL p; wired := wired p |}.
Definition withWeekOptions (o : list Z) (p : Page) : Page :=
  {| GRID := GRID p; STATUS := STATUS p; weekOptions := o; weekValue := weekValue p;
     SEASON_LABEL := SEASON_LABEL p; wired := wired p |}.
Definition withWeekValue (v : option Z) (p : Page) : Page :=
  {| GRID := GRID p; STATUS := STATUS p; weekOptions := weekOptions p; weekValue := v;
     SEASON_LABEL := SEASON_LABEL p; wired := wired p |}.
Definition withSeasonLabel (t : string) (p : Page) : Page :=
  {| GRID := GRID p; STATUS := STATUS p; weekOptions := weekOptions p;
     weekValue := weekValue p; SEASON_LABEL := t; wired := wired p |}.
Definition withWired (b : bool) (p : Page) : Page :=
  {| GRID := GRID p; STATUS := STATUS p; weekOptions := weekOptions p;
     weekValue := weekValue p; SEASON_LABEL := SEASON_LABEL p; wired := b |}.

Definition withTimers (t : gset nat) (b : Browser) : Browser :=
  {| timers := t; nextTimer := nextTimer b; console := console b; pending := pending b |}.
Definition withNextTimer (n : nat) (b : Browser) : Browser :=
  {| timers := timers b; nextTimer := n; console := console b; pending := pending b |}.
Definition withConsole (c : list string) (b : Browser) : Browser :=
  {| timers := timers b; nextTimer := nextTimer b; console := c; pending := pending b |}.
Definition withPending (q : list Flow) (b : Browser) : Browser :=
  {| timers := timers b; nextTimer := nextTimer b; console := console b; pending := q |}.

(** *** Computations: the world is threaded, an exception may escape *)

Definition M (A : Type) : Type := World -> outcome A * World.

Definition ret {A : Type} (a : A) : M A := fun w => (Returned a, w).
Definition bind {A B : Type} (c : M A) (k : A -> M B) : M B :=
  fun w =>
    match c w with
    | (Returned a, w') => k a w'
    | (Threw err, w') => (Threw err, w')
    end.
Definition throw {A : Type} (err : string) : M A := fun w => (Threw err, w).
Definition tryCatch {A : Type} (c : M A) (handler : string -> M A) : M A :=
  fun w =>
    match c w with
    | (Returned a, w') => (Returned a, w')
    | (Threw err, w') => handler err w'
    end.
Definition get : M World := fun w => (Returned w, w).
Definition modify (f : World -> World) : M unit := fun w => (Returned tt, f w).

(** A call of a function that touches nothing. *)
Definition lift {A : Type} (o : outcome A) : M A :=
  match o with
  | Returned a => ret a
  | Threw err => throw err
  end.

Notation "'let*' x ':=' c 'in' k" := (bind c (fun x => k))
  (at level 10, x name, c at level 100, k at level 200) : js_scope.
Notation "c '>>' k" := (bind c (fun _ => k))
  (at level 90, right associativity) : js_scope.
Local Open Scope js_scope.

Fixpoint forEach {A : Type} (f : A -> M unit) (l : list A) : M unit :=
  match l with
  | nil => ret tt
  | x :: r => f x >> forEach f r
  end.

Fixpoint mapM {A B : Type} (f : A -> M B) (l : list A) : M (list B) :=
  match l with
  | nil => ret nil
  | x :: r => let* y := f x in let* ys := mapM f r in ret (y :: ys)
  end.

(** The world a computation leaves, whatever its outcome. *)
Definition exec {A : Type} (c : M A) (w : World) : World := snd (c w).

(** [setInterval]: a fresh handle; [clearInterval]: a handle that is not
    active (or [null]) is ignored. *)
Definition setInterval : M nat :=
  fun w =>
    let t := nextTimer (browser w) in
    (Returned t,
     onBrowser (fun b => withNextTimer (S t) (withTimers ({[ t ]} ∪ timers b) b)) w).

Definition clearInterval (h : option nat) : M unit :=
  match h with
  | Some t => modify (onBrowser (fun b => withTimers (timers b ∖ {[ t ]}) b))
  | None => ret tt
  end.

Definition consoleLog (line : string) : M unit :=
  modify (onBrowser (fun b => withConsole (console b ++ line :: nil)%list b)).

Definition setStatus (t : string) : M unit := modify (onPage (withSTATUS t)).
Definition setGrid (g : list Node) : M unit := modify (onPage (withGRID g)).
Definition appendChild (n : Node) : M unit :=
  modify (onPage (fun p => withGRID (GRID p ++ n :: nil)%list p)).
Definition setLive (l : gset (option string)) : M unit := modify (onState (withLive l)).

(** The outcome of [await fetchJSON(url)]: the parsed body, or an error
    thrown for a response that is not ok or not JSON. *)
Inductive Response :=
  | Failed (err : string)
  | Json (body : Scoreboard).

Definition fetched (r : Response) : M Scoreboard :=
  match r with
  | Failed err => throw err
  | Json body => ret body
  end.

(** [state.week] or [state.seasonYear] in a template string. *)
Definition showWeek (k : option number) : string :=
  match k with
  | Some n => numberToString n
  | None => "null"
  end.

(** *** Cards *)

Definition teamCell (comp : Competitor) (homeSpread : option number) (isHome : bool)
  : TeamBtn :=
  let nick := teamNickname (team comp) in
  let city := teamCity (team comp) in
  let spreadText := spreadSuffixForSide homeSpread isHome in
  let asWritten := markupFree nick && markupFree (city ++ spreadText) in
  {| btn_className := "team-btn " ++ (if isHome then "home" else "away");
     btn_lineA := if asWritten then Some nick else None;
     btn_lineB := if asWritten then Some (city ++ spreadText) else None;
     btn_disabled := false |}.

Definition disable (b : bool) (t : TeamBtn) : TeamBtn :=
  {| btn_className := btn_className t; btn_lineA := btn_lineA t;
     btn_lineB := btn_lineB t; btn_disabled := b |}.

(** The [aria-label] that [teamCell] gives the button. *)
Definition ariaLabel (comp : Competitor) (homeSpread : option number) (isHome : bool)
  : string :=
  let nick := teamNickname (team comp) in
  let city := teamCity (team comp) in
  let spreadText := spreadSuffixForSide homeSpread isHome in
  let ariaSpread :=
    if String.eqb spreadText "" then "" else " " ++ removeParens spreadText in
  nick ++ ", " ++ city ++ ariaSpread.

(** [x?.textContent?.trim() || ""] on a line of the button *)
Definition readableTeamLabel (btn : TeamBtn) : option string :=
  match btn_lineA btn, btn_lineB btn with
  | Some lineA, Some lineB =>
      let nick := trim lineA in
      let cityRaw := trim lineB in
      let city := stripParenTail cityRaw in
      Some (trim (nick ++ " • " ++ city))
  | _, _ => None
  end.

(** [String(safeInt(x))] *)
Definition scoreText (x : value) : outcome string :=
  let? n := safeInt x in Returned (numberToString n).

Definition createCard (event : Event) : M Card :=
  let comp := match first (competitions event) with
              | Some c => c
              | None => noCompetition
              end in
  let stateStr :=
    toLowerCase (orEmpty (orElse (stateOf (comp_status comp))
                            (orElse (stateOf (ev_status event)) (Some "")))) in
  let cAway := pickCompetitor "away" 0 comp in
  let cHome := pickCompetitor "home" 1 comp in
  let* homeSpread := lift (parseHomeSpread comp) in
  (* outline + live tracking *)
  let* cls :=
    (if String.eqb stateStr "in"
     then (let* w := get in
           setLive ({[ ev_id event ]} ∪ liveEventIds (state w)) >>
           ret "game-card state-live")
     else if String.eqb stateStr "post" then ret "game-card state-final"
     else ret "game-card state-upcoming") in
  let title :=
    parsedText
      (orEmpty (orElse (ev_shortName event) (orElse (comp_name comp) (Some "NFL Game")))) in
  let badge := if String.eqb stateStr "in" then "LIVE"
               else if String.eqb stateStr "post" then "FINAL"
               else "UPCOMING" in
  let awayBtn := teamCell cAway homeSpread false in
  let homeBtn := teamCell cHome homeSpread true in
  let showDash := String.eqb stateStr "pre" in
  let* awayScore := if showDash then ret "—" else lift (scoreText (score cAway)) in
  let* homeScore := if showDash then ret "—" else lift (scoreText (score cHome)) in
  (* recording is enabled only when upcoming *)
  let canRecord := String.eqb stateStr "pre" in
  (* line scores, if available *)
  let* table := if hasLineScores comp
                then (let* t := lift (buildLineScoreTable comp) in ret (Some t))
                else ret None in
  ret {| card_className := cls;
         card_title := title;
         card_badge := badge;
         card_awayBtn := disable (negb canRecord) awayBtn;
         card_awayScore := awayScore;
         card_homeBtn := disable (negb canRecord) homeBtn;
         card_homeScore := homeScore;
         card_lineScore := table;
         card_eventId := ev_id event |}.

(** *** Rendering with section headers *)

Definition noGroups : gmap string (list Event) :=
  {[ "post" := nil; "in" := nil; "pre" := nil ]}.

(** [(groups[s] ?? groups.pre).push(e)]: what [groups] inherits under a
    name is not an array and has no [push]. *)
Definition pushEvent (groups : gmap string (list Event)) (e : Event)
  : outcome (gmap string (list Event)) :=
  let s := getState e in
  match getProperty groups s with
  | Own l => Returned (<[ s := (l ++ e :: nil)%list ]> groups)
  | Inherited _ => Threw TypeError
  | Absent => Returned (<[ "pre" := (match groups !! "pre" with
                                     | Some l => l
                                     | None => nil
                                     end ++ e :: nil)%list ]> groups)
  end.

Fixpoint groupInto (groups : gmap string (list Event)) (events : list Event)
  : outcome (gmap string (list Event)) :=
  match events with
  | nil => Returned groups
  | e :: r => let? g := pushEvent groups e in groupInto g r
  end.

Definition groupEvents (events : list Event) : outcome (gmap string (list Event)) :=
  groupInto noGroups events.

Definition ORDER : list (string * string) :=
  ("post", "Final") :: ("in", "Live") :: ("pre", "Upcoming") :: nil.

Definition renderSection (groups : gmap string (list Event)) (kl : string * string)
  : M unit :=
  let '(key, label) := kl in
  let list := match groups !! key with
              | Some l => l
              | None => nil
              end in
  match list with
  | nil => ret tt
  | _ =>
      appendChild
        (SectionHeader (label ++ " (" ++ decimal (Z.of_nat (length list)) ++ ")")) >>
      let* cards := mapM createCard list in
      appendChild (CardGrid cards)
  end.

Definition renderEvents (events : list Event) : M unit :=
  setGrid nil >>
  setLive ∅ >>
  let* groups := lift (groupEvents events) in
  forEach (renderSection groups) ORDER.

(** *** Recording a pick *)

Record Payload := {
  token : string;
  eventId : string;
  eventName : string;
  shortName : string;
  pl_seasonYear : option number;
  weekNumber : option number;
  pl_spread : option number;
  homeTeam : string;
  awayTeam : string;
  selectionHomeAway : string;
  teamButtonName : string }.

Definition SHEETS_TOKEN : string := "CHANGE_ME_SHARED_SECRET".

Definition teamTag (c : Competitor) : string :=
  match team c with
  | Some t =>
      orEmpty (orElse (team_abbreviation t)
                 (orElse (team_shortDisplayName t) (orElse (team_name t) (Some ""))))
  | None => ""
  end.

(** [-homeSpread]: unary minus converts [null] to [+0] first. *)
Definition negate (homeSpread : option number) : number :=
  neg (match homeSpread with
       | Some h => h
       | None => pzero
       end).

Definition pickPayload (st : State) (event : Event) (selection : string)
  : outcome Payload :=
  let comp := match first (competitions event) with
              | Some c => c
              | None => noCompetition
              end in
  let cAway := pickCompetitor "away" 0 comp in
  let cHome := pickCompetitor "home" 1 comp in
  let homeTeam := teamTag cHome in
  let awayTeam := teamTag cAway in
  let? homeSpread := parseHomeSpread comp in
  (* "null if no odds": computed, then not used *)
  let spread := match homeSpread with
                | None => None
                | Some h => if String.eqb selection "home" then Some h else Some (neg h)
                end in
  Returned
    {| token := SHEETS_TOKEN;
       eventId := orEmpty (ev_id event);
       eventName := orEmpty (orElse (ev_name event)
                               (orElse (ev_shortName event) (orElse (comp_name comp) (Some ""))));
       shortName := orEmpty (ev_shortName event);
       pl_seasonYear := seasonYear st;
       weekNumber := week st;
       pl_spread := if String.eqb selection "home" then homeSpread
                    else Some (negate homeSpread);
       homeTeam := homeTeam;
       awayTeam := awayTeam;
       selectionHomeAway := selection;
       teamButtonName := if String.eqb selection "home" then homeTeam else awayTeam |}.

(** How [JSON.stringify] writes the spread into the request body. *)
Definition spreadJSON (p : Payload) : string :=
  match pl_spread p with
  | None => "null"
  | Some x => if isFinite x then numberToString x else "null"
  end.

(** [recordPick]: the payload is posted; a network failure is logged. *)
Definition recordPick (event : Event) (selection : string) (sent : bool) : M Payload :=
  let* w := get in
  let* payload := lift (pickPayload (state w) event selection) in
  tryCatch (if sent then ret tt else throw "TypeError: Failed to fetch")
           (fun err => consoleLog ("Fire-and-forget failed (network-level): " ++ err)) >>
  ret payload.

(** *** Loading a week, live refresh, start-up

    Each [async] function is cut at its [await fetchJSON(url)]: the part
    before it runs when the function is called, the part after it when the
    request settles.  Between the two, other handlers may run. *)

Section Flows.
Variable Date_parse : string -> option Z.
Variable thisYear : Z.

(** [Array.isArray(data?.events) ? sortEvents(data.events) : []] *)
Definition eventsOf (data : Scoreboard) : list Event :=
  match sb_events data with
  | Some l => sortEvents Date_parse l
  | None => nil
  end.

Definition loadWeek_begin : M unit :=
  let* w := get in
  clearInterval (refreshTimer (state w)) >>
  setLive ∅ >>
  setStatus ("Loading Week " ++ showWeek (week (state w)) ++ "…") >>
  setGrid nil.

Definition loadWeek_resume (r : Response) : M unit :=
  let* data := fetched r in
  let events := eventsOf data in
  let* w := get in
  match events with
  | nil => setStatus ("No games found for Week " ++ showWeek (week (state w)) ++ ".")
  | _ =>
      setStatus ("Showing " ++ decimal (Z.of_nat (length events)) ++ " game"
                 ++ (if (1 <? length events)%nat then "s" else "")
                 ++ " — Week " ++ showWeek (week (state w))) >>
      renderEvents events >>
      (* auto-refresh while there are live games *)
      let* w' := get in
      if negb (size (liveEventIds (state w')) =? 0)%nat
      then let* t := setInterval in modify (onState (withRefreshTimer (Some t)))
      else ret tt
  end.

Definition refreshLive_resume (r : Response) : M unit :=
  tryCatch
    (let* data := fetched r in
     let events := eventsOf data in
     renderEvents events >>
     let* w := get in
     if (size (liveEventIds (state w)) =? 0)%nat
     then clearInterval (refreshTimer (state w))
     else ret tt)
    (fun err => consoleLog ("Live refresh failed: " ++ err)).

(** A call [loadWeek()] runs up to the request, which is then in flight. *)
Definition inFlight (f : Flow) : M unit :=
  modify (onBrowser (fun b => withPending (pending b ++ f :: nil)%list b)).

Definition callLoadWeek (fromInit : bool) : M unit :=
  loadWeek_begin >> inFlight (LoadFlow fromInit).

Definition callRefreshLive : M unit := inFlight RefreshFlow.

(** [a || b] on Numbers that may be absent. *)
Definition orNumber (a b : option number) : option number :=
  match a with
  | Some x => if truthyNumber x then a else b
  | None => b
  end.

(** [a || d] with a Number [d] *)
Definition numberOr (a : option number) (d : number) : number :=
  match a with
  | Some x => if truthyNumber x then x else d
  | None => d
  end.

Definition isRegular (c : CalendarEntry) : bool :=
  match cal_label c with
  | Some l => includes "regular" (toLowerCase l)
  | None => false
  end.

(** The values [1] to [k] of the options of the week selector. *)
Definition optionsUpTo (k : Z) : list Z := List.map Z.of_nat (seq 1 (Z.to_nat k)).

(** The option the loop marks [selected]: one with [i === state.week], a
    later one taking the place of an earlier one. *)
Definition markedSelected (wk : number) (options : list Z) : option Z :=
  fold_left (fun sel i => if strictEq (of_Z i) wk then Some i else sel) options None.

Definition initCatch (err : string) : M unit :=
  consoleLog err >> setStatus "Failed to load current week. Try refresh.".

Definition init_begin : M unit :=
  setStatus "Loading current week…" >> inFlight InitFlow.

Definition init_resume (r : Response) : M unit :=
  tryCatch
    (let* base := fetched r in
     let league := first (leagues base) in
     let currentWeek :=
       orNumber (match league with
                 | Some l => lg_weekNumber l
                 | None => None
                 end) (sb_weekNumber base) in
     let year := numberOr (match league with
                           | Some l => lg_seasonYear l
                           | None => None
                           end) (of_Z thisYear) in
     modify (onState (withSeasonYear (Some year))) >>
     (* regular season max weeks, if available *)
     let calendar := match league with
                     | Some {| lg_calendar := Some c |} => c
                     | _ => nil
                     end in
     (match List.find isRegular calendar with
      | Some {| cal_entries := Some ((_ :: _) as entries) |} =>
          modify (onState (withMaxWeeks (Array_length entries)))
      | _ => ret tt
      end) >>
     (* clamp current week *)
     let* w := get in
     let wk := clamp (numberOr currentWeek (of_Z 1)) (of_Z 1) (of_Z (maxWeeks (state w))) in
     modify (onState (withWeek (Some wk))) >>
     (* populate the week selector *)
     modify (onPage (withWeekOptions (optionsUpTo (maxWeeks (state w))))) >>
     modify (onPage (withWeekValue
                       (markedSelected wk (optionsUpTo (maxWeeks (state w)))))) >>
     modify (onPage (withSeasonLabel
                       ("Season " ++ numberToString year ++ " • Regular Season"))) >>
     (* wire controls *)
     modify (onPage (withWired true)) >>
     callLoadWeek true)
    initCatch.

(** [opt.value = i]: the value of an option is the text of its number. *)
Definition optionValue (i : Z) : string := numberToString (of_Z i).

(** [WEEK_SELECT.value = state.week] selects the first option whose value
    is the text of the week, if there is one, and no option otherwise. *)
Definition selectValue (k : number) (p : Page) : Page :=
  withWeekValue
    (List.find (fun i => String.eqb (optionValue i) (numberToString k)) (weekOptions p)) p.

(** The [change] listener; [v] is the option picked, and the week becomes
    [parseInt(WEEK_SELECT.value, 10)]. *)
Definition onChange (v : Z) : M unit :=
  modify (onState (withWeek (Some (parseInt10 (optionValue v))))) >> callLoadWeek false.

(** In a comparison or an increment [null] counts as 0. *)
Definition weekNum (w : World) : number :=
  match week (state w) with
  | Some n => n
  | None => pzero
  end.

Definition onPrev : M unit :=
  let* w := get in
  if gt (weekNum w) (of_Z 1)
  then modify (onState (withWeek (Some (sub (weekNum w) (of_Z 1))))) >>
       modify (onPage (selectValue (sub (weekNum w) (of_Z 1)))) >>
       callLoadWeek false
  else ret tt.

Definition onNext : M unit :=
  let* w := get in
  if lt (weekNum w) (of_Z (maxWeeks (state w)))
  then modify (onState (withWeek (Some (add (weekNum w) (of_Z 1))))) >>
       modify (onPage (selectValue (add (weekNum w) (of_Z 1)))) >>
       callLoadWeek false
  else ret tt.

Definition onRefresh : M unit := callLoadWeek false.

(** *** The event loop

    One action is one run-to-completion job: a user gesture on a wired
    control, an interval firing, or a request settling. *)

Inductive Action :=
  | ChangeWeek (v : Z)
  | ClickPrev
  | ClickNext
  | ClickRefresh
  | Tick (t : nat)
  | Settle (k : nat) (r : Response).

Definition removeNth {A : Type} (k : nat) (l : list A) : list A :=
  (firstn k l ++ skipn (S k) l)%list.

Definition resume (f : Flow) (r : Response) : M unit :=
  match f with
  | InitFlow => init_resume r
  | LoadFlow true => tryCatch (loadWeek_resume r) initCatch
  | LoadFlow false => loadWeek_resume r
  | RefreshFlow => refreshLive_resume r
  end.

Definition job (a : Action) : M unit :=
  let* w := get in
  match a with
  | ChangeWeek v =>
      if wired (page w) && existsb (Z.eqb v) (weekOptions (page w))
      then modify (onPage (withWeekValue (Some v))) >> onChange v
      else ret tt
  | ClickPrev => if wired (page w) then onPrev else ret tt
  | ClickNext => if wired (page w) then onNext else ret tt
  | ClickRefresh => if wired (page w) then onRefresh else ret tt
  | Tick t => if bool_decide (t ∈ timers (browser w)) then callRefreshLive else ret tt
  | Settle k r =>
      match nth_error (pending (browser w)) k with
      | Some f =>
          modify (onBrowser (fun b => withPending (removeNth k (pending b)) b)) >>
          resume f r
      | None => ret tt
      end
  end.

(** An exception that escapes a job is an unhandled rejection: the world
    stays as the job left it. *)
Definition step (w : World) (a : Action) : World := exec (job a) w.

Definition run (w : World) (trace : list Action) : World := fold_left step trace w.

(** The page once the script has run: [init()] is awaiting its request. *)
Definition boot : World := exec init_begin initialWorld.

Definition polling (w : World) : bool := negb (size (timers (browser w)) =? 0)%nat.

End Flows.

(** *** Marking the picked side

    An element is its class list and its attributes; of a card, its
    descendants in tree order and its [dataset]. *)

Record Element := {
  classList : gset string;
  attributes : gmap string string }.

Record CardEl := {
  descendants : list Element;
  dataset : gmap string string }.

(** [x.classList.toggle(token, force)] *)
Definition toggle (token : string) (force : bool) (x : Element) : Element :=
  {| classList := if force then classList x ∪ {[ token ]} else classList x ∖ {[ token ]};
     attributes := attributes x |}.

(** [x.setAttribute(name, v)], for an attribute other than [class] *)
Definition setAttribute (name v : string) (x : Element) : Element :=
  {| classList := classList x; attributes := <[ name := v ]> (attributes x) |}.

Definition hasClasses (classes : list string) (x : Element) : bool :=
  forallb (fun c => bool_decide (c ∈ classList x)) classes.

(** [root.querySelector(".a.b")]: the position of the first descendant
    that has every class of the selector. *)
Fixpoint querySelector (classes : list string) (l : list Element) : option nat :=
  match l with
  | nil => None
  | x :: r =>
      if hasClasses classes x then Some 0%nat
      else match querySelector classes r with
           | Some k => Some (S k)
           | None => None
           end
  end.

Definition applySelection (cardEl : CardEl) (side : string) : CardEl :=
  match querySelector ("team-btn" :: "away" :: nil) (descendants cardEl),
        querySelector ("team-btn" :: "home" :: nil) (descendants cardEl) with
  | Some away, Some home =>
      let d := descendants cardEl in
      let d := alter (toggle "selected" (String.eqb side "away")) away d in
      let d := alter (toggle "selected" (String.eqb side "home")) home d in
      let d := alter (setAttribute "aria-pressed"
                        (booleanToString (String.eqb side "away"))) away d in
      let d := alter (setAttribute "aria-pressed"
                        (booleanToString (String.eqb side "home"))) home d in
      {| descendants := d; dataset := <[ "selectedSide" := side ]> (dataset cardEl) |}
  | _, _ => cardEl
  end.

End App.

Import App.
Local Open Scope js_scope.

(** ** Inputs used in examples *)

Definition statusOf (st : string) : option Status :=
  Some {| status_type := Some {| st_state := Some st; st_detail := None;
                                 st_shortDetail := None |} |}.

Definition teamOf (abbr nick cityName : string) : option Team :=
  Some {| team_name := Some nick; team_shortDisplayName := Some nick;
          team_abbreviation := Some abbr; team_displayName := None;
          team_location := Some cityName; team_city := None |}.

Definition competitorOf (side abbr nick cityName : string) (sc : value) : Competitor :=
  {| homeAway := Some side; score := sc; team := teamOf abbr nick cityName;
     linescores := None |}.

(** A game between Dallas (away) and Philadelphia (home). *)
Definition gameWith (eid st : string) (d : option string) (o : option (list Odds))
  (awayScore homeScore : value) : Event :=
  {| ev_id := Some eid; ev_date := d; ev_name := Some "Dallas Cowboys at Philadelphia Eagles";
     ev_shortName := Some "DAL @ PHI";
     competitions :=
       Some ({| comp_status := statusOf st;
                competitors :=
                  Some (competitorOf "home" "PHI" "Eagles" "Philadelphia" homeScore
                        :: competitorOf "away" "DAL" "Cowboys" "Dallas" awayScore
                        :: nil);
                odds := o; comp_name := None |} :: nil);
     ev_status := None |}.

(** An upcoming game for which the feed carries no odds. *)
Definition gameWithoutOdds : Event :=
  gameWith "401772510" "pre" (Some "2025-09-05T00:20Z") None (VStr "0") (VStr "0").

(** An upcoming game whose odds entry has [spread: null]. *)
Definition gameWithNullSpread : Event :=
  gameWith "401772510" "pre" (Some "2025-09-05T00:20Z")
           (Some ({| spread := VNull |} :: nil)) (VStr "0") (VStr "0").

Definition competitionOf (e : Event) : Competition :=
  match first (competitions e) with
  | Some c => c
  | None => noCompetition
  end.

(** A competition that has nothing but its odds. *)
Definition oddsOnly (raw : value) : Competition :=
  {| comp_status := None; competitors := None;
     odds := Some ({| spread := raw |} :: nil); comp_name := None |}.

(** [Date.parse] on the kickoff times of the examples. *)
Definition exampleDates (s : string) : option Z :=
  if String.eqb s "2025-09-05T00:20Z" then Some 1757031600000
  else if String.eqb s "2025-09-07T17:00Z" then Some 1757264400000
  else if String.eqb s "2025-09-08T00:20Z" then Some 1757290800000
  else None.

(** The scoreboard the page detects the current week from: week 1 of an
    18-week regular season. *)
Definition startBoard : Scoreboard :=
  {| leagues := Some ({| lg_seasonYear := Some (of_Z 2025); lg_weekNumber := Some (of_Z 1);
                         lg_calendar := None |} :: nil);
     sb_weekNumber := None; sb_events := None |}.

(** A week with one game in progress, and a week without games. *)
Definition liveGame : Event :=
  gameWith "401772510" "in" (Some "2025-09-05T00:20Z") None (VStr "7") (VStr "3").

Definition liveBoard : Scoreboard :=
  {| leagues := None; sb_weekNumber := None; sb_events := Some (liveGame :: nil) |}.

Definition emptyBoard : Scoreboard :=
  {| leagues := None; sb_weekNumber := None; sb_events := Some nil |}.

(** A game whose state is the name of a property that every object
    inherits. *)
Definition prototypeNamedGame : Event :=
  gameWith "401772900" "constructor" (Some "2025-09-07T17:00Z") None (VStr "0") (VStr "0").

(** A JSON object with a property [toString] of its own. *)
Definition opaqueObject : value := VObj (("toString", VNull) :: nil).

(** A final game whose feed has such an object for the score of the away
    side. *)
Definition gameWithObjectScore : Event :=
  gameWith "401772511" "post" None None opaqueObject (VStr "27").

(** ** The order the specification describes

    Status priority post = 0, in = 1, pre = 2, anything else = 3; then the
    kickoff time, ascending. *)

Definition rankOfState (st : string) : Z :=
  if String.eqb st "post" then 0
  else if String.eqb st "in" then 1
  else if String.eqb st "pre" then 2
  else 3.

Definition priority (e : Event) : Z := rankOfState (getState e).

(** The state of the event is not the name of a property that an object
    literal inherits. *)
Definition ownState (e : Event) : bool := negb (inheritedName (getState e)).

Definition eventLe (Date_parse : string -> option Z) (a b : Event) : Prop :=
  priority a < priority b
  \/ (priority a = priority b
      /\ exists ta tb, timeOf Date_parse a = Some ta /\ timeOf Date_parse b = Some tb
                       /\ ta <= tb).

(** The events with priority [r] and kickoff time [t]. *)
Definition hasKey (Date_parse : string -> option Z) (r t : Z) (e : Event) : bool :=
  (priority e =? r)
  && match timeOf Date_parse e with
     | Some t' => t' =? t
     | None => false
     end.

(** No event of a list comes before one of lower priority, or before one
    of the same priority that kicks off earlier. *)
Definition inOrder (Date_parse : string -> option Z) (a b : Event) : bool :=
  (priority a <=? priority b)
  && (negb (priority a =? priority b)
      || match timeOf Date_parse a, timeOf Date_parse b with
         | Some ta, Some tb => ta <=? tb
         | _, _ => true
         end).

Fixpoint orderedByRankThenKickoff (Date_parse : string -> option Z) (l : list Event) : bool :=
  match l with
  | nil => true
  | a :: r => forallb (inOrder Date_parse a) r && orderedByRankThenKickoff Date_parse r
  end.

(** Three upcoming games; the feed has no date for the second. *)
Definition mondayGame : Event :=
  gameWith "401772630" "pre" (Some "2025-09-08T00:20Z") None (VStr "0") (VStr "0").
Definition undatedGame : Event :=
  gameWith "401772631" "pre" None None (VStr "0") (VStr "0").
Definition thursdayGame : Event :=
  gameWith "401772510" "pre" (Some "2025-09-05T00:20Z") None (VStr "0") (VStr "0").
Definition sundayLiveGame : Event :=
  gameWith "401772720" "in" (Some "2025-09-07T17:00Z") None (VStr "14") (VStr "10").

(** ** The suffix the specification describes

    For a side value that is not a pick'em: an explicit sign, then the
    magnitude to at most one decimal place, a trailing [.0] trimmed. *)

Definition TWO53 : number := Eval vm_compute in of_Z (2 ^ 53).

Definition isNegative (x : number) : bool :=
  match x with
  | S754_zero s | S754_infinity s | S754_finite s _ _ => s
  | S754_nan => false
  end.

(** [T] is the integer nearest to ten times the magnitude of [x] (the
    larger one when two are equally near): [T - 1/2 <= 10 |x| < T + 1/2]. *)
Definition nearestTenth (x : number) (T : Z) : Prop :=
  match x with
  | S754_finite _ m e =>
      (2 * T - 1) * 2 ^ Z.max (- e) 0 <= 20 * Zpos m * 2 ^ Z.max e 0
      /\ 20 * Zpos m * 2 ^ Z.max e 0 < (2 * T + 1) * 2 ^ Z.max (- e) 0
  | _ => T = 0
  end.

(** [T] tenths, written with at most one decimal place. *)
Definition oneDecimal (T : Z) : string :=
  decimal (T / 10) ++ (if T mod 10 =? 0 then "" else "." ++ digitChar (T mod 10)).

(** A numeral with at most one decimal place and no exponent: an optional
    minus sign, digits, and possibly a point followed by one digit. *)
Fixpoint digitsThenPoint (seen : bool) (s : string) : bool :=
  match s with
  | EmptyString => seen
  | String c r =>
      if isDigit c then digitsThenPoint true r
      else if Ascii.eqb c "." then
             seen && match r with
                     | String d EmptyString => isDigit d
                     | _ => false
                     end
           else false
  end.

Definition plainDecimal (s : string) : bool :=
  match s with
  | String "-" r => digitsThenPoint false r
  | _ => digitsThenPoint false s
  end.

(** A spread beyond the integers a Number holds exactly. *)
Definition hugeSpread : number := Eval vm_compute in of_Z (2 ^ 70).

(** ** The view the specification describes

    The three buckets of a list of events, and the nodes the grid holds for
    them: a header and a card grid per bucket that is not empty. *)

Definition isFinal (e : Event) : bool := String.eqb (getState e) "post".
Definition isLive (e : Event) : bool := String.eqb (getState e) "in".
Definition isUpcoming (e : Event) : bool := negb (isFinal e) && negb (isLive e).

(** The card of an event, or the exception that building it throws;
    neither depends on the world. *)
Definition cardOf (e : Event) : outcome Card := fst (createCard e initialWorld).

(** An event can be rendered when its state is not a name that an object
    literal inherits and its card can be built. *)
Definition renderable (e : Event) : bool := ownState e && returns (cardOf e).

(** The cards of the events that have one. *)
Definition cardsOf (l : list Event) : list Card :=
  flat_map (fun e => match cardOf e with
                     | Returned c => c :: nil
                     | Threw _ => nil
                     end) l.

Definition bucketNodes (label : string) (l : list Event) : list Node :=
  match l with
  | nil => nil
  | _ => SectionHeader (label ++ " (" ++ decimal (Z.of_nat (length l)) ++ ")")
         :: CardGrid (cardsOf l) :: nil
  end.

Definition viewOf (events : list Event) : list Node :=
  (bucketNodes "Final" (List.filter isFinal events)
   ++ bucketNodes "Live" (List.filter isLive events)
   ++ bucketNodes "Upcoming" (List.filter isUpcoming events))%list.

(** The identifiers of the events classified "in". *)
Definition liveIdsOf (events : list Event) : gset (option string) :=
  list_to_set (List.map ev_id (List.filter isLive events)).

(** The world after one bucket has been rendered. *)
Definition afterBucket (label : string) (l : list Event) (w : World) : World :=
  onPage (fun p => withGRID (GRID p ++ bucketNodes label l)%list p)
         (match List.filter isLive l with
          | nil => w
          | _ => onState (withLive (liveIdsOf l ∪ liveEventIds (state w))) w
          end).

(** The groups hold the three buckets, and no other key. *)
Definition groupsAre (g : gmap string (list Event)) (a b c : list Event) : Prop :=
  g !! "post" = Some a /\ g !! "in" = Some b /\ g !! "pre" = Some c
  /\ forall k, k <> "post" -> k <> "in" -> k <> "pre" -> g !! k = None.

(** The world with an empty grid and an empty Live Set. *)
Definition cleared (w : World) : World :=
  onPage (withGRID nil) (onState (withLive ∅) w).

(** A value that is neither an array nor an object. *)
Definition primitive (v : value) : bool :=
  match v with
  | VArr _ | VObj _ => false
  | _ => true
  end.

(** The value converts to a string without an exception. *)
Definition coercible (v : value) : bool := returns (ToString v).

(** The values the table builder converts: the period values of every
    competitor and its score. *)
Definition tableValues (competition : Competition) : list value :=
  flat_map (fun c => (List.map periodValue (lineScoresOf c) ++ score c :: nil)%list)
           (match competitors competition with
            | Some l => l
            | None => nil
            end).

(** The values that building the card of an event converts: the spread;
    the two scores, unless the game is "pre"; the values of the line-score
    table, when the card has one. *)
Definition cardValues (e : Event) : list value :=
  let comp := competitionOf e in
  ((match first (odds comp) with
    | Some o => spread o
    | None => VUndefined
    end)
   :: (if String.eqb (getState e) "pre" then nil
       else score (pickCompetitor "away" 0 comp)
            :: score (pickCompetitor "home" 1 comp) :: nil)
   ++ (if hasLineScores comp then tableValues comp else nil))%list.

(** ** The world a load cycle starts from *)

Definition clearTimer (h : option nat) (w : World) : World :=
  match h with
  | Some t => onBrowser (fun b => withTimers (timers b ∖ {[ t ]}) b) w
  | None => w
  end.

Definition afterLoadBegin (w : World) : World :=
  onPage (withGRID nil)
    (onPage (withSTATUS ("Loading Week " ++ showWeek (week (state w)) ++ "…"))
       (onState (withLive ∅) (clearTimer (refreshTimer (state w)) w))).

(** ** Season selection

    What a flow leaves alone, and the invariant of the week number: until
    start-up has succeeded nothing is wired and the week is unset; from
    then on the week is one of the selector's options 1..maxWeeks. *)

Definition sameSeason (w w' : World) : Prop :=
  week (state w') = week (state w)
  /\ maxWeeks (state w') = maxWeeks (state w)
  /\ weekOptions (page w') = weekOptions (page w)
  /\ wired (page w') = wired (page w).

Definition seasonInv (w : World) : Prop :=
  1 <= maxWeeks (state w) < 2 ^ 32
  /\ ((week (state w) = None /\ wired (page w) = false)
      \/ (exists n, week (state w) = Some (of_Z n) /\ 1 <= n <= maxWeeks (state w))
         /\ weekOptions (page w) = optionsUpTo (maxWeeks (state w))).

(** The Number, if the feed has it, is that of an integer of magnitude
    below [2^53]. *)
Definition wholeNumber (x : option number) : Prop :=
  match x with
  | Some y => exists k, - 2 ^ 53 < k < 2 ^ 53 /\ y = of_Z k
  | None => True
  end.

(** The week numbers of a response are whole. *)
Definition wholeWeeks (r : Response) : Prop :=
  match r with
  | Json d =>
      wholeNumber (sb_weekNumber d)
      /\ match first (leagues d) with
         | Some l => wholeNumber (lg_weekNumber l)
         | None => True
         end
  | Failed _ => True
  end.

Definition wholeWeeksIn (a : Action) : Prop :=
  match a with
  | Settle _ r => wholeWeeks r
  | _ => True
  end.

(** The feed reports week 1.5. *)
Definition halfWeekBoard : Scoreboard :=
  {| leagues := Some ({| lg_seasonYear := Some (of_Z 2025);
                         lg_weekNumber := Some (StringToNumber "1.5");
                         lg_calendar := None |} :: nil);
     sb_weekNumber := None; sb_events := None |}.

(** ** The poll scheduler

    The scheduler is Polling when an interval timer is active.  A run is
    sequential when every flow settles before the next one begins: start-up
    and its first load, then pairs of an action and the settling of the
    request it issued. *)

Definition oneTimerAtMost (w : World) : Prop :=
  timers (browser w) = ∅
  \/ exists t, refreshTimer (state w) = Some t /\ timers (browser w) = {[ t ]}.

Definition quiet (w : World) : Prop :=
  pending (browser w) = nil
  /\ oneTimerAtMost w
  /\ (timers (browser w) <> ∅ <-> liveEventIds (state w) <> ∅).

Definition flowActions (f : Action * Response) : list Action :=
  fst f :: Settle 0 (snd f) :: nil.

Definition sequential (r0 r1 : Response) (flows : list (Action * Response)) : list Action :=
  Settle 0 r0 :: Settle 0 r1 :: flat_map flowActions flows.

(** The load cycles in flight. *)
Definition isLoad (f : Flow) : bool :=
  match f with
  | LoadFlow _ => true
  | _ => false
  end.

Definition loadsInFlight (w : World) : nat :=
  length (List.filter isLoad (pending (browser w))).

(** While a load cycle is in flight no timer is active, and at any time
    the only timer there may be is the one whose handle the state holds. *)
Definition schedulerInv (w : World) : Prop :=
  oneTimerAtMost w /\ ((1 <= loadsInFlight w)%nat -> timers (browser w) = ∅).

(** The worlds a run goes through, the first one included. *)
Fixpoint worlds (Date_parse : string -> option Z) (thisYear : Z)
  (w : World) (trace : list Action) : list World :=
  match trace with
  | nil => w :: nil
  | a :: rest => w :: worlds Date_parse thisYear (step Date_parse thisYear w a) rest
  end.

(** Every event of the response can be rendered. *)
Definition rendersWell (r : Response) : Prop :=
  match r with
  | Json d => Forall (fun e => renderable e = true)
                     (match sb_events d with
                      | Some l => l
                      | None => nil
                      end)
  | Failed _ => True
  end.

(** The events a job renders, if it renders. *)
Definition renderedBy (Date_parse : string -> option Z) (w : World) (a : Action)
  : option (list Event) :=
  match a with
  | Settle k (Json d) =>
      match nth_error (pending (browser w)) k with
      | Some (LoadFlow _) =>
          match eventsOf Date_parse d with
          | nil => None
          | evs => Some evs
          end
      | Some RefreshFlow => Some (eventsOf Date_parse d)
      | _ => None
      end
  | _ => None
  end.

(** The events of the most recent render of a run. *)
Fixpoint lastRender (Date_parse : string -> option Z) (thisYear : Z)
  (w : World) (trace : list Action) (last : option (list Event)) : option (list Event) :=
  match trace with
  | nil => last
  | a :: rest =>
      lastRender Date_parse thisYear (step Date_parse thisYear w a) rest
                 (match renderedBy Date_parse w a with
                  | Some evs => Some evs
                  | None => last
                  end)
  end.

(** Two load cycles in flight at once: the user presses Refresh while the
    first load of the page is still waiting for its response. *)
Definition overlappingLoads : list Action :=
  Settle 0 (Json startBoard) :: ClickRefresh
  :: Settle 0 (Json liveBoard) :: Settle 0 (Json liveBoard) :: nil.

(** A week with a live game is shown, then the user moves to a week
    without games. *)
Definition liveThenEmptyWeek : list Action :=
  sequential (Json startBoard) (Json liveBoard) ((ClickNext, Json emptyBoard) :: nil).

(** A week with a live game is shown; at the next tick the feed has, next
    to the live game, a game that cannot be rendered. *)
Definition brokenBoard : Scoreboard :=
  {| leagues := None; sb_weekNumber := None;
     sb_events := Some (liveGame :: prototypeNamedGame :: nil) |}.

Definition liveThenBrokenTick : list Action :=
  sequential (Json startBoard) (Json liveBoard) ((Tick 1, Json brokenBoard) :: nil).

(** ** Further notions

    What the properties of the rest of the script are stated with. *)

(** The number of cards in the grid. *)
Fixpoint cardCount (g : list Node) : nat :=
  match g with
  | nil => 0%nat
  | CardGrid cards :: r => (length cards + cardCount r)%nat
  | SectionHeader _ :: r => cardCount r
  end.

(** [data?.events], when it is an array. *)
Definition eventsIn (d : Scoreboard) : list Event :=
  match sb_events d with
  | Some l => l
  | None => nil
  end.

(** An upcoming game with the home side favoured by 3.5. *)
Definition homeFavoured : Event :=
  gameWith "401772510" "pre" None (Some ({| spread := VStr "-3.5" |} :: nil))
           (VStr "0") (VStr "0").

(** The page once the first week, with a game in progress, is shown. *)
Definition liveWeekShown : World :=
  run exampleDates 2025 boot
      (Settle 0 (Json startBoard) :: Settle 0 (Json liveBoard) :: nil).

(** Nothing is wired, no timer runs and no request is in flight. *)
Definition inert (w : World) : Prop :=
  wired (page w) = false /\ timers (browser w) = ∅ /\ pending (browser w) = nil.

Definition isSelected (x : Element) : bool := bool_decide ("selected" ∈ classList x).

(** A card with its two team buttons, nothing picked yet. *)
Definition freshCard : CardEl :=
  {| descendants :=
       {| classList := {[ "teams" ]}; attributes := ∅ |}
       :: {| classList := {[ "team-btn"; "away" ]}; attributes := ∅ |}
       :: {| classList := {[ "score-right"; "awayScore" ]}; attributes := ∅ |}
       :: {| classList := {[ "team-btn"; "home" ]}; attributes := ∅ |}
       :: {| classList := {[ "score-right"; "homeScore" ]}; attributes := ∅ |} :: nil;
     dataset := {[ "eventId" := "401772510" ]} |}.

(** The number of period columns of a table. *)
Definition periodColumns (t : LineTable) : nat := (length (lt_header t) - 2)%nat.

(** Two teams; the feed has three periods for the away side and two for
    the home side. *)
Definition shortHome : Competitor :=
  {| homeAway := Some "home"; score := VStr "24";
     team := teamOf "PHI" "Eagles" "Philadelphia";
     linescores := Some ({| ls_value := VNum (of_Z 7); ls_displayValue := VStr "7";
                            ls_score := VUndefined |}
                         :: {| ls_value := VUndefined; ls_displayValue := VStr "17";
                               ls_score := VUndefined |} :: nil) |}.

Definition longAway : Competitor :=
  {| homeAway := Some "away"; score := VStr "27";
     team := teamOf "DAL" "Cowboys" "Dallas";
     linescores := Some ({| ls_value := VNum (of_Z 10); ls_displayValue := VUndefined;
                            ls_score := VUndefined |}
                         :: {| ls_value := VNull; ls_displayValue := VNull;
                               ls_score := VNull |}
                         :: {| ls_value := VNum (of_Z 17); ls_displayValue := VUndefined;
                               ls_score := VUndefined |} :: nil) |}.

Definition unevenGame : Competition :=
  {| comp_status := statusOf "post"; competitors := Some (shortHome :: longAway :: nil);
     odds := None; comp_name := None |}.

Definition unevenTable : LineTable :=
  {| lt_header := "" :: "Q1" :: "Q2" :: "Q3" :: "T" :: nil;
     lt_rows := ("PHI", "7" :: "17" :: "" :: "24" :: nil)
                :: ("DAL", "10" :: "0" :: "17" :: "27" :: nil) :: nil |}.

(** The decimal text of an integer. *)
Definition showZ (n : Z) : string :=
  if n <? 0 then "-" ++ decimal (- n) else decimal n.

(** Text that does not go on with a decimal digit. *)
Definition noDigitAhead (rest : string) : bool :=
  match rest with
  | EmptyString => true
  | String c _ => negb (isDigit c)
  end.

(** Text without an opening parenthesis. *)
Fixpoint noParen (s : string) : bool :=
  match s with
  | EmptyString => true
  | String c r => negb (Ascii.eqb c "(") && noParen r
  end.

(** Text of plain characters: no parenthesis and no line terminator. *)
Definition plainChar (c : ascii) : bool :=
  negb (code c =? 10) && negb (code c =? 13) && negb (code c =? 226)
  && negb (code c =? 40) && negb (code c =? 41).

Fixpoint plain (s : string) : bool :=
  match s with
  | EmptyString => true
  | String c r => plainChar c && plain r
  end.

(** Text of the characters a Number is written with, and of those of
    "PK". *)
Definition numeralChar (c : ascii) : bool :=
  isDigit c || existsb (Ascii.eqb c) (list_ascii_of_string "+-.eInfinityNaPK").

Fixpoint numeral (s : string) : bool :=
  match s with
  | EmptyString => true
  | String c r => numeralChar c && numeral r
  end.

(** The text is empty or starts with an ASCII character. *)
Definition asciiHead (s : string) : bool :=
  match s with
  | EmptyString => true
  | String c _ => code c <? 128
  end.

(** One step of [skipWhite]: the text starts with a white-space character
    and [rest] follows it, or it starts with none. *)
Inductive whiteStep : string -> option string -> Prop :=
  | ws_empty : whiteStep "" None
  | ws_one (a : ascii) (r : string) :
      ((code a =? 9) || (code a =? 10) || (code a =? 11) || (code a =? 12)
       || (code a =? 13) || (code a =? 32)) = true ->
      whiteStep (String a r) (Some r)
  | ws_two (a b : ascii) (r : string) :
      ((code a =? 9) || (code a =? 10) || (code a =? 11) || (code a =? 12)
       || (code a =? 13) || (code a =? 32)) = false ->
      ((code a =? 194) && (code b =? 160)) = true ->
      whiteStep (String a (String b r)) (Some r)
  | ws_three (a b c : ascii) (r : string) :
      ((code a =? 9) || (code a =? 10) || (code a =? 11) || (code a =? 12)
       || (code a =? 13) || (code a =? 32)) = false ->
      ((code a =? 194) && (code b =? 160)) = false ->
      white3 (code a) (code b) (code c) = true ->
      whiteStep (String a (String b (String c r))) (Some r)
  | ws_none (a : ascii) (r : string) :
      skipWhite (String a r) = String a r ->
      (forall y, asciiHead y = true -> skipWhite (String a r ++ y) = String a r ++ y) ->
      whiteStep (String a r) None.
(** ** Theorems *)

(** *** Spread of an event without odds *)

Lemma parseHomeSpread_no_odds (c : Competition) :
  first (odds c) = None -> parseHomeSpread c = Returned None.
Proof. intros H. unfold parseHomeSpread. rewrite H. reflexivity. Qed.

(** C1 (the suffix part holds; the payload part fails for the away side):
    for the game without odds the home spread is [null] and both suffixes
    are empty; a pick of the home side posts [spread: null], but a pick of
    the away side posts [-null], which is the Number -0 and is written as
    [0] in the request body. *)
Theorem C1_away_pick_without_odds_posts_zero (st : State) :
  parseHomeSpread (competitionOf gameWithoutOdds) = Returned None
  /\ (let? h := parseHomeSpread (competitionOf gameWithoutOdds) in
      Returned (spreadSuffixForSide h true)) = Returned ""
  /\ (let? h := parseHomeSpread (competitionOf gameWithoutOdds) in
      Returned (spreadSuffixForSide h false)) = Returned ""
  /\ (let? p := pickPayload st gameWithoutOdds "home" in Returned (pl_spread p))
     = Returned None
  /\ (let? p := pickPayload st gameWithoutOdds "away" in Returned (pl_spread p))
     = Returned (Some nzero)
  /\ (let? p := pickPayload st gameWithoutOdds "away" in Returned (spreadJSON p))
     = Returned "0".
Proof. repeat split; reflexivity. Qed.

(** *** The home spread *)

Lemma parseHomeSpread_number (c : Competition) (o : Odds) (rest : list Odds) (x : number) :
  odds c = Some (o :: rest) -> spread o = VNum x -> isFinite x = true ->
  parseHomeSpread c = Returned (Some x).
Proof.
  intros Ho Hs Hx. unfold parseHomeSpread. rewrite Ho. simpl. rewrite Hs. simpl.
  rewrite Hx. reflexivity.
Qed.

Lemma parseHomeSpread_missing_field (c : Competition) (o : Odds) (rest : list Odds) :
  odds c = Some (o :: rest) -> spread o = VUndefined -> parseHomeSpread c = Returned None.
Proof.
  intros Ho Hs. unfold parseHomeSpread. rewrite Ho. simpl. rewrite Hs. reflexivity.
Qed.

(** C2 (fails for a [null] spread): [Number(null)] is 0, which is finite,
    so the odds entry [{spread: null}] yields the spread 0 instead of
    [null]; the empty string behaves the same way.  An absent odds array, a
    missing field and a string that is not a numeric literal do yield
    [null], and a finite Number is returned as it is. *)
Theorem C2_null_spread_parses_as_zero :
  parseHomeSpread (competitionOf gameWithNullSpread) = Returned (Some pzero)
  /\ (let? h := parseHomeSpread (competitionOf gameWithNullSpread) in
      Returned (spreadSuffixForSide h true)) = Returned " (PK)"
  /\ parseHomeSpread
       {| comp_status := None; competitors := None;
          odds := Some ({| spread := VStr "" |} :: nil); comp_name := None |}
     = Returned (Some pzero)
  /\ parseHomeSpread (competitionOf gameWithoutOdds) = Returned None
  /\ parseHomeSpread
       {| comp_status := None; competitors := None;
          odds := Some ({| spread := VUndefined |} :: nil); comp_name := None |}
     = Returned None
  /\ parseHomeSpread
       {| comp_status := None; competitors := None;
          odds := Some ({| spread := VStr "EVEN" |} :: nil); comp_name := None |}
     = Returned None
  /\ parseHomeSpread
       {| comp_status := None; competitors := None;
          odds := Some ({| spread := VStr "-3.5" |} :: nil); comp_name := None |}
     = Returned (Some (StringToNumber "-3.5")).
Proof. repeat split; vm_compute; reflexivity. Qed.

(** *** Rendering *)

Lemma eqb_string_eq (a b : string) : String.eqb a b = true <-> a = b.
Proof. apply String.eqb_eq. Qed.

Lemma bind_run {A B : Type} (c : M A) (k : A -> M B) (w w' : World) (a : A) :
  c w = (Returned a, w') -> bind c k w = k a w'.
Proof. intros H. unfold bind. rewrite H. reflexivity. Qed.

Lemma createCard_state (e : Event) :
  toLowerCase (orEmpty (orElse (stateOf (comp_status (competitionOf e)))
                          (orElse (stateOf (ev_status e)) (Some "")))) = getState e.
Proof.
  unfold getState, competitionOf. destruct (first (competitions e)); reflexivity.
Qed.

(** [createCard] adds the event to the Live Set when it is "in" and its
    spread can be read, and touches nothing else; whether it returns, and
    the card it returns, do not depend on the world. *)
Lemma createCard_run (e : Event) (w : World) :
  createCard e w =
    (cardOf e,
     if isLive e && returns (parseHomeSpread (competitionOf e))
     then onState (withLive ({[ ev_id e ]} ∪ liveEventIds (state w))) w
     else w).
Proof.
  unfold cardOf, createCard, isLive.
  fold (competitionOf e). rewrite createCard_state.
  destruct (parseHomeSpread (competitionOf e)) as [h|err]; cbn [returns lift];
    [|rewrite andb_false_r; reflexivity].
  rewrite andb_true_r.
  unfold bind, ret, throw, get, setLive, modify, lift.
  destruct (String.eqb (getState e) "in"), (String.eqb (getState e) "post"),
    (String.eqb (getState e) "pre"),
    (scoreText (score (pickCompetitor "away" 0 (competitionOf e)))),
    (scoreText (score (pickCompetitor "home" 1 (competitionOf e)))),
    (hasLineScores (competitionOf e)), (buildLineScoreTable (competitionOf e));
    reflexivity.
Qed.

Lemma cardOf_parse (e : Event) :
  returns (cardOf e) = true -> returns (parseHomeSpread (competitionOf e)) = true.
Proof.
  unfold cardOf, createCard. fold (competitionOf e).
  destruct (parseHomeSpread (competitionOf e)); [reflexivity|]. cbn. trivial.
Qed.

Lemma returns_forallb {A B : Type} (f : A -> outcome B) (l : list A) :
  returns (mapOutcome f l) = forallb (fun x => returns (f x)) l.
Proof.
  induction l as [|x l IH]; [reflexivity|]. cbn [mapOutcome forallb].
  destruct (f x); cbn [andThen returns andb]; [|reflexivity].
  rewrite <- IH. destruct (mapOutcome f l); reflexivity.
Qed.

Lemma mapM_createCard_fst (l : list Event) (w : World) :
  fst (mapM createCard l w) = mapOutcome cardOf l.
Proof.
  revert w. induction l as [|e l IH]; intros w; [reflexivity|].
  cbn [mapM mapOutcome]. unfold bind at 1. rewrite createCard_run.
  destruct (cardOf e) as [c|err]; cbn [andThen]; [|reflexivity].
  unfold bind at 1.
  match goal with |- context [mapM createCard l ?w'] => specialize (IH w') end.
  destruct (mapM createCard l _) as [[cs|err] w'']; cbn [fst] in IH; rewrite <- IH; reflexivity.
Qed.

Lemma cardsOf_cons (e : Event) (c : Card) (l : list Event) :
  cardOf e = Returned c -> cardsOf (e :: l) = c :: cardsOf l.
Proof. intros H. unfold cardsOf. cbn [flat_map]. rewrite H. reflexivity. Qed.

Lemma mapM_createCard (l : list Event) (w : World) :
  Forall (fun e => returns (cardOf e) = true) l ->
  mapM createCard l w =
    (Returned (cardsOf l),
     match List.filter isLive l with
     | nil => w
     | _ => onState (withLive (liveIdsOf l ∪ liveEventIds (state w))) w
     end).
Proof.
  intros Hall. revert w. induction Hall as [|e l He Hl IH]; intros w; [reflexivity|].
  cbn [mapM]. unfold bind at 1. rewrite createCard_run.
  rewrite (cardOf_parse e He), andb_true_r.
  destruct (cardOf e) as [c|err] eqn:Hc; [|discriminate].
  unfold bind at 1. rewrite IH. unfold ret, liveIdsOf.
  rewrite (cardsOf_cons e c l Hc).
  cbn [List.filter]. destruct (isLive e) eqn:Hlive.
  - cbn [List.map list_to_set]. destruct (List.filter isLive l) eqn:Hf.
    + unfold onState, withLive. simpl. do 3 f_equal. set_solver.
    + unfold onState, withLive. simpl. do 3 f_equal. set_solver.
  - reflexivity.
Qed.

(** The Live Set after some cards have been built, whether or not one of
    them threw: nothing but identifiers of events that are "in" is added. *)
Lemma mapM_createCard_live (l : list Event) (w : World) :
  liveEventIds (state (snd (mapM createCard l w))) ⊆ liveEventIds (state w) ∪ liveIdsOf l
  /\ page (snd (mapM createCard l w)) = page w
  /\ browser (snd (mapM createCard l w)) = browser w.
Proof.
  revert w. induction l as [|e l IH]; intros w.
  - cbn. repeat split. set_solver.
  - pose (w1 := if isLive e && returns (parseHomeSpread (competitionOf e))
                then onState (withLive ({[ ev_id e ]} ∪ liveEventIds (state w))) w
                else w).
    assert (E : mapM createCard (e :: l) w
                = match cardOf e with
                  | Returned c =>
                      match mapM createCard l w1 with
                      | (Returned cs, w2) => (Returned (c :: cs), w2)
                      | (Threw err, w2) => (Threw err, w2)
                      end
                  | Threw err => (Threw err, w1)
                  end).
    { cbn [mapM]. unfold bind at 1. rewrite createCard_run. fold w1.
      destruct (cardOf e); [|reflexivity]. unfold bind, ret.
      destruct (mapM createCard l w1) as [[cs|err] w2]; reflexivity. }
    rewrite E. clear E.
    assert (H1 : liveEventIds (state w1) ⊆ liveEventIds (state w) ∪ liveIdsOf (e :: l)
                 /\ page w1 = page w /\ browser w1 = browser w).
    { subst w1. unfold liveIdsOf. cbn [List.filter].
      destruct (isLive e); cbn [andb];
        [destruct (returns _)|]; cbn; repeat split; set_solver. }
    assert (H2 : liveIdsOf l ⊆ liveIdsOf (e :: l)).
    { unfold liveIdsOf. cbn [List.filter]. destruct (isLive e); cbn; set_solver. }
    clearbody w1. destruct H1 as (Ha & Hb & Hc).
    destruct (cardOf e) as [c|err]; [|repeat split; assumption].
    destruct (IH w1) as (Ia & Ib & Ic).
    destruct (mapM createCard l w1) as [[cs|err] w2]; cbn [snd] in *;
      (repeat split; [set_solver|congruence|congruence]).
Qed.

Lemma noGroups_are : groupsAre noGroups nil nil nil.
Proof.
  unfold groupsAre, noGroups. repeat split.
  intros k H1 H2 H3. rewrite !lookup_insert_ne by congruence.
  apply lookup_singleton_ne. congruence.
Qed.

(** An event is filed under its state, under "pre" when the state is no
    key of the groups, and not at all when the state names a property that
    the groups inherit: [push] is then called on what is not an array. *)
Lemma pushEvent_groups (g : gmap string (list Event)) (a b c : list Event) (e : Event) :
  groupsAre g a b c ->
  if ownState e
  then exists g', pushEvent g e = Returned g'
                  /\ groupsAre g' (a ++ List.filter isFinal (e :: nil))
                                  (b ++ List.filter isLive (e :: nil))
                                  (c ++ List.filter isUpcoming (e :: nil))
  else pushEvent g e = Threw TypeError.
Proof.
  intros (Ha & Hb & Hc & Hn).
  unfold ownState, pushEvent, getProperty, isUpcoming, isFinal, isLive. cbn [List.filter].
  destruct (String.eqb (getState e) "post") eqn:E1.
  { apply eqb_string_eq in E1. rewrite E1, Ha. cbn. eexists. split; [reflexivity|].
    unfold groupsAre. rewrite lookup_insert_eq, !lookup_insert_ne by discriminate.
    rewrite !app_nil_r. repeat split; try assumption.
    intros k H1 H2 H3. rewrite lookup_insert_ne by congruence. auto. }
  destruct (String.eqb (getState e) "in") eqn:E2.
  { apply eqb_string_eq in E2. rewrite E2, Hb. cbn. eexists. split; [reflexivity|].
    unfold groupsAre. rewrite lookup_insert_eq, !lookup_insert_ne by discriminate.
    rewrite !app_nil_r. repeat split; try assumption.
    intros k H1 H2 H3. rewrite lookup_insert_ne by congruence. auto. }
  apply String.eqb_neq in E1, E2. cbn [negb andb].
  destruct (String.eqb (getState e) "pre") eqn:E3.
  { apply eqb_string_eq in E3. rewrite E3, Hc. cbn. eexists. split; [reflexivity|].
    unfold groupsAre. rewrite lookup_insert_eq, !lookup_insert_ne by discriminate.
    rewrite !app_nil_r. repeat split; try assumption.
    intros k H1 H2 H3. rewrite lookup_insert_ne by congruence. auto. }
  apply String.eqb_neq in E3. rewrite (Hn _ E1 E2 E3).
  destruct (inheritedName (getState e)); cbn [negb]; [reflexivity|].
  rewrite Hc. eexists. split; [reflexivity|].
  unfold groupsAre. rewrite lookup_insert_eq, !lookup_insert_ne by discriminate.
  rewrite !app_nil_r. repeat split; try assumption.
  intros k H1 H2 H3. rewrite lookup_insert_ne by congruence. auto.
Qed.

Lemma groupInto_groups (l : list Event) :
  forall g a b c, groupsAre g a b c ->
  if forallb ownState l
  then exists g', groupInto g l = Returned g'
                  /\ groupsAre g' (a ++ List.filter isFinal l) (b ++ List.filter isLive l)
                                  (c ++ List.filter isUpcoming l)
  else groupInto g l = Threw TypeError.
Proof.
  induction l as [|e l IH]; intros g a b c Hg.
  - cbn. exists g. rewrite !app_nil_r. split; [reflexivity|exact Hg].
  - cbn [forallb groupInto]. pose proof (pushEvent_groups g a b c e Hg) as Hp.
    destruct (ownState e); cbn [andb]; [|rewrite Hp; reflexivity].
    destruct Hp as (g1 & -> & Hg1). cbn [andThen].
    specialize (IH _ _ _ _ Hg1). destruct (forallb ownState l); [|exact IH].
    destruct IH as (g' & Hrun & Hg'). exists g'. split; [exact Hrun|].
    rewrite <- !app_assoc in Hg'.
    change (e :: l) with ((e :: nil) ++ l)%list. rewrite !List.filter_app. exact Hg'.
Qed.

Lemma groupEvents_are (events : list Event) :
  if forallb ownState events
  then exists g, groupEvents events = Returned g
                 /\ groupsAre g (List.filter isFinal events) (List.filter isLive events)
                                (List.filter isUpcoming events)
  else groupEvents events = Threw TypeError.
Proof. apply (groupInto_groups events _ nil nil nil), noGroups_are. Qed.

Lemma filter_isLive_final (l : list Event) :
  List.filter isLive (List.filter isFinal l) = nil.
Proof.
  induction l as [|e l IH]; [reflexivity|]. cbn [List.filter].
  destruct (isFinal e) eqn:E; [|exact IH]. cbn [List.filter]. rewrite IH.
  unfold isFinal, isLive in *. apply eqb_string_eq in E. rewrite E. reflexivity.
Qed.

Lemma filter_isLive_upcoming (l : list Event) :
  List.filter isLive (List.filter isUpcoming l) = nil.
Proof.
  induction l as [|e l IH]; [reflexivity|]. cbn [List.filter].
  destruct (isUpcoming e) eqn:E; [|exact IH]. cbn [List.filter]. rewrite IH.
  unfold isUpcoming in E. destruct (isLive e); [|reflexivity].
  rewrite andb_false_r in E. discriminate.
Qed.

Lemma filter_idem {A : Type} (f : A -> bool) (l : list A) :
  List.filter f (List.filter f l) = List.filter f l.
Proof.
  induction l as [|x l IH]; [reflexivity|]. cbn [List.filter].
  destruct (f x) eqn:E; [|exact IH]. cbn [List.filter]. rewrite E, IH. reflexivity.
Qed.

Lemma renderSection_run (g : gmap string (list Event)) (key label : string)
  (l : list Event) (w : World) :
  g !! key = Some l -> Forall (fun e => returns (cardOf e) = true) l ->
  renderSection g (key, label) w = (Returned tt, afterBucket label l w).
Proof.
  intros Hg Hall. unfold renderSection, afterBucket. rewrite Hg. destruct l as [|e l'].
  - cbn. unfold ret, onPage, withGRID. rewrite app_nil_r.
    destruct w as [st [gr s o v lab wi] br]; reflexivity.
  - erewrite bind_run by reflexivity.
    erewrite bind_run by (apply mapM_createCard, Hall).
    generalize (liveIdsOf (e :: l')).
    generalize (List.filter isLive (e :: l')) as fl. intros fl ids.
    unfold appendChild, modify, bucketNodes.
    destruct fl; unfold onPage, onState, withGRID, withLive;
      cbn [state page browser GRID STATUS weekOptions weekValue SEASON_LABEL wired];
      rewrite <- app_assoc; reflexivity.
Qed.

Lemma filter_buckets_perm (l : list Event) :
  Permutation (List.filter isFinal l ++ List.filter isLive l ++ List.filter isUpcoming l) l.
Proof.
  induction l as [|e l IH]; [constructor|].
  cbn [List.filter]. unfold isUpcoming at 1.
  destruct (isFinal e) eqn:E1; cbn [negb andb].
  - unfold isFinal, isLive in *. apply eqb_string_eq in E1. rewrite E1. cbn.
    constructor. exact IH.
  - destruct (isLive e); cbn [negb].
    + cbn [app]. symmetry. apply Permutation_cons_app. symmetry. exact IH.
    + rewrite app_assoc. symmetry. apply Permutation_cons_app.
      rewrite <- app_assoc. symmetry. exact IH.
Qed.

Lemma renderable_split (events : list Event) :
  Forall (fun e => renderable e = true) events ->
  forallb ownState events = true
  /\ Forall (fun e => returns (cardOf e) = true) events.
Proof.
  intros H. split.
  - apply forallb_forall. intros e He. rewrite List.Forall_forall in H.
    specialize (H e He). unfold renderable in H. apply andb_true_iff in H. tauto.
  - eapply List.Forall_impl; [|exact H]. intros e He. unfold renderable in He.
    apply andb_true_iff in He. tauto.
Qed.

Lemma Forall_filter {A : Type} (P : A -> Prop) (f : A -> bool) (l : list A) :
  Forall P l -> Forall P (List.filter f l).
Proof.
  intros H. apply List.Forall_forall. intros x Hx. apply filter_In in Hx as [Hx _].
  rewrite List.Forall_forall in H. auto.
Qed.

(** One render pass over events that can be rendered: the grid becomes
    the view of the events and the Live Set becomes the identifiers of the
    events that are "in"; nothing else changes and nothing is thrown. *)
Lemma renderEvents_run (events : list Event) (w : World) :
  Forall (fun e => renderable e = true) events ->
  renderEvents events w =
    (Returned tt,
     onPage (withGRID (viewOf events)) (onState (withLive (liveIdsOf events)) w)).
Proof.
  intros Hall. destruct (renderable_split events Hall) as [Hown Hcards].
  pose proof (groupEvents_are events) as Hg. rewrite Hown in Hg.
  destruct Hg as (g & Hrun & Hpost & Hin & Hpre & _).
  unfold renderEvents, ORDER. cbn [forEach].
  erewrite bind_run by reflexivity.
  erewrite bind_run by reflexivity.
  rewrite Hrun. erewrite bind_run by reflexivity.
  erewrite bind_run by (apply renderSection_run; [exact Hpost|apply Forall_filter, Hcards]).
  erewrite bind_run by (apply renderSection_run; [exact Hin|apply Forall_filter, Hcards]).
  erewrite bind_run by (apply renderSection_run; [exact Hpre|apply Forall_filter, Hcards]).
  unfold ret, afterBucket, viewOf.
  rewrite filter_isLive_final, filter_isLive_upcoming, filter_idem.
  unfold liveIdsOf at 1. rewrite filter_idem. fold (liveIdsOf events).
  assert (Hids : List.filter isLive events = nil -> liveIdsOf events = ∅)
    by (unfold liveIdsOf; intros ->; reflexivity).
  revert Hids. generalize (liveIdsOf events) as ids. intros ids Hids.
  destruct (List.filter isLive events) eqn:Hl;
    unfold onPage, onState, withGRID, withLive, setGrid, setLive, modify;
    cbn [state page browser GRID STATUS weekOptions weekValue SEASON_LABEL wired
         seasonYear seasonType week maxWeeks liveEventIds refreshTimer app];
    rewrite <- ?app_assoc.
  - rewrite Hids by reflexivity. reflexivity.
  - do 3 f_equal. set_solver.
Qed.

(** Whether a pass returns does not depend on the world. *)
Lemma renderSection_fst (g : gmap string (list Event)) (key label : string)
  (l : list Event) (w : World) :
  g !! key = Some l ->
  fst (renderSection g (key, label) w) = (let? _ := mapOutcome cardOf l in Returned tt).
Proof.
  intros Hg. unfold renderSection. rewrite Hg. destruct l as [|e l']; [reflexivity|].
  erewrite bind_run by reflexivity. unfold bind.
  match goal with |- context [mapM createCard ?l ?w'] =>
    pose proof (mapM_createCard_fst l w') as H; destruct (mapM createCard l w') as [[cs|err] w2]
  end; cbn [fst] in H; rewrite <- H; reflexivity.
Qed.

Lemma forallb_perm {A : Type} (f : A -> bool) (l l' : list A) :
  Permutation l l' -> forallb f l = forallb f l'.
Proof.
  intros H. induction H; cbn [forallb]; try congruence.
  rewrite !andb_assoc, (andb_comm (f y)). reflexivity.
Qed.

Lemma forallb_renderable (events : list Event) :
  forallb renderable events
  = forallb ownState events && forallb (fun e => returns (cardOf e)) events.
Proof.
  induction events as [|e l IH]; [reflexivity|]. cbn [forallb]. rewrite IH.
  unfold renderable. destruct (ownState e), (returns (cardOf e)), (forallb ownState l);
    reflexivity.
Qed.

(** A pass returns exactly when every event can be rendered. *)
Lemma renderEvents_returns (events : list Event) (w : World) :
  returns (fst (renderEvents events w)) = forallb renderable events.
Proof.
  rewrite forallb_renderable. pose proof (groupEvents_are events) as Hg.
  unfold renderEvents, ORDER. cbn [forEach].
  erewrite bind_run by reflexivity.
  erewrite bind_run by reflexivity.
  destruct (forallb ownState events); cbn [andb].
  2:{ rewrite Hg. reflexivity. }
  destruct Hg as (g & -> & Hpost & Hin & Hpre & _).
  erewrite bind_run by reflexivity.
  rewrite (forallb_perm _ _ _ (Permutation_sym (filter_buckets_perm events))).
  rewrite !forallb_app, <- !returns_forallb.
  unfold bind.
  match goal with |- context [renderSection g ("post", "Final") ?w'] =>
    pose proof (renderSection_fst g "post" "Final" _ w' Hpost) as H1;
    destruct (renderSection g ("post", "Final") w') as [[[]|err] w1]
  end; cbn [fst] in H1;
    destruct (mapOutcome cardOf (List.filter isFinal events)); try discriminate;
    cbn [returns andb]; [|reflexivity].
  match goal with |- context [renderSection g ("in", "Live") ?w'] =>
    pose proof (renderSection_fst g "in" "Live" _ w' Hin) as H2;
    destruct (renderSection g ("in", "Live") w') as [[[]|err] w2]
  end; cbn [fst] in H2;
    destruct (mapOutcome cardOf (List.filter isLive events)); try discriminate;
    cbn [returns andb]; [|reflexivity].
  match goal with |- context [renderSection g ("pre", "Upcoming") ?w'] =>
    pose proof (renderSection_fst g "pre" "Upcoming" _ w' Hpre) as H3;
    destruct (renderSection g ("pre", "Upcoming") w') as [[[]|err] w3]
  end; cbn [fst] in H3;
    destruct (mapOutcome cardOf (List.filter isUpcoming events)); try discriminate;
    reflexivity.
Qed.

Lemma renderEvents_completes (events : list Event) (w : World) :
  fst (renderEvents events w) = Returned tt
  <-> Forall (fun e => renderable e = true) events.
Proof.
  pose proof (renderEvents_returns events w) as H.
  rewrite List.Forall_forall, <- forallb_forall, <- H.
  destruct (fst (renderEvents events w)) as [[]|err]; cbn; split; congruence.
Qed.

Lemma liveIdsOf_filter (f : Event -> bool) (l : list Event) :
  liveIdsOf (List.filter f l) ⊆ liveIdsOf l.
Proof.
  unfold liveIdsOf. intros i. rewrite !elem_of_list_to_set, !list_elem_of_In, !in_map_iff.
  intros (e & He & Hin). exists e. split; [exact He|].
  apply filter_In in Hin as [Hin Hl]. apply filter_In in Hin as [Hin _].
  apply filter_In. split; assumption.
Qed.

Lemma renderSection_live (g : gmap string (list Event)) (key label : string)
  (l : list Event) (w : World) :
  g !! key = Some l ->
  liveEventIds (state (snd (renderSection g (key, label) w)))
  ⊆ liveEventIds (state w) ∪ liveIdsOf l.
Proof.
  intros Hg. unfold renderSection. rewrite Hg. destruct l as [|e l']; [cbn; set_solver|].
  erewrite bind_run by reflexivity. unfold bind.
  match goal with |- context [mapM createCard ?l ?w'] =>
    destruct (mapM_createCard_live l w') as (H & _);
    destruct (mapM createCard l w') as [[cs|err] w2]
  end; cbn in *; exact H.
Qed.

(** Whether or not a pass returns, it leaves in the Live Set nothing but
    identifiers of events of the pass that are "in". *)
Lemma renderEvents_live (events : list Event) (w : World) :
  liveEventIds (state (snd (renderEvents events w))) ⊆ liveIdsOf events.
Proof.
  pose proof (groupEvents_are events) as Hg.
  unfold renderEvents, ORDER. cbn [forEach].
  erewrite bind_run by reflexivity.
  erewrite bind_run by reflexivity.
  destruct (forallb ownState events).
  2:{ rewrite Hg. cbn. set_solver. }
  destruct Hg as (g & -> & Hpost & Hin & Hpre & _).
  erewrite bind_run by reflexivity.
  pose proof (liveIdsOf_filter isFinal events) as F1.
  pose proof (liveIdsOf_filter isLive events) as F2.
  pose proof (liveIdsOf_filter isUpcoming events) as F3.
  unfold bind.
  match goal with |- context [renderSection g ("post", "Final") ?w'] =>
    pose proof (renderSection_live g "post" "Final" _ w' Hpost) as H1;
    destruct (renderSection g ("post", "Final") w') as [[[]|err] w1]
  end; cbn [snd] in H1; [|cbn in *; set_solver].
  match goal with |- context [renderSection g ("in", "Live") ?w'] =>
    pose proof (renderSection_live g "in" "Live" _ w' Hin) as H2;
    destruct (renderSection g ("in", "Live") w') as [[[]|err] w2]
  end; cbn [snd] in H2; [|cbn in *; set_solver].
  match goal with |- context [renderSection g ("pre", "Upcoming") ?w'] =>
    pose proof (renderSection_live g "pre" "Upcoming" _ w' Hpre) as H3;
    destruct (renderSection g ("pre", "Upcoming") w') as [[[]|err] w3]
  end; cbn [snd] in H3; cbn in *; set_solver.
Qed.

(** *** What a render pass leaves alone *)

Lemma mapM_createCard_frame (l : list Event) (w : World) :
  cleared (snd (mapM createCard l w)) = cleared w.
Proof.
  revert w. induction l as [|e l IH]; intros w; [reflexivity|].
  pose (w1 := if isLive e && returns (parseHomeSpread (competitionOf e))
              then onState (withLive ({[ ev_id e ]} ∪ liveEventIds (state w))) w
              else w).
  assert (E : mapM createCard (e :: l) w
              = match cardOf e with
                | Returned c =>
                    match mapM createCard l w1 with
                    | (Returned cs, w2) => (Returned (c :: cs), w2)
                    | (Threw err, w2) => (Threw err, w2)
                    end
                | Threw err => (Threw err, w1)
                end).
  { cbn [mapM]. unfold bind at 1. rewrite createCard_run. fold w1.
    destruct (cardOf e); [|reflexivity]. unfold bind, ret.
    destruct (mapM createCard l w1) as [[cs|err] w2]; reflexivity. }
  rewrite E. clear E.
  assert (H1 : cleared w1 = cleared w) by (subst w1; destruct (_ && _); reflexivity).
  clearbody w1. destruct (cardOf e) as [c|err]; [|exact H1].
  specialize (IH w1). destruct (mapM createCard l w1) as [[cs|err] w2]; cbn [snd] in *;
    congruence.
Qed.

Lemma renderSection_frame (g : gmap string (list Event)) (kl : string * string)
  (w : World) :
  cleared (snd (renderSection g kl w)) = cleared w.
Proof.
  destruct kl as [key label]. unfold renderSection.
  destruct (match g !! key with Some l => l | None => nil end) as [|e l]; [reflexivity|].
  erewrite bind_run by reflexivity. unfold bind.
  match goal with |- context [mapM createCard ?l ?w'] =>
    pose proof (mapM_createCard_frame l w') as H;
    destruct (mapM createCard l w') as [[cs|err] w2]
  end; cbn [snd] in *; (transitivity (cleared w2); [reflexivity|]); rewrite H; reflexivity.
Qed.

(** Whether or not it returns, a render pass changes nothing but the
    grid and the Live Set. *)
Lemma renderEvents_frame (events : list Event) (w : World) :
  cleared (snd (renderEvents events w)) = cleared w.
Proof.
  unfold renderEvents, ORDER. cbn [forEach].
  erewrite bind_run by reflexivity.
  erewrite bind_run by reflexivity.
  destruct (groupEvents events) as [g|err]; cbn [lift]; [|reflexivity].
  erewrite bind_run by reflexivity. unfold bind.
  match goal with |- context [renderSection g ("post", "Final") ?w'] =>
    pose proof (renderSection_frame g ("post", "Final") w') as H1;
    destruct (renderSection g ("post", "Final") w') as [[[]|err] w1]
  end; cbn [snd] in H1 |- *; [|rewrite H1; reflexivity].
  match goal with |- context [renderSection g ("in", "Live") ?w'] =>
    pose proof (renderSection_frame g ("in", "Live") w') as H2;
    destruct (renderSection g ("in", "Live") w') as [[[]|err] w2]
  end; cbn [snd] in H2 |- *; [|rewrite H2, H1; reflexivity].
  match goal with |- context [renderSection g ("pre", "Upcoming") ?w'] =>
    pose proof (renderSection_frame g ("pre", "Upcoming") w') as H3;
    destruct (renderSection g ("pre", "Upcoming") w') as [[[]|err] w3]
  end; cbn [snd] in H3 |- *; unfold ret; cbn [snd]; rewrite H3, H2, H1; reflexivity.
Qed.

Lemma cleared_fields (w w' : World) :
  cleared w' = cleared w ->
  browser w' = browser w
  /\ STATUS (page w') = STATUS (page w)
  /\ weekOptions (page w') = weekOptions (page w)
  /\ weekValue (page w') = weekValue (page w)
  /\ SEASON_LABEL (page w') = SEASON_LABEL (page w)
  /\ wired (page w') = wired (page w)
  /\ seasonYear (state w') = seasonYear (state w)
  /\ seasonType (state w') = seasonType (state w)
  /\ week (state w') = week (state w)
  /\ maxWeeks (state w') = maxWeeks (state w)
  /\ refreshTimer (state w') = refreshTimer (state w).
Proof.
  intros H.
  repeat split;
    [ exact (f_equal browser H)
    | exact (f_equal (fun x => STATUS (page x)) H)
    | exact (f_equal (fun x => weekOptions (page x)) H)
    | exact (f_equal (fun x => weekValue (page x)) H)
    | exact (f_equal (fun x => SEASON_LABEL (page x)) H)
    | exact (f_equal (fun x => wired (page x)) H)
    | exact (f_equal (fun x => seasonYear (state x)) H)
    | exact (f_equal (fun x => seasonType (state x)) H)
    | exact (f_equal (fun x => week (state x)) H)
    | exact (f_equal (fun x => maxWeeks (state x)) H)
    | exact (f_equal (fun x => refreshTimer (state x)) H) ].
Qed.

(** *** When a card can be built *)

Lemma returns_ToNumber (v : value) : returns (ToNumber v) = coercible v.
Proof.
  unfold coercible. destruct v; try reflexivity;
    unfold ToNumber; destruct (ToString _); reflexivity.
Qed.

Lemma returns_safeInt (v : value) : returns (safeInt v) = coercible v.
Proof. unfold coercible, safeInt. destruct (ToString v); reflexivity. Qed.

Lemma returns_scoreText (v : value) : returns (scoreText v) = coercible v.
Proof.
  rewrite <- returns_safeInt. unfold scoreText. destruct (safeInt v); reflexivity.
Qed.

Lemma returns_parseHomeSpread (c : Competition) :
  returns (parseHomeSpread c)
  = coercible (match first (odds c) with
               | Some o => spread o
               | None => VUndefined
               end).
Proof.
  rewrite <- returns_ToNumber. unfold parseHomeSpread. destruct (ToNumber _); reflexivity.
Qed.

Lemma forallb_flat_map {A B : Type} (f : B -> bool) (g : A -> list B) (l : list A) :
  forallb f (flat_map g l) = forallb (fun x => forallb f (g x)) l.
Proof.
  induction l as [|x l IH]; [reflexivity|]. cbn [flat_map forallb].
  rewrite forallb_app, IH. reflexivity.
Qed.

Lemma forallb_same {A : Type} (f g : A -> bool) (l : list A) :
  (forall x, f x = g x) -> forallb f l = forallb g l.
Proof.
  intros H. induction l as [|x l IH]; [reflexivity|]. cbn. rewrite H, IH. reflexivity.
Qed.

Lemma forallb_map {A B : Type} (f : B -> bool) (g : A -> B) (l : list A) :
  forallb f (List.map g l) = forallb (fun x => f (g x)) l.
Proof. induction l as [|x l IH]; [reflexivity|]. cbn. rewrite IH. reflexivity. Qed.

(** The table builder returns exactly when every value it converts can be
    converted, provided the competition has competitors. *)
Lemma returns_buildLineScoreTable (c : Competition) (l : list Competitor) :
  competitors c = Some l ->
  returns (buildLineScoreTable c) = forallb coercible (tableValues c).
Proof.
  intros Hc. unfold buildLineScoreTable, tableValues. rewrite Hc.
  match goal with |- returns (andThen ?o _) = _ =>
    transitivity (returns o); [destruct o; reflexivity|]
  end.
  rewrite returns_forallb, forallb_flat_map. apply forallb_same. intros x.
  rewrite forallb_app, forallb_map. cbn [forallb]. rewrite andb_true_r.
  rewrite <- returns_safeInt.
  match goal with |- returns (andThen ?o _) = _ =>
    transitivity (returns o && returns (safeInt (score x)));
      [destruct o; cbn [andThen returns andb]; [|reflexivity]|]
  end.
  - destruct (safeInt (score x)); reflexivity.
  - f_equal. rewrite returns_forallb. apply forallb_same. intros ls.
    rewrite <- returns_safeInt. destruct (safeInt (periodValue ls)); reflexivity.
Qed.

Lemma hasLineScores_competitors (c : Competition) :
  hasLineScores c = true -> exists l, competitors c = Some l.
Proof.
  unfold hasLineScores. destruct (competitors c) as [l|]; [eauto|]. cbn. discriminate.
Qed.

(** The card of an event can be built exactly when every value that
    building it converts can be converted. *)
Lemma cardOf_values (e : Event) :
  returns (cardOf e) = forallb coercible (cardValues e).
Proof.
  unfold cardValues. cbn [forallb]. rewrite forallb_app.
  rewrite <- returns_parseHomeSpread.
  unfold cardOf, createCard. fold (competitionOf e). rewrite createCard_state.
  destruct (parseHomeSpread (competitionOf e)) as [h|err]; cbn [returns lift andb];
    [|reflexivity].
  assert (Ht : hasLineScores (competitionOf e) = true ->
               returns (buildLineScoreTable (competitionOf e))
               = forallb coercible (tableValues (competitionOf e))).
  { intros H. apply hasLineScores_competitors in H as [l Hl].
    exact (returns_buildLineScoreTable _ l Hl). }
  assert (Ha := returns_scoreText (score (pickCompetitor "away" 0 (competitionOf e)))).
  assert (Hh := returns_scoreText (score (pickCompetitor "home" 1 (competitionOf e)))).
  unfold bind, ret, throw, get, setLive, modify, lift.
  destruct (String.eqb (getState e) "in"), (String.eqb (getState e) "post"),
    (String.eqb (getState e) "pre"),
    (scoreText (score (pickCompetitor "away" 0 (competitionOf e)))),
    (scoreText (score (pickCompetitor "home" 1 (competitionOf e)))),
    (hasLineScores (competitionOf e)), (buildLineScoreTable (competitionOf e));
    cbn [returns fst forallb andb] in *; rewrite <- ?Ha, <- ?Hh, <- ?Ht by reflexivity;
    reflexivity.
Qed.

Lemma renderable_values (e : Event) :
  renderable e = ownState e && forallb coercible (cardValues e).
Proof. unfold renderable. rewrite cardOf_values. reflexivity. Qed.

Lemma cardsOf_each (l : list Event) :
  Forall (fun e => renderable e = true) l ->
  Forall2 (fun e c => cardOf e = Returned c) l (cardsOf l).
Proof.
  induction 1 as [|e l He Hl IH]; [constructor|].
  unfold renderable in He. apply andb_prop in He as [_ He].
  destruct (cardOf e) as [c|err] eqn:Hc; [|discriminate].
  rewrite (cardsOf_cons e c l Hc). constructor; assumption.
Qed.

Lemma buckets_exclusive (e : Event) :
  (isFinal e = true /\ isLive e = false /\ isUpcoming e = false)
  \/ (isFinal e = false /\ isLive e = true /\ isUpcoming e = false)
  \/ (isFinal e = false /\ isLive e = false /\ isUpcoming e = true).
Proof.
  unfold isUpcoming. destruct (isFinal e) eqn:E1.
  - left. unfold isFinal, isLive in *. apply eqb_string_eq in E1. rewrite E1. auto.
  - destruct (isLive e); auto.
Qed.







(** *** A failed poll tick *)

(** C8: when the request of a poll tick fails (the response is not ok, or
    its body is not JSON), [refreshLive] returns normally after logging the
    error: the timers, the script's state (so the Live Set) and the page
    are what they were. *)
Theorem C8_failed_poll_tick_is_swallowed
  (Date_parse : string -> option Z) (err : string) (w : World) :
  refreshLive_resume Date_parse (Failed err) w
  = (Returned tt,
     onBrowser (fun b => withConsole
                         (console b ++ String.append "Live refresh failed: " err :: nil)%list b)
               w)
  /\ timers (browser (exec (refreshLive_resume Date_parse (Failed err)) w)) = timers (browser w)
  /\ pending (browser (exec (refreshLive_resume Date_parse (Failed err)) w)) = pending (browser w)
  /\ state (exec (refreshLive_resume Date_parse (Failed err)) w) = state w
  /\ page (exec (refreshLive_resume Date_parse (Failed err)) w) = page w.
Proof. repeat split. Qed.

(** *** Score cells *)

Lemma length_append (a b : string) :
  String.length (a ++ b) = (String.length a + String.length b)%nat.
Proof.
  induction a as [|c a IH]; [reflexivity|].
  change (S (String.length (a ++ b)) = S (String.length a + String.length b)).
  f_equal. exact IH.
Qed.

Lemma append_nonempty_l (a b : string) : a <> "" -> (a ++ b)%string <> "".
Proof. destruct a; [congruence|]. discriminate. Qed.

Lemma append_nonempty_r (a b : string) : b <> "" -> (a ++ b)%string <> "".
Proof. destruct a; [trivial|]. discriminate. Qed.

Lemma decimalFuel_nonempty (f : nat) (n : Z) : decimalFuel (S f) n <> "".
Proof.
  cbn [decimalFuel]. destruct (n <? 10); [discriminate|].
  apply append_nonempty_r. discriminate.
Qed.

Lemma decimal_nonempty (n : Z) : decimal n <> "".
Proof. apply decimalFuel_nonempty. Qed.

Lemma layoutDigits_nonempty (d E : Z) : layoutDigits d E <> "".
Proof.
  unfold layoutDigits.
  repeat match goal with
         | |- context [if ?b then _ else _] => destruct b
         end;
    first [ apply append_nonempty_l, decimal_nonempty
          | apply append_nonempty_r; discriminate
          | discriminate ].
Qed.

Lemma numberToString_nonempty (x : number) : numberToString x <> "".
Proof.
  destruct x as [s|s| |s m e]; cbn [numberToString]; try destruct s; try discriminate.
  - destruct (shortest m e). discriminate.
  - destruct (shortest m e). cbn [append]. apply layoutDigits_nonempty.
Qed.

Lemma cardOf_scores (e : Event) (c : Card) :
  String.eqb (getState e) "pre" = false ->
  cardOf e = Returned c ->
  scoreText (score (pickCompetitor "away" 0 (competitionOf e))) = Returned (card_awayScore c)
  /\ scoreText (score (pickCompetitor "home" 1 (competitionOf e)))
     = Returned (card_homeScore c).
Proof.
  intros Hpre. unfold cardOf, createCard. fold (competitionOf e).
  rewrite createCard_state, Hpre.
  destruct (parseHomeSpread (competitionOf e)) as [h|err]; cbn [lift]; [|discriminate].
  unfold bind, ret, throw, get, setLive, modify, lift.
  destruct (String.eqb (getState e) "in"), (String.eqb (getState e) "post"),
    (scoreText (score (pickCompetitor "away" 0 (competitionOf e)))),
    (scoreText (score (pickCompetitor "home" 1 (competitionOf e)))),
    (hasLineScores (competitionOf e)), (buildLineScoreTable (competitionOf e));
    cbn [fst]; intros H; try discriminate; injection H as <-; split; reflexivity.
Qed.

Lemma scoreText_safeInt (x : value) (s : string) :
  scoreText x = Returned s -> exists n, safeInt x = Returned n /\ s = numberToString n.
Proof.
  unfold scoreText. destruct (safeInt x) as [n|err]; cbn; [|discriminate].
  intros H. injection H as <-. eauto.
Qed.

Lemma safeInt_unparseable (x : value) (s : string) :
  ToString x = Returned s -> isFinite (parseInt10 s) = false -> safeInt x = Returned pzero.
Proof. intros Hs H. unfold safeInt. rewrite Hs. cbn. rewrite H. reflexivity. Qed.




(** *** Decimal digits *)

Lemma decimalFuel_fuel (f1 f2 : nat) (n : Z) :
  0 <= n < 10 ^ Z.of_nat (S f1) -> n < 10 ^ Z.of_nat (S f2) ->
  decimalFuel (S f1) n = decimalFuel (S f2) n.
Proof.
  revert f2 n. induction f1 as [|f1 IH]; intros f2 n H1 H2.
  - cbn [decimalFuel]. change (10 ^ Z.of_nat 1) with 10 in H1.
    destruct (n <? 10) eqn:E; [reflexivity|]. apply Z.ltb_ge in E. lia.
  - cbn [decimalFuel]. destruct (n <? 10) eqn:E; [reflexivity|]. apply Z.ltb_ge in E.
    destruct f2 as [|f2].
    + change (10 ^ Z.of_nat 1) with 10 in H2. lia.
    + fold (decimalFuel (S f1)) (decimalFuel (S f2)). f_equal.
      rewrite !Nat2Z.inj_succ, !Z.pow_succ_r in H1, H2 by lia.
      apply IH.
      * split; [apply Z.div_pos; lia|]. apply Z.div_lt_upper_bound; [lia|].
        rewrite Nat2Z.inj_succ, Z.pow_succ_r by lia. lia.
      * apply Z.div_lt_upper_bound; [lia|].
        rewrite Nat2Z.inj_succ, Z.pow_succ_r by lia. lia.
Qed.

Lemma log2_fuel (n : Z) : 0 <= n -> n < 10 ^ Z.of_nat (S (Z.to_nat (Z.log2 n))).
Proof.
  intros H. destruct (Z.eq_dec n 0) as [->|Hn]; [reflexivity|].
  rewrite Nat2Z.inj_succ, Z2Nat.id by apply Z.log2_nonneg.
  apply Z.lt_le_trans with (2 ^ Z.succ (Z.log2 n)).
  - apply Z.log2_spec. lia.
  - apply Z.pow_le_mono_l. lia.
Qed.

Lemma decimal_small (n : Z) : 0 <= n < 10 -> decimal n = digitChar n.
Proof.
  intros H. unfold decimal. cbn [decimalFuel].
  destruct (n <? 10) eqn:E; [reflexivity|]. apply Z.ltb_ge in E. lia.
Qed.

Lemma decimal_step (n : Z) :
  10 <= n -> decimal n = decimal (n / 10) ++ digitChar (n mod 10).
Proof.
  intros H. unfold decimal at 1. cbn [decimalFuel].
  destruct (n <? 10) eqn:E; [apply Z.ltb_lt in E; lia|]. f_equal.
  assert (Hq : 0 < n / 10) by (apply Z.div_str_pos; lia).
  destruct (Z.to_nat (Z.log2 n)) as [|f] eqn:Ef.
  { assert (3 <= Z.log2 n) by (apply Z.log2_le_pow2; [lia|]; change (2 ^ 3) with 8; lia).
    lia. }
  unfold decimal. apply decimalFuel_fuel.
  - split; [lia|]. apply Z.div_lt_upper_bound; [lia|].
    pose proof (log2_fuel n ltac:(lia)) as Hn. rewrite Ef in Hn.
    rewrite Nat2Z.inj_succ, Z.pow_succ_r in Hn by lia. exact Hn.
  - apply log2_fuel. lia.
Qed.

Lemma strlen_append (a b : string) : strlen (a ++ b) = strlen a + strlen b.
Proof. unfold strlen. rewrite length_append. lia. Qed.

Lemma strlen_digitChar (d : Z) : strlen (digitChar d) = 1.
Proof. reflexivity. Qed.

Lemma strlen_pos (a : string) : 0 <= strlen a.
Proof. unfold strlen. lia. Qed.

(** A number below [10^k] has at most [k] digits. *)
Lemma strlen_decimal_le (k : nat) :
  forall n, 0 <= n < 10 ^ Z.of_nat (S k) -> 1 <= strlen (decimal n) <= Z.of_nat (S k).
Proof.
  induction k as [|k IH]; intros n H.
  - change (10 ^ Z.of_nat 1) with 10 in H. rewrite decimal_small by lia.
    rewrite strlen_digitChar. lia.
  - destruct (Z.lt_ge_cases n 10) as [Hs|Hs].
    + rewrite decimal_small by lia. rewrite strlen_digitChar. lia.
    + rewrite decimal_step, strlen_append, strlen_digitChar by lia.
      rewrite (Nat2Z.inj_succ (S k)), Z.pow_succ_r in H by lia.
      assert (Hq : 0 <= n / 10 < 10 ^ Z.of_nat (S k)).
      { split; [apply Z.div_pos; lia|]. apply Z.div_lt_upper_bound; lia. }
      specialize (IH _ Hq). lia.
Qed.

(** Appending a zero multiplies by ten. *)
Lemma decimal_times_ten (n : Z) : 1 <= n -> decimal (n * 10) = decimal n ++ "0".
Proof.
  intros H. rewrite decimal_step by lia.
  rewrite Z.div_mul, Z.mod_mul by lia. reflexivity.
Qed.

Lemma zeros_snoc (k : nat) : zeros (S k) = zeros k ++ "0".
Proof.
  induction k as [|k IH]; [reflexivity|].
  change (String "0" (zeros (S k)) = String "0" (zeros k ++ "0")). f_equal. exact IH.
Qed.

Lemma append_assoc (a b c : string) : (a ++ b) ++ c = a ++ (b ++ c).
Proof.
  induction a as [|x a IH]; [reflexivity|].
  change (String x ((a ++ b) ++ c) = String x (a ++ (b ++ c))). rewrite IH. reflexivity.
Qed.

Lemma append_empty_r (a : string) : a ++ "" = a.
Proof.
  induction a as [|x a IH]; [reflexivity|].
  change (String x (a ++ "") = String x a). rewrite IH. reflexivity.
Qed.

Lemma decimal_times_pow10 (k : nat) (n : Z) :
  1 <= n -> decimal (n * 10 ^ Z.of_nat k) = decimal n ++ zeros k.
Proof.
  intros H. induction k as [|k IH].
  - change (10 ^ Z.of_nat 0) with 1. rewrite Z.mul_1_r. cbn [zeros].
    symmetry. apply append_empty_r.
  - rewrite Nat2Z.inj_succ, Z.pow_succ_r by lia.
    replace (n * (10 * 10 ^ Z.of_nat k)) with (n * 10 ^ Z.of_nat k * 10) by lia.
    rewrite decimal_times_ten; [|nia]. rewrite IH, zeros_snoc, append_assoc. reflexivity.
Qed.

(** *** Substrings *)

Lemma substring_all (b : string) : substring 0 (String.length b) b = b.
Proof.
  induction b as [|c b IH]; [reflexivity|].
  change (String c (substring 0 (String.length b) b) = String c b). rewrite IH. reflexivity.
Qed.

Lemma substring_prefix (a b : string) : substring 0 (String.length a) (a ++ b) = a.
Proof.
  induction a as [|c a IH]; [destruct b; reflexivity|].
  change (String c (substring 0 (String.length a) (a ++ b)) = String c a).
  rewrite IH. reflexivity.
Qed.

Lemma substring_suffix (a b : string) :
  substring (String.length a) (String.length b) (a ++ b) = b.
Proof.
  induction a as [|c a IH]; [apply substring_all|].
  change (substring (String.length a) (String.length b) (a ++ b) = b). exact IH.
Qed.

Lemma take_append (a b : string) : take (strlen a) (a ++ b) = a.
Proof. unfold take, strlen. rewrite Nat2Z.id. apply substring_prefix. Qed.

Lemma drop_append (a b : string) : drop (strlen a) (a ++ b) = b.
Proof.
  unfold drop, strlen. rewrite Nat2Z.id, length_append.
  replace (String.length a + String.length b - String.length a)%nat
    with (String.length b) by lia.
  apply substring_suffix.
Qed.

(** *** Trimming a trailing [.0] *)

Lemma stripDotZero_cons (c : ascii) (r : string) :
  String.length r <> 1%nat -> stripDotZero (String c r) = String c (stripDotZero r).
Proof.
  intros H. cbn [stripDotZero].
  destruct (String.eqb (String c r) ".0") eqn:E; [|reflexivity].
  apply eqb_string_eq in E. injection E as _ ->. contradiction H. reflexivity.
Qed.

Lemma stripDotZero_trims (a : string) : stripDotZero (a ++ ".0") = a.
Proof.
  induction a as [|c a IH]; [reflexivity|].
  change (stripDotZero (String c (a ++ ".0")) = String c a).
  rewrite stripDotZero_cons, IH; [reflexivity|]. rewrite length_append. cbn. lia.
Qed.

Lemma stripDotZero_keeps (a : string) (d : Z) :
  1 <= d <= 9 -> stripDotZero (a ++ "." ++ digitChar d) = a ++ "." ++ digitChar d.
Proof.
  intros Hd. induction a as [|c a IH].
  - assert (H : d = 1 \/ d = 2 \/ d = 3 \/ d = 4 \/ d = 5 \/ d = 6 \/ d = 7 \/ d = 8 \/ d = 9)
      by lia.
    destruct H as [->|[->|[->|[->|[->|[->|[->|[->| ->]]]]]]]]; reflexivity.
  - change (stripDotZero (String c (a ++ "." ++ digitChar d))
            = String c (a ++ "." ++ digitChar d)).
    rewrite stripDotZero_cons, IH; [reflexivity|].
    rewrite length_append.
    change (String.length ("." ++ digitChar d)) with 2%nat. lia.
Qed.

(** *** Formatting a spread *)

Lemma pow2_pos (k : Z) : 0 < 2 ^ Z.max k 0.
Proof. apply Z.pow_pos_nonneg; lia. Qed.

Lemma tenthsOf_nearest (s : bool) (m : positive) (e : Z) :
  nearestTenth (S754_finite s m e) (tenthsOf m e).
Proof.
  unfold nearestTenth, tenthsOf.
  pose proof (pow2_pos (- e)) as HB. set (B := 2 ^ Z.max (- e) 0) in *.
  set (N := 20 * Z.pos m * 2 ^ Z.max e 0).
  pose proof (Z.mul_div_le (N + B) (2 * B) ltac:(lia)).
  pose proof (Z.mul_succ_div_gt (N + B) (2 * B) ltac:(lia)).
  split; nia.
Qed.

Lemma tenthsOf_nonneg (m : positive) (e : Z) : 0 <= tenthsOf m e.
Proof.
  unfold tenthsOf. pose proof (pow2_pos (- e)). pose proof (pow2_pos e).
  apply Z.div_pos; nia.
Qed.

Lemma digits2_pos_bound (m : positive) :
  2 ^ (Zpos (digits2_pos m) - 1) <= Zpos m < 2 ^ Zpos (digits2_pos m).
Proof.
  induction m as [m IH|m IH|]; cbn [digits2_pos].
  - rewrite Pos2Z.inj_succ, Z.pow_succ_r by lia.
    replace (Z.succ (Z.pos (digits2_pos m)) - 1) with (Z.succ (Z.pos (digits2_pos m) - 1)) by lia.
    rewrite Z.pow_succ_r by lia. lia.
  - rewrite Pos2Z.inj_succ, Z.pow_succ_r by lia.
    replace (Z.succ (Z.pos (digits2_pos m)) - 1) with (Z.succ (Z.pos (digits2_pos m) - 1)) by lia.
    rewrite Z.pow_succ_r by lia. lia.
  - cbn. lia.
Qed.

(** A canonical mantissa has at most 53 bits. *)
Lemma is_double_mantissa (s : bool) (m : positive) (e : Z) :
  is_double (S754_finite s m e) = true -> Zpos m < 2 ^ 53.
Proof.
  unfold is_double, valid_binary, bounded, canonical_mantissa, fexp, SpecFloat.emin, prec, emax.
  intros H. apply andb_true_iff in H as [H _]. apply Z.eqb_eq in H.
  pose proof (digits2_pos_bound m) as [_ Hm].
  apply Z.lt_le_trans with (1 := Hm). apply Z.pow_le_mono_r; lia.
Qed.

(** Below [2^53] a canonical number has no positive exponent. *)
Lemma is_double_small_exponent (s : bool) (m : positive) (e : Z) :
  is_double (S754_finite s m e) = true ->
  lt (abs (S754_finite s m e)) TWO53 = true -> e <= 0.
Proof.
  unfold is_double, valid_binary, bounded, canonical_mantissa, fexp, SpecFloat.emin, prec, emax.
  intros H Hlt. apply andb_true_iff in H as [H _]. apply Z.eqb_eq in H.
  unfold lt, abs, SFabs, SFltb, SFcompare, TWO53 in Hlt.
  destruct (Z.compare_spec e 1) as [E|E|E]; [|lia|discriminate].
  exfalso. subst e.
  assert (Hd : Zpos (digits2_pos m) = 53) by lia.
  pose proof (digits2_pos_bound m) as [Hm _]. rewrite Hd in Hm.
  change (2 ^ (53 - 1)) with 4503599627370496 in Hm.
  assert (C : (m ?= 4503599627370496)%positive = Lt).
  { unfold Pos.compare.
    destruct (Pos.compare_cont Eq m 4503599627370496%positive);
      [discriminate|reflexivity|discriminate]. }
  apply Pos.compare_lt_iff, Pos2Z.pos_lt_pos in C. clear - Hm C. lia.
Qed.

(** *** Number::toString on the integers below [2^53] *)

Section SafeInteger.
Variables (m : positive) (e z : Z).
Hypothesis He : e <= 0.
Hypothesis Hz : 1 <= z.
Hypothesis Hm : Zpos m = z * 2 ^ (- e).
Hypothesis Hbits : Zpos m < 2 ^ 53.

Lemma cmpScaled_integer (c E N : Z) :
  0 <= E -> cmpScaled e c E N = Z.compare (c * 10 ^ E * (4 * 2 ^ (- e))) N.
Proof.
  intros HE. unfold cmpScaled.
  rewrite (Z.max_l E 0), (Z.max_l (2 - e) 0), (Z.max_r (e - 2) 0), (Z.max_r (- E) 0) by lia.
  replace (2 - e) with (2 + - e) by lia. rewrite Z.pow_add_r by lia.
  change (2 ^ 2) with 4. change (2 ^ 0) with 1. change (10 ^ 0) with 1.
  rewrite !Z.mul_1_r. reflexivity.
Qed.

(** Only the integer itself rounds to it. *)
Lemma roundsToX_integer (c E : Z) :
  0 <= E -> roundsToX m e c E = true -> c * 10 ^ E = z.
Proof.
  intros HE H. unfold roundsToX in H. rewrite !cmpScaled_integer in H by exact HE.
  apply andb_true_iff in H as [H1 H2].
  assert (HP : 1 <= 2 ^ (- e)) by (apply Z.lt_pred_le, Z.pow_pos_nonneg; lia).
  set (P := 2 ^ (- e)) in *. set (X := c * 10 ^ E) in *.
  assert (Hlow : 4 * z * P - 2 <= lowerN m e).
  { unfold lowerN. destruct (_ && _); lia. }
  assert (L1 : lowerN m e <= X * (4 * P)).
  { destruct (Z.compare_spec (X * (4 * P)) (lowerN m e)); [lia|discriminate|lia]. }
  assert (L2 : X * (4 * P) <= upperN m).
  { destruct (Z.compare_spec (X * (4 * P)) (upperN m)); [lia|lia|discriminate]. }
  unfold upperN in L2.
  destruct (Z.lt_trichotomy X z) as [Hx|[Hx|Hx]]; [|exact Hx|]; nia.
Qed.

Lemma candidate_integer (c E : Z) :
  0 <= E -> candidate m e E = Some c -> c * 10 ^ E = z.
Proof.
  intros HE H. apply roundsToX_integer; [exact HE|].
  unfold candidate in H.
  destruct (1 <=? floorDiv10 m e E);
    destruct (roundsToX m e (floorDiv10 m e E) E) eqn:E1;
    destruct (roundsToX m e (floorDiv10 m e E + 1) E) eqn:E2;
    cbn [andb] in H; try discriminate;
    try (injection H as <-; assumption).
  destruct (cmpScaled e (floorDiv10 m e E + (floorDiv10 m e E + 1)) E (8 * Z.pos m));
    try (injection H as <-; assumption).
  destruct (Z.even (floorDiv10 m e E)); injection H as <-; assumption.
Qed.

Lemma candidate_zero : candidate m e 0 <> None.
Proof.
  assert (HP : 1 <= 2 ^ (- e)) by (apply Z.lt_pred_le, Z.pow_pos_nonneg; lia).
  assert (Hlo : floorDiv10 m e 0 = z).
  { unfold floorDiv10. rewrite (Z.max_r e 0), (Z.max_l (- e) 0) by lia.
    change (Z.max (- 0) 0) with 0. change (Z.max 0 0) with 0.
    change (10 ^ 0) with 1. change (2 ^ 0) with 1. rewrite !Z.mul_1_r, Hm.
    apply Z.div_mul. lia. }
  assert (Hr : roundsToX m e z 0 = true).
  { unfold roundsToX. rewrite !cmpScaled_integer by lia.
    change (10 ^ 0) with 1. rewrite Z.mul_1_r.
    replace (z * (4 * 2 ^ (- e))) with (4 * Z.pos m) by lia.
    assert (H1 : lowerN m e < 4 * Z.pos m) by (unfold lowerN; destruct (_ && _); lia).
    assert (H2 : 4 * Z.pos m < upperN m) by (unfold upperN; lia).
    apply Z.compare_gt_iff in H1. apply Z.compare_lt_iff in H2. rewrite H1, H2.
    reflexivity. }
  unfold candidate. rewrite Hlo, Hr.
  assert (H1 : (1 <=? z) = true) by (apply Z.leb_le; exact Hz).
  rewrite H1. cbn [andb].
  destruct (roundsToX m e (z + 1) 0); [|discriminate].
  destruct (cmpScaled e (z + (z + 1)) 0 (8 * Z.pos m)); discriminate.
Qed.

Lemma searchDigits_integer (fuel : nat) :
  forall E, 0 <= E < Z.of_nat fuel ->
  exists c E', searchDigits m e fuel E = (c, E') /\ 0 <= E' /\ c * 10 ^ E' = z.
Proof.
  induction fuel as [|fuel IH]; intros E HE; [lia|].
  cbn [searchDigits]. destruct (candidate m e E) as [c|] eqn:Hc.
  - exists c, E. split; [reflexivity|]. split; [lia|]. apply candidate_integer; [lia|exact Hc].
  - destruct (Z.eq_dec E 0) as [->|HE0]; [exfalso; exact (candidate_zero Hc)|].
    apply IH. lia.
Qed.

Lemma startE_integer : 0 <= startE m e < 25.
Proof.
  unfold startE. pose proof (digits2_pos_bound m) as [Hd1 Hd2].
  set (D := Z.pos (digits2_pos m)) in *.
  assert (HD : 1 <= D) by (unfold D; lia).
  assert (H53 : D <= 53).
  { assert (D - 1 < 53); [|lia]. apply (Z.pow_lt_mono_r_iff 2); lia. }
  assert (Hde : - e < D).
  { apply (Z.pow_lt_mono_r_iff 2); [lia|lia|].
    apply Z.le_lt_trans with (Z.pos m); [|exact Hd2].
    rewrite Hm. assert (0 < 2 ^ (- e)) by (apply Z.pow_pos_nonneg; lia). nia. }
  assert (H0 : 0 <= (D + e) * 30103 / 100000) by (apply Z.div_pos; lia).
  assert (H1 : (D + e) * 30103 / 100000 < 23) by (apply Z.div_lt_upper_bound; lia).
  lia.
Qed.

Lemma strlen_zeros (k : nat) : strlen (zeros k) = Z.of_nat k.
Proof.
  unfold strlen. f_equal. induction k as [|k IH]; [reflexivity|].
  cbn [zeros String.length]. rewrite IH. reflexivity.
Qed.

(** The String of an integer below [2^53] is its decimal expansion. *)
Lemma numberToString_integer (s : bool) :
  numberToString (S754_finite s m e) = (if s then "-" else "") ++ decimal z.
Proof.
  cbn [numberToString]. unfold shortest.
  destruct (searchDigits_integer 25 (startE m e)) as (c & E' & -> & HE' & Hc).
  { pose proof startE_integer. lia. }
  f_equal. unfold layoutDigits.
  assert (Hc1 : 1 <= c).
  { assert (0 < 10 ^ E') by (apply Z.pow_pos_nonneg; lia). nia. }
  assert (Hdec : decimal z = decimal c ++ zeros (Z.to_nat E')).
  { rewrite <- Hc. rewrite <- (Z2Nat.id E') at 1 by lia.
    apply decimal_times_pow10. exact Hc1. }
  assert (Hlen : strlen (decimal z) <= 16).
  { apply (strlen_decimal_le 15). split; [lia|].
    assert (0 < 2 ^ (- e)) by (apply Z.pow_pos_nonneg; lia).
    change (10 ^ Z.of_nat 16) with 10000000000000000.
    change (2 ^ 53) with 9007199254740992 in Hbits. nia. }
  rewrite Hdec, strlen_append, strlen_zeros, Z2Nat.id in Hlen by lia.
  assert (H1 : (strlen (decimal c) <=? strlen (decimal c) + E') = true)
    by (apply Z.leb_le; lia).
  assert (H2 : (strlen (decimal c) + E' <=? 21) = true) by (apply Z.leb_le; lia).
  rewrite H1, H2. cbn [andb]. rewrite Hdec. do 2 f_equal. lia.
Qed.

Lemma tenthsOf_integer : tenthsOf m e = 10 * z.
Proof.
  unfold tenthsOf. rewrite (Z.max_r e 0), (Z.max_l (- e) 0) by lia.
  change (2 ^ 0) with 1. rewrite Hm.
  assert (HP : 0 < 2 ^ (- e)) by (apply Z.pow_pos_nonneg; lia).
  set (P := 2 ^ (- e)) in *.
  replace (20 * (z * P) * 1 + P) with ((20 * z + 1) * P) by lia.
  rewrite Z.div_mul_cancel_r by lia.
  replace (20 * z + 1) with (1 + (10 * z) * 2) by lia.
  rewrite Z.div_add by lia. reflexivity.
Qed.
End SafeInteger.

(** *** [prettyNum] and the suffix *)

Lemma toFixed1_small (s : bool) (m : positive) (e : Z) :
  e <= 0 -> Zpos m < 2 ^ 53 ->
  toFixed1 (S754_finite s m e)
  = (if s then "-" else "") ++ decimal (tenthsOf m e / 10) ++ "."
    ++ digitChar (tenthsOf m e mod 10).
Proof.
  intros He Hm. cbn [toFixed1].
  assert (Hbig : (10 ^ 21 * 2 ^ Z.max (- e) 0 <=? Z.pos m * 2 ^ Z.max e 0) = false).
  { apply Z.leb_gt. rewrite (Z.max_r e 0) by lia. change (2 ^ 0) with 1.
    pose proof (pow2_pos (- e)).
    change (2 ^ 53) with 9007199254740992 in Hm.
    change (10 ^ 21) with 1000000000000000000000. nia. }
  rewrite Hbig. f_equal.
  pose proof (tenthsOf_nonneg m e) as HT. set (T := tenthsOf m e) in *.
  destruct (Z.lt_ge_cases T 10) as [Hs|Hs].
  - rewrite (decimal_small T) by lia. rewrite Z.div_small, Z.mod_small by lia.
    reflexivity.
  - rewrite (decimal_step T) by lia.
    assert (Hlen : (strlen (decimal (T / 10) ++ digitChar (T mod 10)) <=? 1) = false).
    { apply Z.leb_gt. rewrite strlen_append, strlen_digitChar.
      assert (Hq : 0 <= T / 10) by (apply Z.div_pos; lia).
      pose proof (strlen_decimal_le (Z.to_nat (Z.log2 (T / 10))) (T / 10)
                    (conj Hq (log2_fuel _ Hq))) as Hl.
      lia. }
    rewrite Hlen, strlen_append, strlen_digitChar.
    replace (strlen (decimal (T / 10)) + 1 - 1) with (strlen (decimal (T / 10))) by lia.
    rewrite take_append, drop_append. reflexivity.
Qed.

Lemma prettyNum_fraction (s : bool) (m : positive) (e : Z) :
  e <= 0 -> Zpos m < 2 ^ 53 -> isInteger (S754_finite s m e) = false ->
  prettyNum (S754_finite s m e) = (if s then "-" else "") ++ oneDecimal (tenthsOf m e).
Proof.
  intros He Hm Hi. unfold prettyNum. rewrite Hi, toFixed1_small by assumption.
  unfold oneDecimal. pose proof (Z.mod_pos_bound (tenthsOf m e) 10 ltac:(lia)) as Hd.
  set (sg := if s then "-" else ""). set (A := decimal (tenthsOf m e / 10)).
  destruct (tenthsOf m e mod 10 =? 0) eqn:E.
  - apply Z.eqb_eq in E. rewrite E. change ("." ++ digitChar 0) with ".0".
    rewrite append_empty_r, <- append_assoc. apply stripDotZero_trims.
  - apply Z.eqb_neq in E. rewrite <- append_assoc.
    apply stripDotZero_keeps. lia.
Qed.

Lemma prettyNum_integer (s : bool) (m : positive) (e : Z) :
  e <= 0 -> Zpos m < 2 ^ 53 -> isInteger (S754_finite s m e) = true ->
  prettyNum (S754_finite s m e) = (if s then "-" else "") ++ oneDecimal (tenthsOf m e).
Proof.
  intros He Hm Hi. unfold prettyNum. rewrite Hi.
  assert (HP : 0 < 2 ^ (- e)) by (apply Z.pow_pos_nonneg; lia).
  assert (Hmod : Z.pos m mod 2 ^ (- e) = 0).
  { cbn [isInteger] in Hi. apply orb_true_iff in Hi as [Hi|Hi].
    - apply Z.leb_le in Hi. assert (e = 0) as -> by lia. apply Z.mod_1_r.
    - apply Z.eqb_eq, Hi. }
  apply Z.div_exact in Hmod; [|lia].
  set (z := Z.pos m / 2 ^ (- e)) in *.
  assert (Hmz : Z.pos m = z * 2 ^ (- e)) by lia.
  assert (Hz : 1 <= z) by nia.
  rewrite (numberToString_integer m e z He Hz Hmz Hm).
  rewrite (tenthsOf_integer m e z He Hmz). unfold oneDecimal.
  rewrite (Z.mul_comm 10 z), Z.div_mul, Z.mod_mul by lia.
  rewrite append_empty_r. reflexivity.
Qed.

Lemma is_double_neg (x : number) : is_double (neg x) = is_double x.
Proof. destruct x; reflexivity. Qed.

(** The away side's spread is the negation of the home side's; a side
    value within epsilon of zero gives " (PK)".  (The symmetry does not
    need the hypotheses.) *)
Lemma sideValue_symmetry (h : number) : sideValue h false = neg (sideValue h true).
Proof. reflexivity. Qed.

(** C3, as stated, fails for a spread of [2^70]: it is an integer, so
    [prettyNum] takes [String(n)], which from [10^21] on is in exponent
    notation with up to seventeen significant digits. *)
Lemma C3_huge_spread_is_written_with_an_exponent :
  is_double hugeSpread = true
  /\ isFinite hugeSpread = true
  /\ lt (abs (sideValue hugeSpread true)) EPSILON = false
  /\ spreadSuffixForSide (Some hugeSpread) true = " (+1.1805916207174113e+21)"
  /\ prettyNum (sideValue hugeSpread true) = "1.1805916207174113e+21"
  /\ plainDecimal (prettyNum (sideValue hugeSpread true)) = false.
Proof. repeat split; vm_compute; reflexivity. Qed.

(** C3, amended: for every finite home spread [h], the away side's value
    is the negation of the home side's; a side value within epsilon of zero
    gives " (PK)"; any other side value of magnitude below [2^53] gives
    " (+N)" when positive and " (-N)" when negative, where N is the
    magnitude rounded to the nearest tenth (half up) and written with one
    decimal place, or with none when that decimal is 0. *)
Theorem C3_spread_suffix_format (h : number) (isHome : bool) :
  is_double h = true -> isFinite h = true ->
  sideValue h false = neg (sideValue h true)
  /\ (lt (abs (sideValue h isHome)) EPSILON = true ->
      spreadSuffixForSide (Some h) isHome = " (PK)")
  /\ (lt (abs (sideValue h isHome)) EPSILON = false ->
      lt (abs (sideValue h isHome)) TWO53 = true ->
      exists T, nearestTenth (sideValue h isHome) T
                /\ spreadSuffixForSide (Some h) isHome
                   = " (" ++ (if isNegative (sideValue h isHome) then "-" else "+")
                     ++ oneDecimal T ++ ")").
Proof.
  intros Hd Hf. split; [reflexivity|]. split.
  - intros H. cbn [spreadSuffixForSide]. rewrite H. reflexivity.
  - intros Heps H53. cbn [spreadSuffixForSide]. rewrite Heps.
    assert (Hv : is_double (sideValue h isHome) = true)
      by (destruct isHome; cbn [sideValue]; rewrite ?is_double_neg; exact Hd).
    assert (Hfv : isFinite (sideValue h isHome) = true)
      by (destruct isHome; [exact Hf|destruct h; try discriminate; reflexivity]).
    destruct (sideValue h isHome) as [s|s| |s m e]; try discriminate.
    pose proof (is_double_mantissa s m e Hv) as Hm.
    pose proof (is_double_small_exponent s m e Hv H53) as He.
    exists (tenthsOf m e). split; [apply tenthsOf_nearest|].
    assert (Hp : prettyNum (S754_finite s m e)
                 = (if s then "-" else "") ++ oneDecimal (tenthsOf m e)).
    { destruct (isInteger (S754_finite s m e)) eqn:Hi;
        [apply prettyNum_integer|apply prettyNum_fraction]; assumption. }
    rewrite Hp. destruct s; reflexivity.
Qed.

(** A home spread of -3.5, seen from the away side. *)
Lemma C3_witness :
  is_double (StringToNumber "-3.5") = true
  /\ isFinite (StringToNumber "-3.5") = true
  /\ spreadSuffixForSide (Some (StringToNumber "-3.5")) false = " (+3.5)"
  /\ spreadSuffixForSide (Some (StringToNumber "-3.5")) true = " (-3.5)"
  /\ sideValue (StringToNumber "-3.5") false = neg (sideValue (StringToNumber "-3.5") true).
Proof.
  assert (Hd : is_double (StringToNumber "-3.5") = true) by (vm_compute; reflexivity).
  assert (Hf : isFinite (StringToNumber "-3.5") = true) by (vm_compute; reflexivity).
  split; [exact Hd|]. split; [exact Hf|].
  split; [vm_compute; reflexivity|]. split; [vm_compute; reflexivity|].
  apply (C3_spread_suffix_format (StringToNumber "-3.5") false Hd Hf).
Defined.

(** *** The Number of a safe integer *)

Lemma iter_xO_succ (n d : positive) :
  Pos.iter xO n (Pos.succ d) = xO (Pos.iter xO n d).
Proof. apply Pos.iter_succ. Qed.

Lemma digits2_pos_iter (n d : positive) :
  digits2_pos (Pos.iter xO n d) = (digits2_pos n + d)%positive.
Proof.
  induction d as [|d IH] using Pos.peano_ind.
  - cbn. lia.
  - rewrite iter_xO_succ. cbn [digits2_pos]. rewrite IH. lia.
Qed.

Lemma Zpos_iter (n d : positive) :
  Zpos (Pos.iter xO n d) = Zpos n * 2 ^ Zpos d.
Proof.
  induction d as [|d IH] using Pos.peano_ind.
  - cbn. lia.
  - rewrite iter_xO_succ, Pos2Z.inj_xO, IH, Pos2Z.inj_succ, Z.pow_succ_r by lia. lia.
Qed.

Lemma digits2_pos_le (n : positive) (k : Z) :
  Zpos n < 2 ^ k -> 0 <= k -> Zpos (digits2_pos n) <= k.
Proof.
  intros Hn Hk. pose proof (digits2_pos_bound n) as [Hlo _].
  destruct (Z_le_gt_dec (Zpos (digits2_pos n)) k) as [|Hgt]; [assumption|].
  assert (2 ^ k <= 2 ^ (Zpos (digits2_pos n) - 1)) by (apply Z.pow_le_mono_r; lia).
  lia.
Qed.

(** A mantissa of 53 bits with an exponent in the normal range is kept as
    it is by the rounding step. *)
Lemma binary_round_aux_exact (s : bool) (m : positive) (e : Z) :
  Zpos (digits2_pos m) = 53 -> -1074 <= e <= 971 ->
  binary_round_aux prec emax s (Zpos m) e loc_Exact = S754_finite s m e.
Proof.
  intros Hd He.
  assert (Hshr : shr_fexp prec emax (Zpos m) e loc_Exact
                 = ({| shr_m := Zpos m; shr_r := false; shr_s := false |}, e)).
  { unfold shr_fexp, Zdigits2. rewrite Hd. unfold fexp, emin, prec, emax.
    replace (Z.max (53 + e - 53) (3 - 1024 - 53) - e) with 0 by lia. reflexivity. }
  unfold binary_round_aux. rewrite Hshr. cbn [shr_m loc_of_shr_record round_nearest_even].
  rewrite Hshr. cbn [shr_m]. unfold emax, prec.
  destruct (e <=? 1024 - 53) eqn:E; [reflexivity|]. apply Z.leb_gt in E. lia.
Qed.

Lemma binary_round_safe (n : positive) :
  Zpos n < 2 ^ 53 ->
  exists m e, (forall s, binary_round prec emax s n 0 = S754_finite s m e)
              /\ -52 <= e <= 0 /\ Zpos m = Zpos n * 2 ^ (- e) /\ Zpos m < 2 ^ 53.
Proof.
  intros Hn. pose proof (digits2_pos_le n 53 Hn ltac:(lia)) as Hd.
  pose proof (digits2_pos_bound n) as [Hlo Hhi].
  assert (Hpos : 0 < Zpos (digits2_pos n)) by lia.
  unfold binary_round, shl_align, fexp, emin, prec, emax.
  replace (Z.max (Zpos (digits2_pos n) + 0 - 53) (3 - 1024 - 53) - 0)
    with (Zpos (digits2_pos n) - 53) by lia.
  destruct (Zpos (digits2_pos n) - 53) as [|p|p] eqn:E; [|lia|].
  - replace (Z.max (Zpos (digits2_pos n) + 0 - 53) (3 - 1024 - 53)) with 0 by lia.
    exists n, 0. split; [intros s; rewrite binary_round_aux_exact by lia; reflexivity|].
    repeat split; try lia.
  - replace (Z.max (Zpos (digits2_pos n) + 0 - 53) (3 - 1024 - 53)) with (Zneg p) by lia.
    exists (Pos.iter xO n p), (Zneg p).
    assert (Hdig : Zpos (digits2_pos (Pos.iter xO n p)) = 53)
      by (rewrite digits2_pos_iter; lia).
    split; [intros s; rewrite binary_round_aux_exact by (try assumption; lia); reflexivity|].
    split; [lia|]. split.
    + rewrite Zpos_iter. reflexivity.
    + pose proof (digits2_pos_bound (Pos.iter xO n p)) as [_ H]. rewrite Hdig in H. exact H.
Qed.

(** The Number of an integer of magnitude below [2^53] is that integer. *)
Lemma of_Z_signed (n : Z) :
  1 <= n < 2 ^ 53 ->
  exists m e, (forall sg : bool, of_Z (if sg then - n else n) = S754_finite sg m e)
              /\ -52 <= e <= 0 /\ Zpos m = n * 2 ^ (- e) /\ Zpos m < 2 ^ 53.
Proof.
  intros [H1 H2]. destruct n as [|p|p]; try lia.
  destruct (binary_round_safe p H2) as (m & e & Hr & He & Hm & Hb).
  exists m, e. split; [|repeat split; assumption || lia].
  intros [|]; apply Hr.
Qed.

Lemma of_Z_safe (n : Z) :
  1 <= n < 2 ^ 53 ->
  exists m e, of_Z n = S754_finite false m e
              /\ e <= 0 /\ Zpos m = n * 2 ^ (- e) /\ Zpos m < 2 ^ 53.
Proof.
  intros Hn. destruct (of_Z_signed n Hn) as (m & e & Hr & He & Hm & Hb).
  exists m, e. split; [apply (Hr false)|]. repeat split; assumption || lia.
Qed.

Lemma numberToString_of_Z (n : Z) :
  0 <= n < 2 ^ 53 -> numberToString (of_Z n) = decimal n.
Proof.
  intros [H0 H2]. destruct (Z.eq_dec n 0) as [->|Hn]; [reflexivity|].
  destruct (of_Z_safe n ltac:(lia)) as (m & e & -> & He & Hm & Hb).
  apply (numberToString_integer m e n He ltac:(lia) Hm Hb false).
Qed.

(** *** Reading decimal digits back *)

Lemma digitIn_digitChar (d : Z) (rest : string) (acc cnt : Z) :
  0 <= d <= 9 ->
  digitsRun 10 (digitChar d ++ rest) acc cnt = digitsRun 10 rest (acc * 10 + d) (cnt + 1).
Proof.
  intros Hd.
  assert (H : d = 0 \/ d = 1 \/ d = 2 \/ d = 3 \/ d = 4 \/ d = 5 \/ d = 6 \/ d = 7
              \/ d = 8 \/ d = 9) by lia.
  destruct H as [->|[->|[->|[->|[->|[->|[->|[->|[->| ->]]]]]]]]]; reflexivity.
Qed.

Lemma digitsRun_decimal (k : nat) :
  forall n rest acc cnt, 0 <= n < 10 ^ Z.of_nat (S k) ->
  digitsRun 10 (decimal n ++ rest) acc cnt
  = digitsRun 10 rest (acc * 10 ^ strlen (decimal n) + n) (cnt + strlen (decimal n)).
Proof.
  induction k as [|k IH]; intros n rest acc cnt Hn.
  - change (10 ^ Z.of_nat 1) with 10 in Hn.
    rewrite decimal_small by lia. rewrite digitIn_digitChar by lia.
    rewrite strlen_digitChar. change (10 ^ 1) with 10. reflexivity.
  - destruct (Z_lt_ge_dec n 10) as [Hlt|Hge].
    + rewrite decimal_small by lia. rewrite digitIn_digitChar by lia.
      rewrite strlen_digitChar. change (10 ^ 1) with 10. reflexivity.
    + rewrite decimal_step by lia. rewrite append_assoc.
      assert (Hq : 0 <= n / 10 < 10 ^ Z.of_nat (S k)).
      { split; [apply Z.div_pos; lia|].
        apply Z.div_lt_upper_bound; [lia|].
        rewrite <- Z.pow_succ_r by lia. rewrite <- Nat2Z.inj_succ. apply Hn. }
      rewrite IH by exact Hq.
      rewrite digitIn_digitChar by (pose proof (Z.mod_pos_bound n 10 ltac:(lia)); lia).
      rewrite strlen_append, strlen_digitChar.
      pose proof (strlen_pos (decimal (n / 10))) as Hl.
      rewrite Z.pow_add_r by lia. change (10 ^ 1) with 10.
      f_equal; [|lia].
      pose proof (Z.div_mod n 10 ltac:(lia)). lia.
Qed.

Lemma digitsRun_all (n : Z) (rest : string) :
  0 <= n ->
  digitsRun 10 (decimal n ++ rest) 0 0 = digitsRun 10 rest n (strlen (decimal n)).
Proof.
  intros Hn. rewrite (digitsRun_decimal (Z.to_nat (Z.log2 n))).
  - reflexivity.
  - split; [exact Hn|]. apply log2_fuel, Hn.
Qed.

Lemma digitsRun_stop (rest : string) (acc cnt : Z) :
  noDigitAhead rest = true -> digitsRun 10 rest acc cnt = (acc, cnt, rest).
Proof.
  destruct rest as [|c r]; [reflexivity|]. cbn [noDigitAhead digitsRun]. intros H.
  unfold digitIn. unfold isDigit in H. apply negb_true_iff in H. rewrite H.
  destruct ((97 <=? code c) && (code c <=? 122)) eqn:E1.
  - apply andb_true_iff in E1 as [A B]. apply Z.leb_le in A.
    destruct (code c - 87 <? 10) eqn:E; [apply Z.ltb_lt in E; lia|reflexivity].
  - destruct ((65 <=? code c) && (code c <=? 90)) eqn:E2.
    + apply andb_true_iff in E2 as [A B]. apply Z.leb_le in A.
      destruct (code c - 55 <? 10) eqn:E; [apply Z.ltb_lt in E; lia|reflexivity].
    + reflexivity.
Qed.

Lemma decimal_head (k : nat) :
  forall n, 0 <= n < 10 ^ Z.of_nat (S k) ->
  exists d r, decimal n = digitChar d ++ r /\ 0 <= d <= 9 /\ (1 <= n -> 1 <= d).
Proof.
  induction k as [|k IH]; intros n Hn.
  - change (10 ^ Z.of_nat 1) with 10 in Hn. exists n, "".
    rewrite decimal_small by lia. split; [reflexivity|]. lia.
  - destruct (Z_lt_ge_dec n 10) as [Hlt|Hge].
    + exists n, "". rewrite decimal_small by lia. split; [reflexivity|]. lia.
    + assert (Hq : 0 <= n / 10 < 10 ^ Z.of_nat (S k)).
      { split; [apply Z.div_pos; lia|].
        apply Z.div_lt_upper_bound; [lia|].
        rewrite <- Z.pow_succ_r by lia. rewrite <- Nat2Z.inj_succ. apply Hn. }
      destruct (IH _ Hq) as (d & r & Hd & Hr & H1).
      exists d, (r ++ digitChar (n mod 10)).
      rewrite decimal_step by lia. rewrite Hd. split; [reflexivity|].
      split; [exact Hr|]. intros _. apply H1.
      apply Z.div_le_lower_bound; lia.
Qed.

Lemma decimal_head_all (n : Z) :
  0 <= n ->
  exists d r, decimal n = digitChar d ++ r /\ 0 <= d <= 9 /\ (1 <= n -> 1 <= d).
Proof.
  intros Hn. apply (decimal_head (Z.to_nat (Z.log2 n))). split; [exact Hn|].
  apply log2_fuel, Hn.
Qed.

Lemma digit_first (d : Z) (r : string) :
  0 <= d <= 9 ->
  skipWhite (digitChar d ++ r) = digitChar d ++ r
  /\ signOf (digitChar d ++ r) = (false, digitChar d ++ r).
Proof.
  intros Hd.
  assert (H : d = 0 \/ d = 1 \/ d = 2 \/ d = 3 \/ d = 4 \/ d = 5 \/ d = 6 \/ d = 7
              \/ d = 8 \/ d = 9) by lia.
  destruct H as [->|[->|[->|[->|[->|[->|[->|[->|[->| ->]]]]]]]]];
    (split; [destruct r as [|b [|c r]]; reflexivity|reflexivity]).
Qed.

Lemma parseInt10_decimal (n : Z) (rest : string) :
  0 <= n -> noDigitAhead rest = true ->
  parseInt10 (decimal n ++ rest) = if n =? 0 then pzero else of_Z n.
Proof.
  intros Hn Hrest. unfold parseInt10.
  destruct (decimal_head_all n Hn) as (d & r & Hd & Hr & _).
  rewrite Hd, append_assoc. destruct (digit_first d (r ++ rest) Hr) as [-> ->].
  rewrite <- append_assoc, <- Hd. rewrite digitsRun_all by exact Hn.
  rewrite digitsRun_stop by exact Hrest.
  assert (Hl : 1 <= strlen (decimal n)).
  { rewrite Hd, strlen_append, strlen_digitChar. pose proof (strlen_pos r). lia. }
  destruct (strlen (decimal n) =? 0) eqn:E; [apply Z.eqb_eq in E; lia|].
  destruct (n =? 0); reflexivity.
Qed.

Lemma isFinite_of_Z (n : Z) : 0 <= n < 2 ^ 53 -> isFinite (of_Z n) = true.
Proof.
  intros [H0 H2]. destruct (Z.eq_dec n 0) as [->|Hn]; [reflexivity|].
  destruct (of_Z_safe n ltac:(lia)) as (m & e & -> & _). reflexivity.
Qed.
(** *** Sums, differences and comparisons of safe integers *)

Lemma iter_pos_iter {A : Type} (f : A -> A) (p : positive) (x : A) :
  @SpecFloat.iter_pos A f p x = Pos.iter f x p.
Proof.
  revert x. induction p as [p IH|p IH|]; intros x; cbn [SpecFloat.iter_pos Pos.iter].
  - rewrite !IH, !Pos.iter_swap. reflexivity.
  - rewrite !IH. reflexivity.
  - reflexivity.
Qed.

(** Shifting out zero bits loses nothing. *)
Lemma shr_exact (m p : positive) :
  @SpecFloat.iter_pos _ shr_1 p
     {| shr_m := Zpos (Pos.iter xO m p); shr_r := false; shr_s := false |}
  = {| shr_m := Zpos m; shr_r := false; shr_s := false |}.
Proof.
  rewrite iter_pos_iter. induction p as [|p IH] using Pos.peano_ind; [reflexivity|].
  rewrite Pos.iter_succ_r, Pos.iter_succ. exact IH.
Qed.

(** A mantissa of 53 bits followed by zero bits is rounded to itself. *)
Lemma binary_round_shifted_right (s : bool) (m p : positive) (e : Z) :
  Zpos (digits2_pos m) = 53 -> -1074 <= e <= 971 ->
  binary_round prec emax s (Pos.iter xO m p) (e - Zpos p) = S754_finite s m e.
Proof.
  intros Hd He. unfold binary_round.
  assert (Hdig : Zpos (digits2_pos (Pos.iter xO m p)) = 53 + Zpos p)
    by (rewrite digits2_pos_iter; lia).
  rewrite Hdig. unfold shl_align, fexp, emin, prec, emax.
  replace (Z.max (53 + Zpos p + (e - Zpos p) - 53) (3 - 1024 - 53) - (e - Zpos p))
    with (Zpos p) by lia.
  unfold binary_round_aux, shr_fexp, Zdigits2. rewrite Hdig.
  unfold fexp, emin, prec, emax.
  replace (Z.max (53 + Zpos p + (e - Zpos p) - 53) (3 - 1024 - 53) - (e - Zpos p))
    with (Zpos p) by lia.
  cbn [shr shr_record_of_loc]. rewrite shr_exact.
  cbn [shr_m loc_of_shr_record round_nearest_even]. rewrite Hd.
  replace (Z.max (53 + (e - Zpos p + Zpos p) - 53) (3 - 1024 - 53) - (e - Zpos p + Zpos p))
    with 0 by lia.
  cbn [shr shr_m]. replace (e - Zpos p + Zpos p) with e by lia.
  destruct (e <=? 1024 - 53) eqn:E; [reflexivity|]. apply Z.leb_gt in E. lia.
Qed.

(** A shorter mantissa is shifted to 53 bits. *)
Lemma binary_round_shifted_left (s : bool) (k p : positive) (e : Z) :
  Zpos (digits2_pos k) + Zpos p = 53 -> -1074 <= e <= 971 ->
  binary_round prec emax s k (e + Zpos p) = S754_finite s (Pos.iter xO k p) e.
Proof.
  intros Hd He. unfold binary_round, shl_align, fexp, emin, prec, emax.
  replace (Z.max (Zpos (digits2_pos k) + (e + Zpos p) - 53) (3 - 1024 - 53) - (e + Zpos p))
    with (Zneg p) by lia.
  replace (Z.max (Zpos (digits2_pos k) + (e + Zpos p) - 53) (3 - 1024 - 53)) with e by lia.
  apply binary_round_aux_exact; [rewrite digits2_pos_iter; lia|lia].
Qed.

Lemma binary_round_kept (s : bool) (m : positive) (e : Z) :
  Zpos (digits2_pos m) = 53 -> -1074 <= e <= 971 ->
  binary_round prec emax s m e = S754_finite s m e.
Proof.
  intros Hd He. unfold binary_round, shl_align, fexp, emin, prec, emax. rewrite Hd.
  replace (Z.max (53 + e - 53) (3 - 1024 - 53) - e) with 0 by lia.
  apply binary_round_aux_exact; assumption.
Qed.

(** The Number of an integer of magnitude below [2^53]: a mantissa of 53
    bits, and an exponent that makes up for the shift. *)
Lemma of_Z_normal (n : Z) :
  1 <= n < 2 ^ 53 ->
  exists m e, (forall sg : bool, of_Z (if sg then - n else n) = S754_finite sg m e)
              /\ -52 <= e <= 0 /\ Zpos m = n * 2 ^ (- e) /\ Zpos (digits2_pos m) = 53.
Proof.
  intros [H1 H2]. destruct n as [|p|p]; try lia.
  pose proof (digits2_pos_le p 53 H2 ltac:(lia)) as Hd.
  assert (Hpos : 0 < Zpos (digits2_pos p)) by lia.
  destruct (Z.eq_dec (Zpos (digits2_pos p)) 53) as [E|E].
  - exists p, 0. split; [|repeat split; lia].
    intros [|]; cbn [Z.opp]; unfold of_Z, binary_normalize; apply binary_round_kept; lia.
  - pose (j := Z.to_pos (53 - Zpos (digits2_pos p))).
    assert (Hj : Zpos j = 53 - Zpos (digits2_pos p)) by (unfold j; lia).
    exists (Pos.iter xO p j), (- Zpos j). split; [|split; [lia|split]].
    + intros sg.
      assert (R : forall s, binary_round prec emax s p 0
                            = S754_finite s (Pos.iter xO p j) (- Zpos j)).
      { intros s. rewrite <- (binary_round_shifted_left s p j (- Zpos j)) by lia.
        f_equal. lia. }
      destruct sg; cbn [Z.opp]; unfold of_Z, binary_normalize; apply R.
    + rewrite Zpos_iter, Z.opp_involutive. reflexivity.
    + rewrite digits2_pos_iter. lia.
Qed.

Lemma pow2_split (a b : Z) : 0 <= a -> 0 <= b -> 2 ^ (a + b) = 2 ^ a * 2 ^ b.
Proof. intros. apply Z.pow_add_r; assumption. Qed.

(** An integer of magnitude below [2^53], given with some zero bits
    after the point, is normalized to its Number. *)
Lemma binary_normalize_scaled (n k : Z) (sg : bool) :
  1 <= n < 2 ^ 53 -> 0 <= k <= 1074 ->
  binary_normalize prec emax ((if sg then - n else n) * 2 ^ k) (- k) false
  = of_Z (if sg then - n else n).
Proof.
  intros Hn Hk. destruct (of_Z_normal n Hn) as (m & e & Hr & He & Hm & Hd).
  rewrite Hr.
  assert (Hp : 0 < 2 ^ k) by (apply Z.pow_pos_nonneg; lia).
  pose (K := Z.to_pos (n * 2 ^ k)).
  assert (HK : Zpos K = n * 2 ^ k) by (unfold K; nia).
  assert (R : binary_round prec emax sg K (- k) = S754_finite sg m e).
  { destruct (Z.compare_spec k (- e)) as [E|E|E].
    - assert (K = m) as -> by (apply Pos2Z.inj; rewrite HK, Hm, E; reflexivity).
      replace (- k) with e by lia. apply binary_round_kept; lia.
    - pose (j := Z.to_pos (- e - k)).
      assert (Hj : Zpos j = - e - k) by (unfold j; lia).
      assert (m = Pos.iter xO K j) as Em.
      { apply Pos2Z.inj. rewrite Zpos_iter, HK, Hm, Hj.
        replace (- e) with (k + (- e - k)) at 1 by lia.
        rewrite pow2_split by lia. lia. }
      replace (- k) with (e + Zpos j) by lia. rewrite Em.
      apply binary_round_shifted_left; [|lia].
      rewrite Em, digits2_pos_iter in Hd. lia.
    - pose (j := Z.to_pos (k + e)).
      assert (Hj : Zpos j = k + e) by (unfold j; lia).
      assert (K = Pos.iter xO m j) as ->.
      { apply Pos2Z.inj. rewrite Zpos_iter, HK, Hm, Hj.
        replace k with (- e + (k + e)) at 1 by lia.
        rewrite pow2_split by lia. lia. }
      replace (- k) with (e - Zpos j) by lia.
      apply binary_round_shifted_right; lia. }
  destruct sg.
  - replace (- n * 2 ^ k) with (Zneg K) by lia. exact R.
  - rewrite <- HK. exact R.
Qed.

Lemma shl_align_value (m : positive) (e ez : Z) :
  ez <= e -> Zpos (fst (shl_align m e ez)) = Zpos m * 2 ^ (e - ez).
Proof.
  intros H. unfold shl_align. destruct (ez - e) as [|p|p] eqn:E; cbn [fst]; [|lia|].
  - replace (e - ez) with 0 by lia. lia.
  - rewrite Zpos_iter. f_equal. f_equal. lia.
Qed.

Lemma scaled_to (a ma ea ez : Z) :
  ez <= ea <= 0 -> ma = a * 2 ^ (- ea) -> ma * 2 ^ (ea - ez) = a * 2 ^ (- ez).
Proof.
  intros H ->. replace (- ez) with (- ea + (ea - ez)) by lia.
  rewrite pow2_split by lia. lia.
Qed.

(** Sums and differences of such integers are exact. *)
Lemma add_of_Z (a b : Z) :
  1 <= a -> 1 <= b -> a + b < 2 ^ 53 -> add (of_Z a) (of_Z b) = of_Z (a + b).
Proof.
  intros Ha Hb Hab.
  destruct (of_Z_normal a ltac:(lia)) as (ma & ea & Ra & Hea & Hma & _).
  destruct (of_Z_normal b ltac:(lia)) as (mb & eb & Rb & Heb & Hmb & _).
  rewrite (Ra false), (Rb false). unfold add, SFadd. cbn zeta.
  rewrite !shl_align_value by lia. cbn [cond_Zopp].
  rewrite (scaled_to a _ ea (Z.min ea eb)) by (lia || assumption).
  rewrite (scaled_to b _ eb (Z.min ea eb)) by (lia || assumption).
  rewrite <- Z.mul_add_distr_r.
  rewrite <- (Z.opp_involutive (Z.min ea eb)) at 2.
  apply (binary_normalize_scaled (a + b) (- Z.min ea eb) false); lia.
Qed.

Lemma sub_of_Z (a b : Z) :
  1 <= b -> b < a -> a < 2 ^ 53 -> sub (of_Z a) (of_Z b) = of_Z (a - b).
Proof.
  intros Hb Hba Ha.
  destruct (of_Z_normal a ltac:(lia)) as (ma & ea & Ra & Hea & Hma & _).
  destruct (of_Z_normal b ltac:(lia)) as (mb & eb & Rb & Heb & Hmb & _).
  rewrite (Ra false), (Rb false). unfold sub, SFsub. cbn zeta.
  rewrite !shl_align_value by lia. cbn [cond_Zopp].
  rewrite (scaled_to a _ ea (Z.min ea eb)) by (lia || assumption).
  rewrite (scaled_to b _ eb (Z.min ea eb)) by (lia || assumption).
  rewrite <- Z.mul_sub_distr_r.
  rewrite <- (Z.opp_involutive (Z.min ea eb)) at 2.
  apply (binary_normalize_scaled (a - b) (- Z.min ea eb) false); lia.
Qed.

(** Numbers of such integers compare as the integers do. *)
Lemma compare_normal (a b : Z) (ma mb : positive) (ea eb : Z) :
  ea <= 0 -> eb <= 0 ->
  Zpos ma = a * 2 ^ (- ea) -> Zpos (digits2_pos ma) = 53 ->
  Zpos mb = b * 2 ^ (- eb) -> Zpos (digits2_pos mb) = 53 ->
  match ea ?= eb with
  | Lt => Lt
  | Gt => Gt
  | Eq => Pos.compare_cont Eq ma mb
  end = (a ?= b).
Proof.
  intros Hea Heb Hma Hda Hmb Hdb.
  pose proof (digits2_pos_bound ma) as [La Ua]. rewrite Hda in La, Ua.
  pose proof (digits2_pos_bound mb) as [Lb Ub]. rewrite Hdb in Lb, Ub.
  change (2 ^ (53 - 1)) with 4503599627370496 in La, Lb.
  change (2 ^ 53) with 9007199254740992 in Ua, Ub.
  assert (Pa : 0 < 2 ^ (- ea)) by (apply Z.pow_pos_nonneg; lia).
  assert (Pb : 0 < 2 ^ (- eb)) by (apply Z.pow_pos_nonneg; lia).
  destruct (Z.compare_spec ea eb) as [E|E|E]; symmetry.
  - subst eb. change (Pos.compare_cont Eq ma mb) with (Zpos ma ?= Zpos mb).
    rewrite Hma, Hmb.
    destruct (Z.compare_spec a b) as [F|F|F]; symmetry;
      [subst b; apply Z.compare_refl|apply Z.compare_lt_iff; nia|apply Z.compare_gt_iff; nia].
  - apply Z.compare_lt_iff.
    assert (Q : 2 ^ (- ea) = 2 ^ (- eb) * 2 ^ (eb - ea))
      by (rewrite <- pow2_split by lia; f_equal; lia).
    assert (Q2 : 2 <= 2 ^ (eb - ea)).
    { change 2 with (2 ^ 1) at 1. apply Z.pow_le_mono_r; lia. }
    rewrite Q in Hma. nia.
  - apply Z.compare_gt_iff.
    assert (Q : 2 ^ (- eb) = 2 ^ (- ea) * 2 ^ (ea - eb))
      by (rewrite <- pow2_split by lia; f_equal; lia).
    assert (Q2 : 2 <= 2 ^ (ea - eb)).
    { change 2 with (2 ^ 1) at 1. apply Z.pow_le_mono_r; lia. }
    rewrite Q in Hmb. nia.
Qed.

Lemma compare_of_Z (a b : Z) :
  - 2 ^ 53 < a < 2 ^ 53 -> - 2 ^ 53 < b < 2 ^ 53 ->
  SFcompare (of_Z a) (of_Z b) = Some (a ?= b).
Proof.
  intros Ha Hb.
  assert (N : forall z, - 2 ^ 53 < z < 2 ^ 53 ->
            z = 0
            \/ exists n sg m e, 1 <= n /\ z = (if sg : bool then - n else n)
                                /\ of_Z z = S754_finite sg m e /\ e <= 0
                                /\ Zpos m = n * 2 ^ (- e) /\ Zpos (digits2_pos m) = 53).
  { intros z Hz. destruct (Z.eq_dec z 0) as [|Hne]; [left; assumption|right].
    destruct (Z_lt_le_dec z 0) as [Hneg|Hpos].
    - destruct (of_Z_normal (- z) ltac:(lia)) as (m & e & R & He & Hm & Hd).
      exists (- z), true, m, e. rewrite <- (R true). repeat split; try lia.
      f_equal. lia.
    - destruct (of_Z_normal z ltac:(lia)) as (m & e & R & He & Hm & Hd).
      exists z, false, m, e. rewrite <- (R false). repeat split; lia. }
  destruct (N a Ha) as [->|(na & sa & ma & ea & Hna & -> & -> & Hea & Hma & Hda)];
    destruct (N b Hb) as [->|(nb & sb & mb & eb & Hnb & -> & -> & Heb & Hmb & Hdb)].
  - reflexivity.
  - change (of_Z 0) with (S754_zero false). cbn [SFcompare]. f_equal.
    destruct sb; symmetry; [apply Z.compare_gt_iff|apply Z.compare_lt_iff]; lia.
  - change (of_Z 0) with (S754_zero false). cbn [SFcompare]. f_equal.
    destruct sa; symmetry; [apply Z.compare_lt_iff|apply Z.compare_gt_iff]; lia.
  - cbn [SFcompare]. f_equal.
    pose proof (compare_normal na nb ma mb ea eb Hea Heb Hma Hda Hmb Hdb) as C.
    destruct sa, sb.
    + rewrite Z.compare_opp, (Z.compare_antisym na nb), <- C.
      destruct (ea ?= eb); reflexivity.
    + symmetry. apply Z.compare_lt_iff. lia.
    + symmetry. apply Z.compare_gt_iff. lia.
    + exact C.
Qed.

Lemma lt_of_Z (a b : Z) :
  - 2 ^ 53 < a < 2 ^ 53 -> - 2 ^ 53 < b < 2 ^ 53 -> lt (of_Z a) (of_Z b) = (a <? b).
Proof.
  intros Ha Hb. unfold lt, SFltb. rewrite compare_of_Z by assumption. reflexivity.
Qed.

Lemma gt_of_Z (a b : Z) :
  - 2 ^ 53 < a < 2 ^ 53 -> - 2 ^ 53 < b < 2 ^ 53 -> gt (of_Z a) (of_Z b) = (b <? a).
Proof. intros Ha Hb. apply lt_of_Z; assumption. Qed.

Lemma strictEq_of_Z (a b : Z) :
  - 2 ^ 53 < a < 2 ^ 53 -> - 2 ^ 53 < b < 2 ^ 53 -> strictEq (of_Z a) (of_Z b) = (a =? b).
Proof.
  intros Ha Hb. unfold strictEq, SFeqb. rewrite compare_of_Z by assumption.
  destruct (Z.compare_spec a b), (Z.eqb_spec a b); (reflexivity || lia).
Qed.

Lemma Math_min_of_Z (a b : Z) :
  - 2 ^ 53 < a < 2 ^ 53 -> - 2 ^ 53 < b < 2 ^ 53 ->
  Math_min (of_Z a) (of_Z b) = of_Z (Z.min a b).
Proof.
  intros Ha Hb. unfold Math_min, Z.min. rewrite compare_of_Z by assumption.
  destruct (Z.compare_spec a b) as [E|E|E]; try reflexivity.
  subst b. destruct (of_Z a) as [[|]| | |]; reflexivity.
Qed.

Lemma Math_max_of_Z (a b : Z) :
  - 2 ^ 53 < a < 2 ^ 53 -> - 2 ^ 53 < b < 2 ^ 53 ->
  Math_max (of_Z a) (of_Z b) = of_Z (Z.max a b).
Proof.
  intros Ha Hb. unfold Math_max, Z.max. rewrite compare_of_Z by assumption.
  destruct (Z.compare_spec a b) as [E|E|E]; try reflexivity.
  subst b. destruct (of_Z a) as [[|]| | |]; reflexivity.
Qed.

(** [clamp] on such integers is the integer clamp. *)
Lemma clamp_of_Z (n lo hi : Z) :
  - 2 ^ 53 < n < 2 ^ 53 -> - 2 ^ 53 < lo < 2 ^ 53 -> - 2 ^ 53 < hi < 2 ^ 53 ->
  clamp (of_Z n) (of_Z lo) (of_Z hi) = of_Z (Z.max lo (Z.min hi n)).
Proof.
  intros Hn Hlo Hhi. unfold clamp.
  rewrite Math_min_of_Z by assumption. apply Math_max_of_Z; [assumption|lia].
Qed.

(** *** The week number *)

Lemma sameSeason_trans (a b c : World) :
  sameSeason a b -> sameSeason b c -> sameSeason a c.
Proof.
  unfold sameSeason. intros (A1 & A2 & A3 & A4) (B1 & B2 & B3 & B4).
  repeat split; congruence.
Qed.

Lemma seasonInv_same (w w' : World) : sameSeason w w' -> seasonInv w -> seasonInv w'.
Proof.
  unfold sameSeason, seasonInv. intros (H1 & H2 & H3 & H4). rewrite H1, H2, H3, H4. trivial.
Qed.

Lemma cleared_season (w w' : World) : cleared w' = cleared w -> sameSeason w w'.
Proof.
  intros H. apply cleared_fields in H as (_ & _ & Ho & _ & _ & Hw & _ & _ & Hk & Hm & _).
  repeat split; assumption.
Qed.

Lemma clearInterval_run (h : option nat) (w : World) :
  clearInterval h w = (Returned tt, clearTimer h w).
Proof. destruct h; reflexivity. Qed.

Lemma loadWeek_begin_run (w : World) :
  loadWeek_begin w = (Returned tt, afterLoadBegin w).
Proof.
  unfold loadWeek_begin. erewrite bind_run by reflexivity.
  erewrite bind_run by apply clearInterval_run. reflexivity.
Qed.

Lemma callLoadWeek_run (b : bool) (w : World) :
  callLoadWeek b w
  = (Returned tt,
     onBrowser (fun br => withPending (pending br ++ LoadFlow b :: nil)%list br)
               (afterLoadBegin w)).
Proof.
  unfold callLoadWeek. erewrite bind_run by apply loadWeek_begin_run. reflexivity.
Qed.

Lemma afterLoadBegin_season (f : Browser -> Browser) (w : World) :
  sameSeason w (onBrowser f (afterLoadBegin w)).
Proof. unfold afterLoadBegin. destruct (refreshTimer (state w)); repeat split. Qed.

Lemma callLoadWeek_season (b : bool) (w : World) : sameSeason w (exec (callLoadWeek b) w).
Proof. unfold exec. rewrite callLoadWeek_run. apply afterLoadBegin_season. Qed.

Section SeasonProofs.
Variable Date_parse : string -> option Z.
Variable thisYear : Z.

Lemma loadWeek_resume_season (r : Response) (w : World) :
  sameSeason w (exec (loadWeek_resume Date_parse r) w).
Proof.
  unfold exec, loadWeek_resume. destruct r as [err|data]; [repeat split|].
  erewrite bind_run by reflexivity. erewrite bind_run by reflexivity.
  destruct (eventsOf Date_parse data) as [|e l]; [repeat split|].
  erewrite bind_run by reflexivity. unfold bind at 1.
  match goal with |- context [renderEvents ?evs ?w'] =>
    pose proof (cleared_season _ _ (renderEvents_frame evs w')) as H;
    destruct (renderEvents evs w') as [[[]|err] w2]
  end; cbn [snd] in H |- *; [|exact H].
  erewrite bind_run by reflexivity.
  eapply sameSeason_trans; [exact H|].
  match goal with |- context [if ?b then _ else _] => destruct b end; repeat split.
Qed.

Lemma refreshLive_resume_season (r : Response) (w : World) :
  sameSeason w (exec (refreshLive_resume Date_parse r) w).
Proof.
  unfold exec, refreshLive_resume, tryCatch. destruct r as [err|data]; [repeat split|].
  erewrite bind_run by reflexivity. unfold bind at 1.
  match goal with |- context [renderEvents ?evs ?w'] =>
    pose proof (cleared_season _ _ (renderEvents_frame evs w')) as H;
    destruct (renderEvents evs w') as [[[]|err] w2]
  end; cbn [snd] in H |- *;
    (eapply sameSeason_trans; [exact H|]); [|repeat split].
  erewrite bind_run by reflexivity.
  match goal with |- context [if ?b then _ else _] => destruct b end; [|repeat split].
  match goal with |- context [clearInterval ?t] => destruct t end; repeat split.
Qed.

Lemma initCatch_season (err : string) (w : World) : sameSeason w (exec (initCatch err) w).
Proof. repeat split. Qed.

Lemma loadWeek_resume_caught_season (r : Response) (w : World) :
  sameSeason w (exec (tryCatch (loadWeek_resume Date_parse r) initCatch) w).
Proof.
  pose proof (loadWeek_resume_season r w) as H. unfold exec, tryCatch in *.
  destruct (loadWeek_resume Date_parse r w) as [[[]|err] w']; [exact H|].
  eapply sameSeason_trans; [exact H|]. apply initCatch_season.
Qed.

Lemma orNumber_whole (a b : option number) :
  wholeNumber a -> wholeNumber b -> wholeNumber (orNumber a b).
Proof.
  intros Ha Hb. destruct a as [x|]; [|exact Hb]. cbn. destruct (truthyNumber x); assumption.
Qed.

Lemma numberOr_whole (a : option number) :
  wholeNumber a -> exists k, - 2 ^ 53 < k < 2 ^ 53 /\ numberOr a (of_Z 1) = of_Z k.
Proof.
  intros Ha. destruct a as [x|]; [|exists 1; split; [lia|reflexivity]].
  cbn. destruct (truthyNumber x); [exact Ha|]. exists 1. split; [lia|reflexivity].
Qed.

Lemma Array_length_range {A : Type} (x : A) (l : list A) :
  1 <= Array_length (x :: l) < 2 ^ 32.
Proof. unfold Array_length. cbn [length]. lia. Qed.

(** Start-up clamps a whole week number into the range of the selector it
    builds. *)
Lemma init_resume_season (r : Response) (w : World) :
  wholeWeeks r -> seasonInv w -> seasonInv (exec (init_resume thisYear r) w).
Proof.
  intros Hwhole Hinv. unfold exec, init_resume, tryCatch.
  destruct r as [err|base].
  { eapply seasonInv_same; [|exact Hinv]. repeat split. }
  destruct Hwhole as [Hsb Hlg].
  erewrite bind_run by reflexivity.
  erewrite bind_run by reflexivity.
  set (w1 := onState _ w).
  assert (H1 : 1 <= maxWeeks (state w1) < 2 ^ 32) by (destruct Hinv as [H _]; exact H).
  clearbody w1.
  match goal with
  | |- context [bind ?c _ w1] =>
      assert (Hmax : exists w2, c w1 = (Returned tt, w2) /\ 1 <= maxWeeks (state w2) < 2 ^ 32)
  end.
  { destruct (List.find isRegular _) as [[lab [[|x entries]|]]|];
      try (exists w1; split; [reflexivity|exact H1]).
    eexists. split; [reflexivity|]. cbn [state maxWeeks onState withMaxWeeks].
    apply Array_length_range. }
  destruct Hmax as (w2 & Hrun & H2). erewrite bind_run by exact Hrun.
  erewrite bind_run by reflexivity.
  repeat (erewrite bind_run by reflexivity).
  rewrite callLoadWeek_run. cbn [snd].
  eapply seasonInv_same; [apply afterLoadBegin_season|].
  match goal with |- context [numberOr ?c (of_Z 1)] =>
    assert (Hc : wholeNumber c)
  end.
  { apply orNumber_whole; [|exact Hsb]. destruct (first (leagues base)); [exact Hlg|exact I]. }
  apply numberOr_whole in Hc as (k & Hk & ->).
  rewrite clamp_of_Z by lia.
  unfold seasonInv. cbn. split; [exact H2|]. right. split; [|reflexivity].
  eexists. split; [reflexivity|]. lia.
Qed.

Lemma In_optionsUpTo (v k : Z) : In v (optionsUpTo k) <-> 1 <= v <= k.
Proof.
  unfold optionsUpTo. rewrite in_map_iff. split.
  - intros (i & <- & Hi). apply in_seq in Hi. lia.
  - intros H. exists (Z.to_nat v). split; [lia|]. apply in_seq. lia.
Qed.

Lemma existsb_eqb_In (v : Z) (l : list Z) : existsb (Z.eqb v) l = true <-> In v l.
Proof.
  rewrite existsb_exists. split.
  - intros (x & Hx & E). apply Z.eqb_eq in E. subst. exact Hx.
  - intros H. exists v. split; [exact H|apply Z.eqb_refl].
Qed.

(** The value of an option, read back by the [change] listener. *)
Lemma optionValue_decimal (v : Z) : 0 <= v < 2 ^ 53 -> optionValue v = decimal v.
Proof. apply numberToString_of_Z. Qed.

Lemma parseInt10_optionValue (v : Z) :
  1 <= v < 2 ^ 53 -> parseInt10 (optionValue v) = of_Z v.
Proof.
  intros Hv. rewrite optionValue_decimal by lia.
  rewrite <- (append_empty_r (decimal v)).
  rewrite parseInt10_decimal by (reflexivity || lia).
  destruct (Z.eqb_spec v 0); [lia|reflexivity].
Qed.

Lemma step_season (w : World) (a : Action) :
  wholeWeeksIn a -> seasonInv w -> seasonInv (step Date_parse thisYear w a).
Proof.
  intros Hwhole Hinv. unfold step, exec, job. erewrite bind_run by reflexivity.
  destruct a as [v| | | |t|k r].
  - (* the selector *)
    destruct (wired (page w)) eqn:Hw; [|exact Hinv]. cbn [andb].
    destruct (existsb (Z.eqb v) (weekOptions (page w))) eqn:Hv; [|exact Hinv].
    erewrite bind_run by reflexivity. unfold onChange.
    erewrite bind_run by reflexivity.
    eapply seasonInv_same; [apply callLoadWeek_season|].
    destruct Hinv as (Hmax & [[_ Hnw]|[_ Hopt]]); [congruence|].
    apply existsb_eqb_In in Hv. rewrite Hopt in Hv. apply In_optionsUpTo in Hv.
    unfold seasonInv. cbn. split; [exact Hmax|]. right. split; [|exact Hopt].
    exists v. split; [|exact Hv]. rewrite parseInt10_optionValue by lia. reflexivity.
  - (* previous week *)
    destruct (wired (page w)) eqn:Hw; [|exact Hinv]. unfold onPrev.
    erewrite bind_run by reflexivity.
    destruct Hinv as (Hmax & [[_ Hnw]|[(n & Hn & Hr) Hopt]]); [congruence|].
    unfold weekNum. rewrite Hn. rewrite gt_of_Z by lia.
    destruct (1 <? n) eqn:Hlt;
      [|unfold seasonInv; split; [exact Hmax|]; right; split; [|exact Hopt]; eauto].
    repeat (erewrite bind_run by reflexivity).
    eapply seasonInv_same; [apply callLoadWeek_season|].
    apply Z.ltb_lt in Hlt. rewrite sub_of_Z by lia.
    unfold seasonInv. cbn. split; [exact Hmax|]. right. split; [|exact Hopt].
    exists (n - 1). split; [reflexivity|lia].
  - (* next week *)
    destruct (wired (page w)) eqn:Hw; [|exact Hinv]. unfold onNext.
    erewrite bind_run by reflexivity.
    destruct Hinv as (Hmax & [[_ Hnw]|[(n & Hn & Hr) Hopt]]); [congruence|].
    unfold weekNum. rewrite Hn. rewrite lt_of_Z by lia.
    destruct (n <? maxWeeks (state w)) eqn:Hlt;
      [|unfold seasonInv; split; [exact Hmax|]; right; split; [|exact Hopt]; eauto].
    repeat (erewrite bind_run by reflexivity).
    eapply seasonInv_same; [apply callLoadWeek_season|].
    apply Z.ltb_lt in Hlt. rewrite add_of_Z by lia.
    unfold seasonInv. cbn. split; [exact Hmax|]. right. split; [|exact Hopt].
    exists (n + 1). split; [reflexivity|lia].
  - (* refresh *)
    destruct (wired (page w)); [|exact Hinv].
    eapply seasonInv_same; [apply callLoadWeek_season|exact Hinv].
  - (* an interval fires *)
    destruct (bool_decide _); exact Hinv.
  - (* a request settles *)
    destruct (nth_error (pending (browser w)) k) as [f|]; [|exact Hinv].
    erewrite bind_run by reflexivity.
    set (w1 := onBrowser _ w).
    assert (H1 : seasonInv w1) by exact Hinv. clearbody w1.
    destruct f as [|[|]|]; cbn [resume].
    + apply init_resume_season; [exact Hwhole|exact H1].
    + eapply seasonInv_same; [apply loadWeek_resume_caught_season|exact H1].
    + eapply seasonInv_same; [apply loadWeek_resume_season|exact H1].
    + eapply seasonInv_same; [apply refreshLive_resume_season|exact H1].
Qed.

Lemma run_season (trace : list Action) (w : World) :
  Forall wholeWeeksIn trace -> seasonInv w -> seasonInv (run Date_parse thisYear w trace).
Proof.
  intros Hall. revert w. induction Hall as [|a trace Ha Hall IH]; intros w Hinv; [exact Hinv|].
  cbn [run fold_left]. apply IH, step_season; assumption.
Qed.
End SeasonProofs.

(** C9, as stated, fails when the feed reports a week that is not a
    whole number: start-up keeps 1.5, which [clamp] leaves alone, and Prev
    then makes it 0.5, below 1; no option of the selector is selected. *)
Lemma C9_a_fractional_week_goes_below_one :
  let w := run exampleDates 2025 boot
               (Settle 0 (Json halfWeekBoard) :: ClickPrev :: nil) in
  clamp (StringToNumber "1.5") (of_Z 1) (of_Z 18) = StringToNumber "1.5"
  /\ week (state w) = Some (StringToNumber "0.5")
  /\ lt (weekNum w) (of_Z 1) = true
  /\ maxWeeks (state w) = 18
  /\ weekValue (page w) = None.
Proof. vm_compute. repeat split. Qed.

(** C9, amended: when the week numbers of the feed are whole numbers (of
    magnitude below 2^53), in every world the page can reach, by any
    sequence of user gestures, timer ticks and settling requests, the week
    is either still unset (start-up has not succeeded, and no control is
    wired) or a whole number within [1, maxWeeks], the selector offering
    exactly 1..maxWeeks; [clamp] puts any whole number into the range it
    is given. *)
Theorem C9_week_stays_in_range
  (Date_parse : string -> option Z) (thisYear : Z) (trace : list Action) :
  Forall wholeWeeksIn trace ->
  let w := run Date_parse thisYear boot trace in
  1 <= maxWeeks (state w) < 2 ^ 32
  /\ ((week (state w) = None /\ wired (page w) = false)
      \/ (exists n, week (state w) = Some (of_Z n) /\ 1 <= n <= maxWeeks (state w))
         /\ weekOptions (page w) = optionsUpTo (maxWeeks (state w)))
  /\ (week (state w) <> None ->
      lt (weekNum w) (of_Z 1) = false
      /\ gt (weekNum w) (of_Z (maxWeeks (state w))) = false)
  /\ (forall v, In v (optionsUpTo (maxWeeks (state w))) <-> 1 <= v <= maxWeeks (state w))
  /\ (forall n, - 2 ^ 53 < n < 2 ^ 53 ->
        exists k, clamp (of_Z n) (of_Z 1) (of_Z (maxWeeks (state w))) = of_Z k
                  /\ 1 <= k <= maxWeeks (state w)).
Proof.
  intros Hall w.
  assert (Hinv : seasonInv w).
  { apply run_season; [exact Hall|]. unfold seasonInv. cbn. split; [lia|]. left.
    split; reflexivity. }
  destruct Hinv as [Hmax Hinv]. split; [exact Hmax|]. split; [exact Hinv|]. split; [|split].
  - intros Hset. destruct Hinv as [[Hnone _]|[(n & Hn & Hr) _]]; [congruence|].
    unfold weekNum. rewrite Hn, lt_of_Z, gt_of_Z by lia. split; apply Z.ltb_ge; lia.
  - intros v. apply In_optionsUpTo.
  - intros n Hn. rewrite clamp_of_Z by lia. eexists. split; [reflexivity|]. lia.
Qed.

Lemma C9_witness :
  Forall wholeWeeksIn (Settle 0 (Json startBoard) :: ClickNext :: nil)
  /\ (let w := run exampleDates 2025 boot (Settle 0 (Json startBoard) :: ClickNext :: nil) in
      week (state w) = Some (of_Z 2)
      /\ lt (weekNum w) (of_Z 1) = false
      /\ gt (weekNum w) (of_Z (maxWeeks (state w))) = false).
Proof.
  assert (H : Forall wholeWeeksIn (Settle 0 (Json startBoard) :: ClickNext :: nil)).
  { repeat constructor. exists 1. split; [lia|reflexivity]. }
  split; [exact H|]. cbv zeta.
  assert (Hw : week (state (run exampleDates 2025 boot
                                (Settle 0 (Json startBoard) :: ClickNext :: nil)))
               = Some (of_Z 2)) by (vm_compute; reflexivity).
  split; [exact Hw|].
  apply (proj1 (proj2 (proj2 (C9_week_stays_in_range exampleDates 2025 _ H)))).
  rewrite Hw. discriminate.
Defined.

(** *** Sorting *)

(** The rank of an event is the priority of its state, unless the state
    names a property that [STATUS_ORDER] inherits. *)
Lemma statusRank_cases (e : Event) :
  (ownState e = true /\ statusRank e = RankNumber (priority e))
  \/ (ownState e = false /\ statusRank e = RankObject (getState e)).
Proof.
  unfold ownState, statusRank, priority, rankOfState, getProperty, STATUS_ORDER.
  destruct (String.eqb (getState e) "post") eqn:E1.
  { apply eqb_string_eq in E1. rewrite E1. left. split; reflexivity. }
  destruct (String.eqb (getState e) "in") eqn:E2.
  { apply eqb_string_eq in E2. rewrite E2. left. split; reflexivity. }
  destruct (String.eqb (getState e) "pre") eqn:E3.
  { apply eqb_string_eq in E3. rewrite E3. left. split; reflexivity. }
  apply String.eqb_neq in E1, E2, E3.
  rewrite !lookup_insert_ne by congruence.
  rewrite lookup_singleton_ne by congruence.
  destruct (inheritedName (getState e)); [right|left]; split; reflexivity.
Qed.

Lemma statusRank_priority (e : Event) :
  ownState e = true -> statusRank e = RankNumber (priority e).
Proof. intros H. destruct (statusRank_cases e) as [[_ E]|[E _]]; congruence. Qed.

Lemma priority_range (e : Event) : 0 <= priority e <= 3.
Proof.
  unfold priority, rankOfState.
  repeat match goal with |- context [if ?b then _ else _] => destruct b end; lia.
Qed.

Section SortProofs.
Variable Date_parse : string -> option Z.

Local Abbreviation regular :=
  (fun e : Event => timeOf Date_parse e <> None /\ ownState e = true).
Local Abbreviation le := (eventLe Date_parse).
Local Abbreviation cmp := (SortCompare (compareEvents Date_parse)).

Lemma cmp_le (a b : Event) :
  regular a -> regular b -> ((cmp a b <=? 0) = true <-> le a b).
Proof.
  intros [Ha Oa] [Hb Ob]. unfold SortCompare, compareEvents, eventLe.
  rewrite (statusRank_priority a Oa), (statusRank_priority b Ob). cbn [sameRank].
  destruct (timeOf Date_parse a) as [ta|] eqn:Ea; [|congruence].
  destruct (timeOf Date_parse b) as [tb|] eqn:Eb; [|congruence].
  rewrite Z.leb_le.
  destruct (priority a =? priority b) eqn:E; cbn [negb].
  - apply Z.eqb_eq in E. split.
    + intros H. right. split; [exact E|]. exists ta, tb. repeat split. lia.
    + intros [H|(_ & ta' & tb' & H1 & H2 & H3)]; [lia|].
      injection H1 as <-. injection H2 as <-. lia.
  - apply Z.eqb_neq in E. split.
    + intros H. left. lia.
    + intros [H|(H & _)]; lia.
Qed.

Lemma le_total (a b : Event) : regular a -> regular b -> le a b \/ le b a.
Proof.
  intros [Ha _] [Hb _]. unfold eventLe.
  destruct (timeOf Date_parse a) as [ta|] eqn:Ea; [|congruence].
  destruct (timeOf Date_parse b) as [tb|] eqn:Eb; [|congruence].
  destruct (Z.lt_trichotomy (priority a) (priority b)) as [H|[H|H]]; auto.
  destruct (Z.le_ge_cases ta tb).
  - left. right. split; [exact H|]. exists ta, tb. auto.
  - right. right. split; [symmetry; exact H|]. exists tb, ta. auto.
Qed.

Lemma le_trans (a b c : Event) : le a b -> le b c -> le a c.
Proof.
  unfold eventLe.
  intros [H1|(H1 & ta & tb & Ha & Hb & Hab)] [H2|(H2 & tb' & tc & Hb' & Hc & Hbc)];
    try (left; lia).
  right. split; [lia|]. exists ta, tc. repeat split; try assumption.
  rewrite Hb in Hb'. injection Hb' as <-. lia.
Qed.

(** Two events the comparator puts in strict order differ in their key. *)
Lemma cmp_gt_keys (a b : Event) (r t : Z) :
  regular a -> regular b ->
  (cmp a b <=? 0) = false -> hasKey Date_parse r t a = true -> hasKey Date_parse r t b = false.
Proof.
  intros [_ Oa] [_ Ob]. unfold SortCompare, compareEvents, hasKey.
  rewrite (statusRank_priority a Oa), (statusRank_priority b Ob). cbn [sameRank].
  intros H Ha.
  apply andb_true_iff in Ha as [Hr Ht]. apply Z.eqb_eq in Hr.
  destruct (timeOf Date_parse a) as [ta|]; [|discriminate]. apply Z.eqb_eq in Ht.
  apply Z.leb_gt in H.
  destruct (priority b =? r) eqn:Er; [|reflexivity]. apply Z.eqb_eq in Er.
  cbn [andb]. assert (E : (priority a =? priority b) = true) by (apply Z.eqb_eq; lia).
  rewrite E in H. cbn [negb] in H.
  destruct (timeOf Date_parse b) as [tb|]; [|reflexivity].
  apply Z.eqb_neq. lia.
Qed.

Lemma insertSorted_perm (x : Event) (l : list Event) :
  Permutation (x :: l) (insertSorted (compareEvents Date_parse) x l).
Proof.
  induction l as [|y l IH]; cbn [insertSorted]; [reflexivity|].
  destruct (cmp x y <=? 0); [reflexivity|].
  rewrite perm_swap. constructor. exact IH.
Qed.

Lemma insertSorted_sorted (x : Event) (l : list Event) :
  regular x -> Forall regular l -> StronglySorted le l ->
  StronglySorted le (insertSorted (compareEvents Date_parse) x l).
Proof.
  intros Hx Hl Hs. induction Hs as [|y l Hs IH Hy]; cbn [insertSorted].
  - repeat constructor.
  - apply Forall_cons_iff in Hl as [Hdy Hl].
    destruct (cmp x y <=? 0) eqn:E.
    + apply cmp_le in E; [|assumption..].
      constructor; [constructor; assumption|].
      constructor; [exact E|]. eapply List.Forall_impl; [|exact Hy].
      intros z Hz. eapply le_trans; eassumption.
    + constructor; [apply IH, Hl|].
      assert (Hyx : le y x).
      { destruct (le_total x y Hx Hdy) as [H|H]; [|exact H].
        apply cmp_le in H; [congruence|assumption..]. }
      eapply Permutation_Forall; [apply insertSorted_perm|].
      constructor; assumption.
Qed.

Lemma insertSorted_stable (x : Event) (l : list Event) (r t : Z) :
  regular x -> Forall regular l ->
  List.filter (hasKey Date_parse r t) (insertSorted (compareEvents Date_parse) x l)
  = List.filter (hasKey Date_parse r t) (x :: l).
Proof.
  intros Hx Hl. induction Hl as [|y l Hy Hl IH]; cbn [insertSorted]; [reflexivity|].
  destruct (cmp x y <=? 0) eqn:E; [reflexivity|].
  cbn [List.filter] in *. rewrite IH.
  destruct (hasKey Date_parse r t x) eqn:Hkx; [|reflexivity].
  rewrite (cmp_gt_keys x y r t Hx Hy E Hkx). reflexivity.
Qed.

Lemma sortEvents_perm (evts : list Event) : Permutation evts (sortEvents Date_parse evts).
Proof.
  induction evts as [|x l IH]; [constructor|].
  unfold sortEvents, Array_sort in *. cbn [fold_right].
  etransitivity; [|apply insertSorted_perm]. constructor. exact IH.
Qed.

Lemma sortEvents_sorted (evts : list Event) :
  Forall regular evts -> StronglySorted le (sortEvents Date_parse evts).
Proof.
  induction evts as [|x l IH]; intros H; [constructor|].
  apply Forall_cons_iff in H as [Hx Hl].
  unfold sortEvents, Array_sort in *. cbn [fold_right].
  apply insertSorted_sorted; [exact Hx| |apply IH, Hl].
  eapply Permutation_Forall; [apply sortEvents_perm|exact Hl].
Qed.

Lemma sortEvents_stable (evts : list Event) (r t : Z) :
  Forall regular evts ->
  List.filter (hasKey Date_parse r t) (sortEvents Date_parse evts)
  = List.filter (hasKey Date_parse r t) evts.
Proof.
  induction evts as [|x l IH]; intros H; [reflexivity|].
  apply Forall_cons_iff in H as [Hx Hl].
  unfold sortEvents, Array_sort in *. cbn [fold_right].
  rewrite insertSorted_stable;
    [|exact Hx|eapply Permutation_Forall; [apply sortEvents_perm|exact Hl]].
  cbn [List.filter]. rewrite IH by exact Hl. reflexivity.
Qed.
End SortProofs.

(** C4 (fails for an event without a date that parses, and for one whose
    state names a property that [STATUS_ORDER] inherits): every comparison
    with the first on equal rank, and every comparison with the second,
    yields NaN, which the sort reads as "equal".  So the Monday game stays
    ahead of the Thursday game of the same status, and a game whose state
    is "constructor", of priority 3, stays ahead of a live game. *)
Theorem C4_undated_and_prototype_named_events_stay_in_place :
  sortEvents exampleDates (mondayGame :: undatedGame :: thursdayGame :: nil)
  = mondayGame :: undatedGame :: thursdayGame :: nil
  /\ priority mondayGame = priority thursdayGame
  /\ timeOf exampleDates mondayGame = Some 1757290800000
  /\ timeOf exampleDates undatedGame = None
  /\ timeOf exampleDates thursdayGame = Some 1757031600000
  /\ orderedByRankThenKickoff exampleDates
       (sortEvents exampleDates (mondayGame :: undatedGame :: thursdayGame :: nil)) = false
  /\ sortEvents exampleDates (prototypeNamedGame :: sundayLiveGame :: nil)
     = prototypeNamedGame :: sundayLiveGame :: nil
  /\ getState prototypeNamedGame = "constructor"
  /\ statusRank prototypeNamedGame = RankObject "constructor"
  /\ compareEvents exampleDates prototypeNamedGame sundayLiveGame = None
  /\ priority prototypeNamedGame = 3
  /\ priority sundayLiveGame = 1
  /\ orderedByRankThenKickoff exampleDates
       (sortEvents exampleDates (prototypeNamedGame :: sundayLiveGame :: nil)) = false.
Proof. repeat split; vm_compute; reflexivity. Qed.

(** *** The poll scheduler *)

Lemma size_zero_empty (X : gset (option string)) : (size X =? 0)%nat = bool_decide (X = ∅).
Proof.
  destruct (size X =? 0)%nat eqn:E.
  - apply Nat.eqb_eq, size_empty_iff in E. apply leibniz_equiv in E.
    symmetry. apply bool_decide_eq_true. exact E.
  - apply Nat.eqb_neq in E. symmetry. apply bool_decide_eq_false. intros ->.
    apply E, size_empty.
Qed.

Lemma clearTimer_one (w : World) :
  oneTimerAtMost w -> timers (browser (clearTimer (refreshTimer (state w)) w)) = ∅.
Proof.
  intros [H|(t & Ht & H)].
  - destruct (refreshTimer (state w)); cbn; rewrite ?H; set_solver.
  - rewrite Ht. cbn. rewrite H. set_solver.
Qed.

Lemma oneTimerAtMost_size (w : World) :
  oneTimerAtMost w -> (size (timers (browser w)) <= 1)%nat.
Proof.
  intros [H|(t & _ & H)]; rewrite H.
  - rewrite size_empty. lia.
  - rewrite size_singleton. lia.
Qed.

Lemma tryCatch_returned {A : Type} (c : M A) (h : string -> M A) (w : World) (a : A) :
  fst (c w) = Returned a -> tryCatch c h w = c w.
Proof. unfold tryCatch. destruct (c w) as [[x|err] w']; cbn; [reflexivity|discriminate]. Qed.

Lemma loads_app (l : list Flow) (f : Flow) :
  length (List.filter isLoad (l ++ f :: nil))
  = (length (List.filter isLoad l) + if isLoad f then 1 else 0)%nat.
Proof.
  rewrite List.filter_app, length_app. cbn [List.filter]. destruct (isLoad f); reflexivity.
Qed.

Lemma loads_removeNth (l : list Flow) (k : nat) (f : Flow) :
  nth_error l k = Some f ->
  length (List.filter isLoad l)
  = (length (List.filter isLoad (removeNth k l)) + if isLoad f then 1 else 0)%nat.
Proof.
  revert k. induction l as [|x l IH]; intros [|k] H; try discriminate.
  - injection H as ->. unfold removeNth. cbn -[isLoad]. change (skipn 0 l) with l.
    destruct (isLoad f); cbn [length]; lia.
  - specialize (IH k H). unfold removeNth in *. cbn -[isLoad] in *.
    destruct (isLoad x); cbn [length]; lia.
Qed.

Section SchedulerProofs.
Variable Date_parse : string -> option Z.
Variable thisYear : Z.

Local Abbreviation step' := (step Date_parse thisYear).
Local Abbreviation run' := (run Date_parse thisYear).
Local Abbreviation worlds' := (worlds Date_parse thisYear).

(** **** What each flow does to the timers and to the requests in flight *)

Lemma callLoadWeek_effect (b : bool) (w : World) :
  timers (browser (exec (callLoadWeek b) w))
  = timers (browser (clearTimer (refreshTimer (state w)) w))
  /\ refreshTimer (state (exec (callLoadWeek b) w)) = refreshTimer (state w)
  /\ pending (browser (exec (callLoadWeek b) w))
     = (pending (browser w) ++ LoadFlow b :: nil)%list
  /\ liveEventIds (state (exec (callLoadWeek b) w)) = ∅.
Proof.
  unfold exec. rewrite callLoadWeek_run. unfold afterLoadBegin.
  destruct (refreshTimer (state w)) eqn:E; repeat split; exact E.
Qed.

(** Whatever the response and whether or not the render throws, a load
    cycle that resumes starts at most one timer, whose handle it stores. *)
Lemma loadWeek_resume_effect (r : Response) (w : World) :
  let w' := exec (loadWeek_resume Date_parse r) w in
  pending (browser w') = pending (browser w)
  /\ ((timers (browser w') = timers (browser w)
       /\ refreshTimer (state w') = refreshTimer (state w))
      \/ (timers (browser w') = {[ nextTimer (browser w) ]} ∪ timers (browser w)
          /\ refreshTimer (state w') = Some (nextTimer (browser w)))).
Proof.
  unfold exec. remember (loadWeek_resume Date_parse r w) as res eqn:E.
  destruct res as [o w']. symmetry in E. cbn [snd].
  unfold loadWeek_resume in E. destruct r as [err|data].
  { injection E as <- <-. split; [|left]; repeat split. }
  erewrite bind_run in E by reflexivity. erewrite bind_run in E by reflexivity.
  destruct (eventsOf Date_parse data) as [|e l].
  { injection E as <- <-. split; [|left]; repeat split. }
  erewrite bind_run in E by reflexivity. unfold bind at 1 in E.
  match type of E with context [renderEvents ?evs ?w1] =>
    pose proof (cleared_fields _ _ (renderEvents_frame evs w1)) as H;
    destruct (renderEvents evs w1) as [[[]|err] w2]
  end; cbn [snd] in H;
    destruct H as (Hb & _ & _ & _ & _ & _ & _ & _ & _ & _ & Hr);
    cbn in Hb, Hr.
  - erewrite bind_run in E by reflexivity.
    match type of E with context [if ?b then _ else _] => destruct b end;
      injection E as <- <-; cbn; rewrite ?Hb, ?Hr.
    + split; [reflexivity|]. right. split; reflexivity.
    + split; [reflexivity|]. left. split; reflexivity.
  - injection E as <- <-. rewrite Hb, Hr. split; [reflexivity|]. left. split; reflexivity.
Qed.

Lemma resume_load_effect (b : bool) (r : Response) (w : World) :
  let w' := exec (resume Date_parse thisYear (LoadFlow b) r) w in
  pending (browser w') = pending (browser w)
  /\ ((timers (browser w') = timers (browser w)
       /\ refreshTimer (state w') = refreshTimer (state w))
      \/ (timers (browser w') = {[ nextTimer (browser w) ]} ∪ timers (browser w)
          /\ refreshTimer (state w') = Some (nextTimer (browser w)))).
Proof.
  cbv zeta. destruct b; cbn [resume]; [|apply loadWeek_resume_effect].
  pose proof (loadWeek_resume_effect r w) as H. cbv zeta in H. unfold exec, tryCatch in *.
  destruct (loadWeek_resume Date_parse r w) as [[[]|err] w1]; cbn [snd] in *; exact H.
Qed.

(** Whatever the response and whether or not the render throws, a poll
    tick that resumes starts no timer; it may cancel the one whose handle
    the state holds. *)
Lemma refreshLive_resume_effect (r : Response) (w : World) :
  let w' := exec (refreshLive_resume Date_parse r) w in
  pending (browser w') = pending (browser w)
  /\ refreshTimer (state w') = refreshTimer (state w)
  /\ (timers (browser w') = timers (browser w)
      \/ timers (browser w') = timers (browser (clearTimer (refreshTimer (state w)) w))).
Proof.
  unfold exec. remember (refreshLive_resume Date_parse r w) as res eqn:E.
  destruct res as [o w']. symmetry in E. cbn [snd].
  unfold refreshLive_resume, tryCatch in E. destruct r as [err|data].
  { injection E as <- <-. repeat split. left. reflexivity. }
  erewrite bind_run in E by reflexivity. unfold bind at 1 in E.
  match type of E with context [renderEvents ?evs ?w1] =>
    pose proof (cleared_fields _ _ (renderEvents_frame evs w1)) as H;
    destruct (renderEvents evs w1) as [[[]|err] w2]
  end; cbn [snd] in H;
    destruct H as (Hb & _ & _ & _ & _ & _ & _ & _ & _ & _ & Hr).
  - erewrite bind_run in E by reflexivity.
    match type of E with context [if ?b then _ else _] => destruct b end.
    + rewrite clearInterval_run in E. injection E as <- <-. rewrite Hr.
      destruct (refreshTimer (state w)) eqn:Et; cbn; rewrite Hb;
        repeat split; try assumption; right; reflexivity.
    + injection E as <- <-. cbn. rewrite Hb, Hr. repeat split. left. reflexivity.
  - injection E as <- <-. cbn. rewrite Hb, Hr. repeat split. left. reflexivity.
Qed.

(** Start-up that gets its response ends in a call of [loadWeek], with
    the timers and the requests in flight as they were. *)
Lemma init_resume_run (base : Scoreboard) (w : World) :
  exists w0, init_resume thisYear (Json base) w = callLoadWeek true w0
             /\ browser w0 = browser w
             /\ refreshTimer (state w0) = refreshTimer (state w).
Proof.
  unfold init_resume, tryCatch.
  erewrite bind_run by reflexivity. erewrite bind_run by reflexivity.
  set (w1 := onState _ w).
  assert (H1 : browser w1 = browser w /\ refreshTimer (state w1) = refreshTimer (state w))
    by (split; reflexivity).
  clearbody w1.
  match goal with
  | |- context [bind ?c _ w1] =>
      assert (Hm : exists w2, c w1 = (Returned tt, w2) /\ browser w2 = browser w1
                              /\ refreshTimer (state w2) = refreshTimer (state w1))
  end.
  { destruct (List.find isRegular _) as [[lab [[|x entries]|]]|];
      eexists; (split; [reflexivity|split; reflexivity]). }
  destruct Hm as (w2 & Hrun & H2 & H3). erewrite bind_run by exact Hrun.
  repeat (erewrite bind_run by reflexivity).
  rewrite callLoadWeek_run. cbv beta iota.
  eexists. split; [symmetry; apply callLoadWeek_run|].
  cbn [browser state onPage onState withWeek refreshTimer].
  destruct H1 as [H1 H1']. split; congruence.
Qed.

Lemma init_resume_effect (r : Response) (w : World) :
  let w' := exec (init_resume thisYear r) w in
  refreshTimer (state w') = refreshTimer (state w)
  /\ ((timers (browser w') = timers (browser w)
       /\ pending (browser w') = pending (browser w))
      \/ (timers (browser w') = timers (browser (clearTimer (refreshTimer (state w)) w))
          /\ pending (browser w') = (pending (browser w) ++ LoadFlow true :: nil)%list)).
Proof.
  cbv zeta. destruct r as [err|base]; [split; [|left]; repeat split|].
  destruct (init_resume_run base w) as (w0 & E & Hb & Hr). unfold exec. rewrite E.
  destruct (callLoadWeek_effect true w0) as (Ht & Hr' & Hp & _). unfold exec in *.
  rewrite Hr', Ht, Hp, Hr, Hb. split; [reflexivity|]. right. split; [|reflexivity].
  destruct (refreshTimer (state w)); cbn; rewrite ?Hb; reflexivity.
Qed.

(** A gesture does nothing, or it calls [loadWeek] after a change of the
    week. *)
Lemma gesture_effect (w : World) (a : Action) :
  match a with
  | Tick _ | Settle _ _ => False
  | _ => True
  end ->
  step' w a = w
  \/ exists w0, step' w a = exec (callLoadWeek false) w0
                /\ browser w0 = browser w
                /\ refreshTimer (state w0) = refreshTimer (state w).
Proof.
  intros Ha. unfold step, exec, job. erewrite bind_run by reflexivity.
  destruct a as [v| | | |t|k r]; try contradiction.
  - destruct (wired (page w) && existsb (Z.eqb v) (weekOptions (page w)));
      [right|left; reflexivity].
    erewrite bind_run by reflexivity. unfold onChange.
    erewrite bind_run by reflexivity. eexists. repeat split.
  - destruct (wired (page w)); [|left; reflexivity]. unfold onPrev.
    erewrite bind_run by reflexivity.
    destruct (gt (weekNum w) (of_Z 1)); [right|left; reflexivity].
    repeat (erewrite bind_run by reflexivity). eexists. repeat split.
  - destruct (wired (page w)); [|left; reflexivity]. unfold onNext.
    erewrite bind_run by reflexivity.
    destruct (lt (weekNum w) (of_Z (maxWeeks (state w)))); [right|left; reflexivity].
    repeat (erewrite bind_run by reflexivity). eexists. repeat split.
  - destruct (wired (page w)); [right|left; reflexivity]. eexists. repeat split.
Qed.

Lemma tick_effect (w : World) (t : nat) :
  step' w (Tick t)
  = if bool_decide (t ∈ timers (browser w))
    then onBrowser (fun b => withPending (pending b ++ RefreshFlow :: nil)%list b) w
    else w.
Proof.
  unfold step, exec, job. erewrite bind_run by reflexivity.
  destruct (bool_decide _); reflexivity.
Qed.

Lemma settle_effect (w : World) (k : nat) (r : Response) :
  step' w (Settle k r)
  = match nth_error (pending (browser w)) k with
    | Some f => exec (resume Date_parse thisYear f r)
                     (onBrowser (fun b => withPending (removeNth k (pending b)) b) w)
    | None => w
    end.
Proof.
  unfold step, exec, job. erewrite bind_run by reflexivity.
  destruct (nth_error _ k); [|reflexivity]. erewrite bind_run by reflexivity. reflexivity.
Qed.

(** **** At most one timer *)

Lemma schedulerInv_timers (w w' : World) :
  schedulerInv w ->
  timers (browser w') = timers (browser w) ->
  refreshTimer (state w') = refreshTimer (state w) ->
  (loadsInFlight w' <= loadsInFlight w)%nat ->
  schedulerInv w'.
Proof.
  unfold schedulerInv, oneTimerAtMost. intros [Hone Hl] Ht Hr Hp.
  rewrite Ht, Hr. split; [exact Hone|]. intros H. apply Hl. lia.
Qed.

Lemma schedulerInv_cleared (w w' : World) :
  schedulerInv w ->
  timers (browser w') = timers (browser (clearTimer (refreshTimer (state w)) w)) ->
  schedulerInv w'.
Proof.
  unfold schedulerInv. intros [Hone _] Ht.
  rewrite (clearTimer_one w Hone) in Ht. unfold oneTimerAtMost. rewrite Ht. auto.
Qed.

Lemma step_schedulerInv (w : World) (a : Action) :
  schedulerInv w -> (loadsInFlight w <= 1)%nat -> schedulerInv (step' w a).
Proof.
  intros Hinv Hload.
  destruct a as [v| | | |t|k r];
    try (match goal with |- schedulerInv (step _ _ w ?a) =>
           destruct (gesture_effect w a I) as [->|(w0 & -> & Hb & Hr)]
         end; [exact Hinv|];
         destruct (callLoadWeek_effect false w0) as (Ht & _);
         apply (schedulerInv_cleared w); [exact Hinv|];
         rewrite Ht, Hr; destruct (refreshTimer (state w)); cbn; rewrite ?Hb; reflexivity).
  - rewrite tick_effect. destruct (bool_decide _); [|exact Hinv].
    apply (schedulerInv_timers w); try reflexivity; [exact Hinv|].
    unfold loadsInFlight. cbn. rewrite loads_app. cbn. lia.
  - rewrite settle_effect. destruct (nth_error (pending (browser w)) k) as [f|] eqn:Hk;
      [|exact Hinv].
    pose proof (loads_removeNth _ _ _ Hk) as Hcount.
    set (w1 := onBrowser _ w).
    assert (Hw1 : timers (browser w1) = timers (browser w)
                  /\ refreshTimer (state w1) = refreshTimer (state w)
                  /\ nextTimer (browser w1) = nextTimer (browser w)
                  /\ pending (browser w1) = removeNth k (pending (browser w)))
      by (repeat split).
    clearbody w1. destruct Hw1 as (Ht1 & Hr1 & Hn1 & Hp1).
    assert (Hinv1 : schedulerInv w1).
    { apply (schedulerInv_timers w); try assumption.
      unfold loadsInFlight. rewrite Hp1. lia. }
    destruct f as [|b|].
    + cbn [resume]. destruct (init_resume_effect r w1) as (Hr & [[Ht Hp]|[Ht Hp]]).
      * apply (schedulerInv_timers w1); try assumption. unfold loadsInFlight. rewrite Hp. lia.
      * apply (schedulerInv_cleared w1); assumption.
    + destruct (resume_load_effect b r w1) as (Hp & H).
      assert (Hempty : timers (browser w1) = ∅).
      { rewrite Ht1. apply Hinv. unfold loadsInFlight. cbn [isLoad] in Hcount. lia. }
      assert (Hnone : loadsInFlight (exec (resume Date_parse thisYear (LoadFlow b) r) w1)
                      = 0%nat).
      { unfold loadsInFlight in *. rewrite Hp, Hp1. cbn [isLoad] in Hcount. lia. }
      destruct H as [[Ht Hr]|[Ht Hr]].
      * apply (schedulerInv_timers w1); try assumption. rewrite Hnone. lia.
      * split; [|rewrite Hnone; lia]. right. eexists. split; [exact Hr|].
        rewrite Ht, Hempty. set_solver.
    + cbn [resume]. destruct (refreshLive_resume_effect r w1) as (Hp & Hr & [Ht|Ht]).
      * apply (schedulerInv_timers w1); try assumption. unfold loadsInFlight. rewrite Hp. lia.
      * apply (schedulerInv_cleared w1); assumption.
Qed.

Lemma worlds_schedulerInv (trace : list Action) (w : World) :
  schedulerInv w ->
  Forall (fun x => (loadsInFlight x <= 1)%nat) (worlds' w trace) ->
  Forall schedulerInv (worlds' w trace).
Proof.
  revert w. induction trace as [|a trace IH]; intros w Hinv Hall; cbn [worlds] in *.
  - constructor; [exact Hinv|constructor].
  - apply Forall_cons_iff in Hall as [Hw Hall]. constructor; [exact Hinv|].
    apply IH; [|exact Hall]. apply step_schedulerInv; assumption.
Qed.

Lemma schedulerInv_boot : schedulerInv boot.
Proof. split; [left; reflexivity|intros _; reflexivity]. Qed.

(** **** Sequential runs *)

Lemma rendersWell_events (d : Scoreboard) :
  rendersWell (Json d) -> Forall (fun e => renderable e = true) (eventsOf Date_parse d).
Proof.
  unfold rendersWell, eventsOf. destruct (sb_events d) as [l|]; [|constructor].
  intros H. eapply Permutation_Forall; [apply sortEvents_perm|exact H].
Qed.

(** The load cycle after its request, when the events can be rendered:
    without events nothing is rendered and no timer starts; with events
    the Live Set is that of the render and a timer starts exactly when it
    is not empty. *)
Lemma loadWeek_resume_timers (d : Scoreboard) (w : World) :
  rendersWell (Json d) ->
  let w' := exec (loadWeek_resume Date_parse (Json d)) w in
  fst (loadWeek_resume Date_parse (Json d) w) = Returned tt
  /\ pending (browser w') = pending (browser w)
  /\ match eventsOf Date_parse d with
     | nil => timers (browser w') = timers (browser w)
              /\ liveEventIds (state w') = liveEventIds (state w)
              /\ refreshTimer (state w') = refreshTimer (state w)
     | evs =>
         liveEventIds (state w') = liveIdsOf evs
         /\ if bool_decide (liveIdsOf evs = ∅)
            then timers (browser w') = timers (browser w)
                 /\ refreshTimer (state w') = refreshTimer (state w)
            else timers (browser w') = {[ nextTimer (browser w) ]} ∪ timers (browser w)
                 /\ refreshTimer (state w') = Some (nextTimer (browser w))
     end.
Proof.
  intros Hwell. apply rendersWell_events in Hwell.
  unfold exec, loadWeek_resume.
  erewrite bind_run by reflexivity. erewrite bind_run by reflexivity.
  destruct (eventsOf Date_parse d) as [|e l]; [repeat split|].
  erewrite bind_run by reflexivity.
  erewrite bind_run by (apply renderEvents_run; exact Hwell).
  erewrite bind_run by reflexivity.
  cbn [state onPage onState withLive liveEventIds]. rewrite size_zero_empty.
  destruct (bool_decide (liveIdsOf (e :: l) = ∅)); repeat split.
Qed.

(** A poll tick after its request, when the events can be rendered: the
    Live Set is that of the render, and the timer whose handle the state
    holds is cancelled exactly when that set is empty. *)
Lemma refreshLive_resume_timers (d : Scoreboard) (w : World) :
  rendersWell (Json d) ->
  let w' := exec (refreshLive_resume Date_parse (Json d)) w in
  fst (refreshLive_resume Date_parse (Json d) w) = Returned tt
  /\ pending (browser w') = pending (browser w)
  /\ refreshTimer (state w') = refreshTimer (state w)
  /\ liveEventIds (state w') = liveIdsOf (eventsOf Date_parse d)
  /\ timers (browser w')
     = if bool_decide (liveIdsOf (eventsOf Date_parse d) = ∅)
       then timers (browser (clearTimer (refreshTimer (state w)) w))
       else timers (browser w).
Proof.
  intros Hwell. apply rendersWell_events in Hwell.
  unfold exec, refreshLive_resume, tryCatch.
  erewrite bind_run by reflexivity.
  erewrite bind_run by (apply renderEvents_run; exact Hwell).
  erewrite bind_run by reflexivity.
  cbn [state onPage onState withLive liveEventIds refreshTimer]. rewrite size_zero_empty.
  destruct (bool_decide (liveIdsOf (eventsOf Date_parse d) = ∅)); [|repeat split].
  rewrite clearInterval_run.
  destruct (refreshTimer (state w)) eqn:E; repeat split; exact E.
Qed.

Lemma loadWeek_begin_timers (w : World) :
  timers (browser (exec loadWeek_begin w))
  = timers (browser (clearTimer (refreshTimer (state w)) w))
  /\ liveEventIds (state (exec loadWeek_begin w)) = ∅
  /\ refreshTimer (state (exec loadWeek_begin w)) = refreshTimer (state w)
  /\ pending (browser (exec loadWeek_begin w)) = pending (browser w).
Proof.
  unfold exec. rewrite loadWeek_begin_run. unfold afterLoadBegin.
  destruct (refreshTimer (state w)) eqn:E; repeat split; exact E.
Qed.

(** A load cycle that settles with no timer active and no live game
    ends Polling exactly when its render found a live game. *)
Lemma settle_load_quiet (b : bool) (r : Response) (w : World) :
  rendersWell r ->
  pending (browser w) = nil -> timers (browser w) = ∅ -> liveEventIds (state w) = ∅ ->
  quiet (exec (resume Date_parse thisYear (LoadFlow b) r) w).
Proof.
  intros Hwell Hp Ht Hl.
  assert (Hq : quiet w) by (repeat split; [exact Hp|left; exact Ht| |]; congruence).
  destruct r as [err|d].
  { destruct b; cbn [resume]; [|exact Hq].
    unfold quiet, oneTimerAtMost, exec, tryCatch; cbn. rewrite Hp, Ht, Hl.
    repeat split; auto. }
  assert (Hrun : exec (resume Date_parse thisYear (LoadFlow b) (Json d)) w
                 = exec (loadWeek_resume Date_parse (Json d)) w).
  { destruct b; cbn [resume]; [|reflexivity]. unfold exec.
    erewrite tryCatch_returned; [reflexivity|apply loadWeek_resume_timers, Hwell]. }
  rewrite Hrun.
  destruct (loadWeek_resume_timers d w Hwell) as (_ & Hp' & H).
  unfold quiet, oneTimerAtMost. rewrite Hp', Hp.
  destruct (eventsOf Date_parse d) as [|e l].
  - destruct H as (H1 & H2 & H3). rewrite H1, H2, Ht, Hl. repeat split; auto.
  - destruct H as (H1 & H2). rewrite H1.
    destruct (bool_decide (liveIdsOf (e :: l) = ∅)) eqn:E.
    + apply bool_decide_eq_true in E. destruct H2 as (H2 & H3).
      rewrite H2, Ht, E. repeat split; auto.
    + apply bool_decide_eq_false in E. destruct H2 as (H2 & H3).
      rewrite H2, H3, Ht. split; [reflexivity|]. split.
      * right. eexists. split; [reflexivity|]. set_solver.
      * split; intros _; [exact E|]. set_solver.
Qed.

(** A poll tick that settles while Polling stays Polling exactly when
    its render found a live game. *)
Lemma settle_refresh_quiet (r : Response) (w : World) :
  rendersWell r ->
  quiet w -> timers (browser w) <> ∅ ->
  quiet (exec (refreshLive_resume Date_parse r) w).
Proof.
  intros Hwell (Hp & Hone & Hiff) Hact. destruct r as [err|d].
  { unfold quiet, oneTimerAtMost, exec, refreshLive_resume, tryCatch; cbn.
    repeat split; auto; apply Hiff. }
  destruct (refreshLive_resume_timers d w Hwell) as (_ & Hp' & Hr & Hl & Ht).
  unfold quiet, oneTimerAtMost. rewrite Hp', Hp, Hr, Hl, Ht.
  destruct (bool_decide (liveIdsOf (eventsOf Date_parse d) = ∅)) eqn:E.
  - apply bool_decide_eq_true in E. rewrite (clearTimer_one _ Hone), E.
    repeat split; auto.
  - apply bool_decide_eq_false in E. split; [reflexivity|]. split; [exact Hone|].
    split; intros _; [exact E|exact Hact].
Qed.

(** A call of [loadWeek] and the settling of its request. *)
Lemma load_flow_quiet (b : bool) (r : Response) (w : World) :
  rendersWell r ->
  pending (browser w) = nil -> oneTimerAtMost w ->
  quiet (step' (exec (callLoadWeek b) w) (Settle 0 r)).
Proof.
  intros Hwell Hp Hone.
  destruct (callLoadWeek_effect b w) as (Ht & Hr & Hp' & Hl).
  rewrite (clearTimer_one _ Hone) in Ht. rewrite Hp in Hp'. cbn [app] in Hp'.
  rewrite settle_effect, Hp'. cbn [nth_error].
  apply settle_load_quiet; [exact Hwell| |exact Ht|exact Hl].
  cbn [browser onBrowser pending withPending]. rewrite Hp'. reflexivity.
Qed.

Lemma noop_quiet (r : Response) (w : World) : quiet w -> quiet (step' w (Settle 0 r)).
Proof.
  intros Hq. rewrite settle_effect. destruct Hq as (Hp & Hq). rewrite Hp. cbn.
  repeat split; tauto.
Qed.

(** One flow from a quiet world ends in a quiet world. *)
Lemma flow_pair (a : Action) (r : Response) (w : World) :
  rendersWell r -> quiet w -> quiet (step' (step' w a) (Settle 0 r)).
Proof.
  intros Hwell Hq. pose proof Hq as (Hp & Hone & Hiff).
  destruct a as [v| | | |t|k r'];
    try (match goal with |- quiet (step _ _ (step _ _ w ?a) _) =>
           destruct (gesture_effect w a I) as [->|(w0 & -> & Hb & Hr)]
         end; [apply noop_quiet, Hq|];
         apply load_flow_quiet; [exact Hwell|rewrite Hb; exact Hp|];
         unfold oneTimerAtMost; rewrite Hb, Hr; exact Hone).
  - rewrite tick_effect. destruct (bool_decide (t ∈ timers (browser w))) eqn:E;
      [|apply noop_quiet, Hq].
    rewrite settle_effect. cbn [browser onBrowser pending withPending].
    rewrite Hp. cbn [app nth_error resume].
    apply settle_refresh_quiet; [exact Hwell| |].
    + unfold quiet, oneTimerAtMost. cbn. rewrite Hp. repeat split; tauto.
    + cbn. apply bool_decide_eq_true in E. set_solver.
  - rewrite (settle_effect w k r'), Hp. destruct k; cbn [nth_error]; apply noop_quiet, Hq.
Qed.

Lemma flows_quiet (flows : list (Action * Response)) :
  Forall (fun f => rendersWell (snd f)) flows ->
  forall w, quiet w -> quiet (run' w (flat_map flowActions flows)).
Proof.
  induction 1 as [|[a r] flows Hr Hall IH]; intros w Hq; [exact Hq|].
  cbn [flat_map flowActions fst snd app run fold_left].
  apply IH, flow_pair; assumption.
Qed.

(** Start-up and its first load. *)
Lemma startup_quiet (r0 r1 : Response) :
  rendersWell r1 -> quiet (step' (step' boot (Settle 0 r0)) (Settle 0 r1)).
Proof.
  intros Hwell. rewrite (settle_effect boot).
  change (pending (browser boot)) with (InitFlow :: nil). cbn [nth_error resume].
  destruct r0 as [err|base].
  - apply noop_quiet. unfold quiet, oneTimerAtMost. cbn. repeat split; auto.
  - match goal with
    | |- context [exec (init_resume thisYear (Json base)) ?w] =>
        destruct (init_resume_run base w) as (w0 & E & Hb & Hr); unfold exec at 1; rewrite E
    end.
    apply load_flow_quiet; [exact Hwell|rewrite Hb; reflexivity|].
    left. rewrite Hb. reflexivity.
Qed.

(** **** The requests in flight in a sequential run *)

Lemma settle_single (f : Flow) (r : Response) (w : World) :
  pending (browser w) = f :: nil ->
  match f with
  | InitFlow => (loadsInFlight (step' w (Settle 0 r)) <= 1)%nat
  | _ => pending (browser (step' w (Settle 0 r))) = nil
  end.
Proof.
  intros Hp. rewrite settle_effect, Hp. cbn [nth_error].
  set (w1 := onBrowser _ w).
  assert (Hp1 : pending (browser w1) = nil) by (subst w1; cbn; rewrite Hp; reflexivity).
  clearbody w1. destruct f as [|b|].
  - cbn [resume]. destruct (init_resume_effect r w1) as (_ & [[_ H]|[_ H]]);
      unfold loadsInFlight; rewrite H, Hp1; cbn; lia.
  - destruct (resume_load_effect b r w1) as (H & _). rewrite H. exact Hp1.
  - cbn [resume]. destruct (refreshLive_resume_effect r w1) as (H & _). rewrite H. exact Hp1.
Qed.

Lemma pair_pending (a : Action) (r : Response) (w : World) :
  pending (browser w) = nil ->
  (loadsInFlight (step' w a) <= 1)%nat
  /\ pending (browser (step' (step' w a) (Settle 0 r))) = nil.
Proof.
  intros Hp.
  assert (Hnoop : step' w a = w ->
                  (loadsInFlight (step' w a) <= 1)%nat
                  /\ pending (browser (step' (step' w a) (Settle 0 r))) = nil).
  { intros ->. split; [unfold loadsInFlight; rewrite Hp; cbn; lia|].
    rewrite settle_effect, Hp. exact Hp. }
  assert (Hone : forall f, f <> InitFlow -> pending (browser (step' w a)) = f :: nil ->
                 (loadsInFlight (step' w a) <= 1)%nat
                 /\ pending (browser (step' (step' w a) (Settle 0 r))) = nil).
  { intros f Hf H. split; [unfold loadsInFlight; rewrite H; cbn; destruct (isLoad f); cbn; lia|].
    pose proof (settle_single f r _ H) as S. destruct f; [congruence|exact S|exact S]. }
  destruct a as [v| | | |t|k r'];
    try (match goal with |- (loadsInFlight (step _ _ w ?a) <= 1)%nat /\ _ =>
           destruct (gesture_effect w a I) as [E|(w0 & E & Hb & Hr)]
         end; [exact (Hnoop E)|];
         apply (Hone (LoadFlow false)); [discriminate|];
         rewrite E; destruct (callLoadWeek_effect false w0) as (_ & _ & -> & _);
         rewrite Hb, Hp; reflexivity).
  - pose proof (tick_effect w t) as E. destruct (bool_decide _); [|exact (Hnoop E)].
    apply (Hone RefreshFlow); [discriminate|]. rewrite E. cbn. rewrite Hp. reflexivity.
  - apply Hnoop. rewrite settle_effect, Hp. destruct k; reflexivity.
Qed.

Lemma worlds_flows (flows : list (Action * Response)) (w : World) :
  pending (browser w) = nil ->
  Forall (fun x => (loadsInFlight x <= 1)%nat) (worlds' w (flat_map flowActions flows)).
Proof.
  revert w. induction flows as [|[a r] flows IH]; intros w Hp.
  - cbn. constructor; [unfold loadsInFlight; rewrite Hp; cbn; lia|constructor].
  - cbn [flat_map flowActions fst snd app worlds].
    destruct (pair_pending a r w Hp) as [H1 H2].
    constructor; [unfold loadsInFlight; rewrite Hp; cbn; lia|].
    constructor; [exact H1|]. apply IH, H2.
Qed.

Lemma worlds_sequential (r0 r1 : Response) (flows : list (Action * Response)) :
  Forall (fun x => (loadsInFlight x <= 1)%nat) (worlds' boot (sequential r0 r1 flows)).
Proof.
  unfold sequential. cbn [worlds].
  constructor; [cbn; lia|].
  assert (H0 : pending (browser boot) = InitFlow :: nil) by reflexivity.
  pose proof (settle_single InitFlow r0 boot H0) as H1. cbn in H1.
  assert (H2 : pending (browser (step' (step' boot (Settle 0 r0)) (Settle 0 r1))) = nil).
  { rewrite (settle_effect boot), H0. cbn [nth_error resume].
    set (w1 := onBrowser _ boot).
    assert (Hp1 : pending (browser w1) = nil) by reflexivity. clearbody w1.
    destruct (init_resume_effect r0 w1) as (_ & [[_ H]|[_ H]]); rewrite Hp1 in H.
    - rewrite settle_effect, H. exact H.
    - exact (settle_single (LoadFlow true) r1 _ H). }
  constructor; [exact H1|]. exact (worlds_flows flows _ H2).
Qed.
End SchedulerProofs.




(** ** The rest of the script

    Properties of the functions the claims above leave out, and of how
    the functions work together. *)

(** *** Rendering *)

(** A render pass starts by clearing the grid and the Live Set: what it
    does depends on nothing else of them. *)
Lemma renderEvents_from_cleared (l : list Event) (w w' : World) :
  cleared w = cleared w' -> renderEvents l w = renderEvents l w'.
Proof.
  intros H.
  assert (E : forall x,
            renderEvents l x
            = (let* groups := lift (groupEvents l) in forEach (renderSection groups) ORDER)
                (cleared x)) by reflexivity.
  rewrite (E w), (E w'), H. reflexivity.
Qed.

(** X1: a render pass replaces whatever an earlier pass left: whether or
    not one of them throws, rendering [l1] and then [l2] has the outcome
    of rendering [l2] alone and leaves the world it leaves; a pass changes
    nothing but the grid and the Live Set; and a pass over no events
    returns and empties both. *)
Theorem X1_render_replaces_the_previous_render (l1 l2 : list Event) (w : World) :
  renderEvents l2 (exec (renderEvents l1) w) = renderEvents l2 w
  /\ cleared (exec (renderEvents l2) w) = cleared w
  /\ renderEvents nil w = (Returned tt, cleared w).
Proof.
  split; [|split].
  - apply renderEvents_from_cleared. apply renderEvents_frame.
  - apply renderEvents_frame.
  - reflexivity.
Qed.

Lemma cardOf_state (e : Event) (c : Card) :
  cardOf e = Returned c ->
  card_badge c
  = (if String.eqb (getState e) "in" then "LIVE"
     else if String.eqb (getState e) "post" then "FINAL" else "UPCOMING")
  /\ card_className c
     = (if String.eqb (getState e) "in" then "game-card state-live"
        else if String.eqb (getState e) "post" then "game-card state-final"
        else "game-card state-upcoming")
  /\ btn_disabled (card_awayBtn c) = negb (String.eqb (getState e) "pre")
  /\ btn_disabled (card_homeBtn c) = negb (String.eqb (getState e) "pre").
Proof.
  unfold cardOf, createCard. fold (competitionOf e). rewrite createCard_state.
  destruct (parseHomeSpread (competitionOf e)) as [h|err]; cbn [lift]; [|discriminate].
  unfold bind, ret, throw, get, setLive, modify, lift.
  destruct (String.eqb (getState e) "in"), (String.eqb (getState e) "post"),
    (String.eqb (getState e) "pre"),
    (scoreText (score (pickCompetitor "away" 0 (competitionOf e)))),
    (scoreText (score (pickCompetitor "home" 1 (competitionOf e)))),
    (hasLineScores (competitionOf e)), (buildLineScoreTable (competitionOf e));
    cbn [fst]; intros H; try discriminate; injection H as <-; repeat split.
Qed.

Lemma cardsOf_section (l : list Event) (P : Event -> Card -> Prop) :
  Forall (fun e => renderable e = true) l ->
  (forall e c, In e l -> cardOf e = Returned c -> P e c) ->
  Forall2 P l (cardsOf l).
Proof.
  intros Hall HP. pose proof (cardsOf_each l Hall) as H.
  induction H as [|e c l cs Hc H IH]; constructor.
  - apply HP; [left; reflexivity|exact Hc].
  - apply IH; [apply Forall_cons_iff in Hall; apply Hall|].
    intros e' c' Hin. apply HP. right. exact Hin.
Qed.

(** X2: in the grid a render pass leaves for events that can be
    rendered, the cards of a section carry its badge and its outline: the
    cards under Final read FINAL, those under Live read LIVE, those under
    Upcoming read UPCOMING; the team buttons of a card are enabled exactly
    when the state of its event is "pre", so under Final and Live none is,
    and under Upcoming those of an event of another state are not. *)
Theorem X2_cards_match_their_section (events : list Event) (w : World) :
  Forall (fun e => renderable e = true) events ->
  GRID (page (exec (renderEvents events) w))
  = (bucketNodes "Final" (List.filter isFinal events)
     ++ bucketNodes "Live" (List.filter isLive events)
     ++ bucketNodes "Upcoming" (List.filter isUpcoming events))%list
  /\ Forall2 (fun _ c => card_badge c = "FINAL"
                         /\ card_className c = "game-card state-final"
                         /\ btn_disabled (card_awayBtn c) = true
                         /\ btn_disabled (card_homeBtn c) = true)
             (List.filter isFinal events) (cardsOf (List.filter isFinal events))
  /\ Forall2 (fun _ c => card_badge c = "LIVE"
                         /\ card_className c = "game-card state-live"
                         /\ btn_disabled (card_awayBtn c) = true
                         /\ btn_disabled (card_homeBtn c) = true)
             (List.filter isLive events) (cardsOf (List.filter isLive events))
  /\ Forall2 (fun e c => card_badge c = "UPCOMING"
                         /\ card_className c = "game-card state-upcoming"
                         /\ btn_disabled (card_awayBtn c)
                            = negb (String.eqb (getState e) "pre")
                         /\ btn_disabled (card_homeBtn c)
                            = negb (String.eqb (getState e) "pre"))
             (List.filter isUpcoming events) (cardsOf (List.filter isUpcoming events)).
Proof.
  intros Hall. split; [|split; [|split]].
  - unfold exec. rewrite renderEvents_run by exact Hall. reflexivity.
  - apply cardsOf_section; [apply Forall_filter, Hall|].
    intros e c Hin Hc. apply filter_In in Hin as [_ Hf].
    destruct (cardOf_state e c Hc) as (Hb & Hk & Ha & Hh). rewrite Hb, Hk, Ha, Hh.
    unfold isFinal in Hf. apply eqb_string_eq in Hf. rewrite Hf. repeat split.
  - apply cardsOf_section; [apply Forall_filter, Hall|].
    intros e c Hin Hc. apply filter_In in Hin as [_ Hf].
    destruct (cardOf_state e c Hc) as (Hb & Hk & Ha & Hh). rewrite Hb, Hk, Ha, Hh.
    unfold isLive in Hf. apply eqb_string_eq in Hf. rewrite Hf. repeat split.
  - apply cardsOf_section; [apply Forall_filter, Hall|].
    intros e c Hin Hc. apply filter_In in Hin as [_ Hf].
    destruct (cardOf_state e c Hc) as (Hb & Hk & Ha & Hh). rewrite Hb, Hk, Ha, Hh.
    unfold isUpcoming, isFinal, isLive in Hf. apply andb_true_iff in Hf as [H1 H2].
    apply negb_true_iff in H1, H2. rewrite H1, H2. repeat split.
Qed.

(** A final, a live and two upcoming games, one of them of a state the
    script does not know. *)
Lemma X2_witness :
  Forall (fun e => renderable e = true)
         (gameWithoutOdds :: liveGame
          :: gameWith "401772512" "post" None None (VStr "20") (VStr "27")
          :: gameWith "401772513" "postponed" None None (VStr "0") (VStr "0") :: nil)
  /\ List.map card_badge
       (cardsOf (List.filter isUpcoming
                   (gameWithoutOdds :: liveGame
                    :: gameWith "401772512" "post" None None (VStr "20") (VStr "27")
                    :: gameWith "401772513" "postponed" None None (VStr "0") (VStr "0")
                    :: nil)))
     = "UPCOMING" :: "UPCOMING" :: nil
  /\ Forall2 (fun e c => card_badge c = "UPCOMING"
                         /\ card_className c = "game-card state-upcoming"
                         /\ btn_disabled (card_awayBtn c)
                            = negb (String.eqb (getState e) "pre")
                         /\ btn_disabled (card_homeBtn c)
                            = negb (String.eqb (getState e) "pre"))
       (List.filter isUpcoming
          (gameWithoutOdds :: liveGame
           :: gameWith "401772512" "post" None None (VStr "20") (VStr "27")
           :: gameWith "401772513" "postponed" None None (VStr "0") (VStr "0") :: nil))
       (cardsOf (List.filter isUpcoming
                   (gameWithoutOdds :: liveGame
                    :: gameWith "401772512" "post" None None (VStr "20") (VStr "27")
                    :: gameWith "401772513" "postponed" None None (VStr "0") (VStr "0")
                    :: nil))).
Proof.
  assert (H : Forall (fun e => renderable e = true)
                (gameWithoutOdds :: liveGame
                 :: gameWith "401772512" "post" None None (VStr "20") (VStr "27")
                 :: gameWith "401772513" "postponed" None None (VStr "0") (VStr "0")
                 :: nil))
    by (repeat constructor).
  split; [exact H|]. split; [vm_compute; reflexivity|].
  exact (proj2 (proj2 (proj2 (X2_cards_match_their_section _ initialWorld H)))).
Defined.

(** *** Load cycles and poll ticks *)

Lemma cardCount_app (a b : list Node) :
  cardCount (a ++ b) = (cardCount a + cardCount b)%nat.
Proof.
  induction a as [|n a IH]; [reflexivity|].
  destruct n; cbn [app cardCount]; rewrite IH; lia.
Qed.

Lemma cardsOf_length (l : list Event) :
  Forall (fun e => renderable e = true) l -> length (cardsOf l) = length l.
Proof. intros H. symmetry. eapply Forall2_length, cardsOf_each, H. Qed.

Lemma cardCount_bucket (label : string) (l : list Event) :
  Forall (fun e => renderable e = true) l -> cardCount (bucketNodes label l) = length l.
Proof.
  intros H. destruct l as [|e l]; [reflexivity|]. cbn [bucketNodes cardCount].
  rewrite (cardsOf_length _ H). lia.
Qed.

Lemma cardCount_viewOf (l : list Event) :
  Forall (fun e => renderable e = true) l -> cardCount (viewOf l) = length l.
Proof.
  intros H. unfold viewOf.
  rewrite !cardCount_app, !cardCount_bucket by (apply Forall_filter, H).
  rewrite <- (Permutation_length (filter_buckets_perm l)), !length_app. reflexivity.
Qed.

Lemma eventsOf_length (Date_parse : string -> option Z) (d : Scoreboard) :
  length (eventsOf Date_parse d) = length (eventsIn d).
Proof.
  unfold eventsOf, eventsIn. destruct (sb_events d); [|reflexivity].
  symmetry. apply Permutation_length, sortEvents_perm.
Qed.

(** X3: when a load cycle gets its response, the status bar counts the
    events of the response ("Showing n game — Week k", "games" from two
    on), and without events it says "No games found for Week k." and the
    grid is left as it was; when the events can be rendered the grid then
    holds exactly as many cards as the status bar counts. *)
Theorem X3_status_count_is_the_number_of_cards
  (Date_parse : string -> option Z) (d : Scoreboard) (w : World) :
  let w' := exec (loadWeek_resume Date_parse (Json d)) w in
  match eventsIn d with
  | nil => STATUS (page w')
           = "No games found for Week " ++ showWeek (week (state w)) ++ "."
           /\ GRID (page w') = GRID (page w)
  | l => STATUS (page w')
         = "Showing " ++ decimal (Z.of_nat (length l)) ++ " game"
           ++ (if (1 <? length l)%nat then "s" else "")
           ++ " — Week " ++ showWeek (week (state w))
         /\ (rendersWell (Json d) -> cardCount (GRID (page w')) = length l)
  end.
Proof.
  pose proof (eventsOf_length Date_parse d) as Hlen.
  pose proof (rendersWell_events Date_parse d) as Hwell.
  cbv zeta. unfold exec. remember (loadWeek_resume Date_parse (Json d) w) as res eqn:E.
  destruct res as [o w']. symmetry in E. cbn [snd]. unfold loadWeek_resume in E.
  erewrite bind_run in E by reflexivity. erewrite bind_run in E by reflexivity.
  destruct (eventsIn d) as [|e0 l0] eqn:Hin.
  - destruct (eventsOf Date_parse d); [|discriminate]. injection E as <- <-.
    split; reflexivity.
  - destruct (eventsOf Date_parse d) as [|e l] eqn:Hev; [discriminate|].
    rewrite <- Hlen.
    erewrite bind_run in E by reflexivity. split.
    + unfold bind at 1 in E.
      match type of E with context [renderEvents ?evs ?w1] =>
        pose proof (cleared_fields _ _ (renderEvents_frame evs w1)) as H;
        destruct (renderEvents evs w1) as [[[]|err] w2]
      end; cbn [snd] in H; destruct H as (_ & Hs & _).
      * erewrite bind_run in E by reflexivity.
        match type of E with context [if ?b then _ else _] => destruct b end;
          injection E as <- <-; cbn; rewrite Hs; reflexivity.
      * injection E as <- <-. rewrite Hs. reflexivity.
    + intros Hr. specialize (Hwell Hr).
      erewrite bind_run in E by (apply renderEvents_run; exact Hwell).
      erewrite bind_run in E by reflexivity.
      match type of E with context [if ?b then _ else _] => destruct b end;
        injection E as <- <-; cbn; apply (cardCount_viewOf (e :: l)); exact Hwell.
Qed.

Lemma X3_witness :
  rendersWell (Json liveBoard)
  /\ STATUS (page (exec (loadWeek_resume exampleDates (Json liveBoard)) initialWorld))
     = "Showing 1 game — Week null"
  /\ cardCount (GRID (page (exec (loadWeek_resume exampleDates (Json liveBoard))
                                 initialWorld))) = 1%nat.
Proof.
  assert (H : rendersWell (Json liveBoard)) by (repeat constructor).
  split; [exact H|].
  pose proof (X3_status_count_is_the_number_of_cards exampleDates liveBoard initialWorld)
    as [Hs Hc].
  split; [exact Hs|exact (Hc H)].
Defined.

Lemma clearTimer_frame (h : option nat) (w : World) :
  state (clearTimer h w) = state w /\ page (clearTimer h w) = page w
  /\ timers (browser (clearTimer h w)) ⊆ timers (browser w)
  /\ nextTimer (browser (clearTimer h w)) = nextTimer (browser w)
  /\ console (browser (clearTimer h w)) = console (browser w)
  /\ pending (browser (clearTimer h w)) = pending (browser w).
Proof. destruct h; cbn; repeat split; set_solver. Qed.



Lemma decimal_inj (a b : Z) : 0 <= a -> 0 <= b -> decimal a = decimal b -> a = b.
Proof.
  intros Ha Hb E.
  pose proof (digitsRun_all a "" Ha) as Ra. pose proof (digitsRun_all b "" Hb) as Rb.
  rewrite (digitsRun_stop "") in Ra, Rb by reflexivity. rewrite E, Rb in Ra.
  injection Ra as Hab. lia.
Qed.

Lemma find_the_one {A : Type} (f : A -> bool) (m : A) (l : list A) :
  (forall i, In i l -> f i = true -> i = m) -> f m = true -> In m l ->
  List.find f l = Some m.
Proof.
  intros Hf Hm. induction l as [|x l IH]; intros Hin; [contradiction|].
  cbn [List.find]. destruct (f x) eqn:E.
  - f_equal. apply Hf; [left; reflexivity|exact E].
  - destruct Hin as [->|Hin]; [congruence|]. apply IH; [|exact Hin].
    intros i Hi. apply Hf. right. exact Hi.
Qed.

(** Setting the selector to a week that it offers selects that option. *)
Lemma selectValue_option (m : Z) (p : Page) (k : Z) :
  weekOptions p = optionsUpTo k -> 1 <= m <= k -> k < 2 ^ 53 ->
  selectValue (of_Z m) p = withWeekValue (Some m) p.
Proof.
  intros Ho Hm Hk. unfold selectValue. f_equal. rewrite Ho.
  apply find_the_one.
  - intros i Hi E. apply In_optionsUpTo in Hi. apply eqb_string_eq in E.
    unfold optionValue in E. rewrite !numberToString_of_Z in E by lia.
    apply decimal_inj; (lia || assumption).
  - apply String.eqb_refl.
  - apply In_optionsUpTo. exact Hm.
Qed.

Section FlowFacts.
Variable Date_parse : string -> option Z.
Variable thisYear : Z.

Local Abbreviation step' := (step Date_parse thisYear).
Local Abbreviation run' := (run Date_parse thisYear).

Lemma step_refresh (w : World) :
  wired (page w) = true -> step' w ClickRefresh = exec (callLoadWeek false) w.
Proof.
  intros E. unfold step, exec, job. erewrite bind_run by reflexivity. rewrite E.
  reflexivity.
Qed.

Lemma step_settle_load (b : bool) (r : Response) (w : World) (q : list Flow) :
  pending (browser w) = LoadFlow b :: q ->
  step' w (Settle 0 r)
  = exec (resume Date_parse thisYear (LoadFlow b) r)
         (onBrowser (withPending q) w).
Proof.
  intros E. unfold step, exec, job. erewrite bind_run by reflexivity. rewrite E.
  cbn [nth_error]. erewrite bind_run by reflexivity.
  unfold onBrowser, withPending, removeNth. rewrite E. reflexivity.
Qed.

(** X5: when the request of a load started from a wired control fails,
    the error escapes [loadWeek]: nothing is logged, the status bar keeps
    "Loading Week k…" over an empty grid, the Live Set is empty, the timer
    whose handle the state held is cancelled and none is started. *)
Theorem X5_failed_load_keeps_the_loading_message (w : World) (err : string) :
  wired (page w) = true -> pending (browser w) = nil ->
  let w' := run' w (ClickRefresh :: Settle 0 (Failed err) :: nil) in
  STATUS (page w') = "Loading Week " ++ showWeek (week (state w)) ++ "…"
  /\ GRID (page w') = nil
  /\ liveEventIds (state w') = ∅
  /\ timers (browser w') = timers (browser w) ∖ match refreshTimer (state w) with
                                                | Some t => {[ t ]}
                                                | None => ∅
                                                end
  /\ pending (browser w') = nil
  /\ console (browser w') = console (browser w).
Proof.
  intros Hw Hp. cbn [run fold_left]. rewrite (step_refresh w Hw).
  assert (E : exec (callLoadWeek false) w
              = onBrowser (fun br => withPending (pending br ++ LoadFlow false :: nil)%list br)
                          (afterLoadBegin w))
    by (unfold exec; rewrite callLoadWeek_run; reflexivity).
  rewrite E. rewrite (step_settle_load false (Failed err) _ nil).
  2:{ cbn. destruct (refreshTimer (state w)); cbn; rewrite Hp; reflexivity. }
  unfold afterLoadBegin.
  destruct (refreshTimer (state w)); cbn; repeat split; set_solver.
Qed.

Lemma inert_step (w : World) (a : Action) : inert w -> step' w a = w.
Proof.
  intros (Hw & Ht & Hp). unfold step, exec, job. erewrite bind_run by reflexivity.
  destruct a as [v| | | |t|k r]; rewrite ?Hw, ?Ht, ?Hp; try reflexivity.
  destruct k; reflexivity.
Qed.

Lemma inert_run (trace : list Action) (w : World) : inert w -> run' w trace = w.
Proof.
  intros H. induction trace as [|a trace IH]; [reflexivity|].
  cbn [run fold_left]. rewrite (inert_step w a H). exact IH.
Qed.

(** X6: when the first request of the page fails, the error is logged,
    the status bar reads "Failed to load current week. Try refresh." and
    the controls are not wired: from then on no click, selection, tick or
    late response changes anything. *)
Theorem X6_failed_startup_leaves_the_page_inert (err : string) (trace : list Action) :
  let w0 := step' boot (Settle 0 (Failed err)) in
  STATUS (page w0) = "Failed to load current week. Try refresh."
  /\ console (browser w0) = err :: nil
  /\ wired (page w0) = false
  /\ run' w0 trace = w0.
Proof.
  cbn zeta. repeat split. apply inert_run. repeat split.
Qed.

(** *** Prev and Next *)

(** X7: Prev at week 1 (or below) and Next at the last week (or
    beyond) do nothing at all: no request is issued and the world is
    unchanged.  The handlers compare Numbers: Prev does nothing unless the
    week is greater than 1, Next nothing unless it is less than the last
    week. *)
Theorem X7_prev_and_next_stop_at_the_ends (w : World) :
  (gt (weekNum w) (of_Z 1) = false -> step' w ClickPrev = w)
  /\ (lt (weekNum w) (of_Z (maxWeeks (state w))) = false -> step' w ClickNext = w)
  /\ (forall n, week (state w) = Some (of_Z n) -> - 2 ^ 53 < n <= 1 ->
                step' w ClickPrev = w)
  /\ (forall n, week (state w) = Some (of_Z n) ->
                - 2 ^ 53 < maxWeeks (state w) <= n -> n < 2 ^ 53 ->
                step' w ClickNext = w).
Proof.
  assert (P : gt (weekNum w) (of_Z 1) = false -> step' w ClickPrev = w).
  { intros H. unfold step, exec, job. erewrite bind_run by reflexivity.
    destruct (wired (page w)); [|reflexivity].
    unfold onPrev. erewrite bind_run by reflexivity. rewrite H. reflexivity. }
  assert (N : lt (weekNum w) (of_Z (maxWeeks (state w))) = false -> step' w ClickNext = w).
  { intros H. unfold step, exec, job. erewrite bind_run by reflexivity.
    destruct (wired (page w)); [|reflexivity].
    unfold onNext. erewrite bind_run by reflexivity. rewrite H. reflexivity. }
  split; [exact P|]. split; [exact N|]. split.
  - intros n Hn Hr. apply P. unfold weekNum. rewrite Hn, gt_of_Z by lia.
    apply Z.ltb_ge. lia.
  - intros n Hn Hr Hb. apply N. unfold weekNum. rewrite Hn, lt_of_Z by lia.
    apply Z.ltb_ge. lia.
Qed.

Lemma step_next (w : World) :
  wired (page w) = true -> lt (weekNum w) (of_Z (maxWeeks (state w))) = true ->
  step' w ClickNext
  = exec (callLoadWeek false)
         (onPage (selectValue (add (weekNum w) (of_Z 1)))
                 (onState (withWeek (Some (add (weekNum w) (of_Z 1)))) w)).
Proof.
  intros E1 E2.
  unfold step, exec, job. erewrite bind_run by reflexivity. rewrite E1.
  unfold onNext. erewrite bind_run by reflexivity. rewrite E2.
  repeat (erewrite bind_run by reflexivity). reflexivity.
Qed.

Lemma step_prev (w : World) :
  wired (page w) = true -> gt (weekNum w) (of_Z 1) = true ->
  step' w ClickPrev
  = exec (callLoadWeek false)
         (onPage (selectValue (sub (weekNum w) (of_Z 1)))
                 (onState (withWeek (Some (sub (weekNum w) (of_Z 1)))) w)).
Proof.
  intros E1 E2.
  unfold step, exec, job. erewrite bind_run by reflexivity. rewrite E1.
  unfold onPrev. erewrite bind_run by reflexivity. rewrite E2.
  repeat (erewrite bind_run by reflexivity). reflexivity.
Qed.

Lemma exec_callLoadWeek (b : bool) (w : World) :
  exec (callLoadWeek b) w
  = onBrowser (fun br => withPending (pending br ++ LoadFlow b :: nil)%list br)
              (afterLoadBegin w).
Proof. unfold exec. rewrite callLoadWeek_run. reflexivity. Qed.

(** X8: from a week [n] that is not the last one, Next and then Prev
    lead to [n + 1] and back to [n], the selector showing the week each
    time, and each of the two issues one load. *)
Theorem X8_next_then_prev_returns_to_the_week (w : World) (n : Z) :
  wired (page w) = true -> week (state w) = Some (of_Z n) ->
  1 <= n < maxWeeks (state w) -> maxWeeks (state w) < 2 ^ 53 ->
  weekOptions (page w) = optionsUpTo (maxWeeks (state w)) ->
  let w1 := step' w ClickNext in
  let w2 := step' w1 ClickPrev in
  week (state w1) = Some (of_Z (n + 1)) /\ weekValue (page w1) = Some (n + 1)
  /\ week (state w2) = Some (of_Z n) /\ weekValue (page w2) = Some n
  /\ pending (browser w2)
     = (pending (browser w) ++ LoadFlow false :: LoadFlow false :: nil)%list.
Proof.
  intros Hw Hn Hr Hmax Ho w1 w2.
  assert (Hnum : weekNum w = of_Z n) by (unfold weekNum; rewrite Hn; reflexivity).
  assert (E1 : w1 = exec (callLoadWeek false)
                      (onPage (withWeekValue (Some (n + 1)))
                              (onState (withWeek (Some (of_Z (n + 1)))) w))).
  { subst w1. rewrite step_next; [|exact Hw|rewrite Hnum, lt_of_Z by lia; apply Z.ltb_lt; lia].
    rewrite Hnum, add_of_Z by lia. f_equal. unfold onPage. f_equal.
    apply (selectValue_option (n + 1) _ (maxWeeks (state w))); [exact Ho|lia|lia]. }
  assert (W1 : week (state w1) = Some (of_Z (n + 1)) /\ weekValue (page w1) = Some (n + 1)
               /\ wired (page w1) = true /\ weekNum w1 = of_Z (n + 1)
               /\ weekOptions (page w1) = weekOptions (page w)
               /\ maxWeeks (state w1) = maxWeeks (state w)).
  { rewrite E1, exec_callLoadWeek. unfold afterLoadBegin, weekNum.
    cbn. destruct (refreshTimer (state w)); cbn; repeat split; assumption. }
  destruct W1 as (A1 & A2 & A3 & A4 & A5 & A6).
  assert (E2 : w2 = exec (callLoadWeek false)
                      (onPage (withWeekValue (Some n))
                              (onState (withWeek (Some (of_Z n))) w1))).
  { subst w2. rewrite step_prev; [|exact A3|rewrite A4, gt_of_Z by lia; apply Z.ltb_lt; lia].
    rewrite A4, sub_of_Z by lia. replace (n + 1 - 1) with n by lia.
    f_equal. unfold onPage. f_equal.
    apply (selectValue_option n _ (maxWeeks (state w))); [|lia|lia].
    cbn. rewrite A5. exact Ho. }
  split; [exact A1|]. split; [exact A2|].
  rewrite E2, exec_callLoadWeek. unfold afterLoadBegin.
  assert (P1 : pending (browser w1) = (pending (browser w) ++ LoadFlow false :: nil)%list).
  { rewrite E1, exec_callLoadWeek. unfold afterLoadBegin.
    cbn. destruct (refreshTimer (state w)); reflexivity. }
  cbn. destruct (refreshTimer (state w1)); cbn;
    rewrite P1, <- app_assoc; repeat split.
Qed.

End FlowFacts.

Lemma X5_witness :
  wired (page liveWeekShown) = true
  /\ pending (browser liveWeekShown) = nil
  /\ size (timers (browser liveWeekShown)) = 1%nat
  /\ STATUS (page (run exampleDates 2025 liveWeekShown
                       (ClickRefresh :: Settle 0 (Failed "HTTP 503") :: nil)))
     = "Loading Week 1…"
  /\ size (timers (browser (run exampleDates 2025 liveWeekShown
                                (ClickRefresh :: Settle 0 (Failed "HTTP 503") :: nil))))
     = 0%nat.
Proof.
  assert (Hw : wired (page liveWeekShown) = true) by (vm_compute; reflexivity).
  assert (Hp : pending (browser liveWeekShown) = nil) by (vm_compute; reflexivity).
  pose proof (X5_failed_load_keeps_the_loading_message exampleDates 2025
                liveWeekShown "HTTP 503" Hw Hp) as (Hs & _).
  split; [exact Hw|]. split; [exact Hp|]. split; [vm_compute; reflexivity|].
  split; [rewrite Hs; vm_compute; reflexivity|vm_compute; reflexivity].
Defined.

Lemma X8_witness :
  wired (page liveWeekShown) = true
  /\ week (state liveWeekShown) = Some (of_Z 1)
  /\ 1 <= 1 < maxWeeks (state liveWeekShown)
  /\ maxWeeks (state liveWeekShown) < 2 ^ 53
  /\ weekOptions (page liveWeekShown) = optionsUpTo (maxWeeks (state liveWeekShown))
  /\ week (state (step exampleDates 2025 (step exampleDates 2025 liveWeekShown ClickNext)
                       ClickPrev)) = Some (of_Z 1)
  /\ weekValue (page (step exampleDates 2025 (step exampleDates 2025 liveWeekShown ClickNext)
                           ClickPrev)) = Some 1.
Proof.
  assert (H1 : wired (page liveWeekShown) = true) by (vm_compute; reflexivity).
  assert (H2 : week (state liveWeekShown) = Some (of_Z 1)) by (vm_compute; reflexivity).
  assert (H3 : 1 <= 1 < maxWeeks (state liveWeekShown)) by (vm_compute; split; congruence).
  assert (H5 : maxWeeks (state liveWeekShown) < 2 ^ 53) by (vm_compute; reflexivity).
  assert (H4 : weekOptions (page liveWeekShown) = optionsUpTo (maxWeeks (state liveWeekShown)))
    by (vm_compute; reflexivity).
  pose proof (X8_next_then_prev_returns_to_the_week exampleDates 2025
                liveWeekShown 1 H1 H2 H3 H5 H4) as (_ & _ & H & H' & _).
  repeat split; try assumption; apply H3.
Defined.

(** *** The characters of a suffix *)

Lemma append_cons (c : ascii) (a b : string) : String c a ++ b = String c (a ++ b).
Proof. reflexivity. Qed.

Lemma numeral_app (a b : string) : numeral (a ++ b) = numeral a && numeral b.
Proof.
  induction a as [|c a IH]; [reflexivity|].
  rewrite append_cons. cbn [numeral]. rewrite IH, andb_assoc. reflexivity.
Qed.

Lemma numeral_digitChar (d : Z) : d <= 9 -> numeral (digitChar d) = true.
Proof.
  intros Hle. unfold digitChar.
  destruct (Z_le_gt_dec d 0) as [H0|H0].
  - replace (Z.to_nat d) with 0%nat by lia. reflexivity.
  - assert (H : d = 1 \/ d = 2 \/ d = 3 \/ d = 4 \/ d = 5 \/ d = 6 \/ d = 7
                \/ d = 8 \/ d = 9) by lia.
    destruct H as [->|[->|[->|[->|[->|[->|[->|[->| ->]]]]]]]]; reflexivity.
Qed.

Lemma numeral_decimalFuel (f : nat) : forall n, numeral (decimalFuel f n) = true.
Proof.
  induction f as [|f IH]; intros n; [reflexivity|].
  cbn [decimalFuel]. destruct (Z.ltb_spec n 10).
  - apply numeral_digitChar. lia.
  - rewrite numeral_app, IH. apply numeral_digitChar.
    pose proof (Z.mod_pos_bound n 10 ltac:(lia)). lia.
Qed.

Lemma numeral_decimal (n : Z) : numeral (decimal n) = true.
Proof. apply numeral_decimalFuel. Qed.

Lemma numeral_zeros (k : nat) : numeral (zeros k) = true.
Proof.
  induction k as [|k IH]; [reflexivity|]. cbn [zeros numeral]. rewrite IH. reflexivity.
Qed.

Lemma numeral_substring (s : string) :
  forall i j, numeral s = true -> numeral (substring i j s) = true.
Proof.
  induction s as [|c s IH]; intros i j H.
  - destruct i, j; reflexivity.
  - cbn [numeral] in H. apply andb_true_iff in H as [Hc Hs].
    destruct i as [|i]; cbn [substring].
    + destruct j as [|j]; [reflexivity|]. cbn [numeral]. rewrite Hc. apply IH, Hs.
    + apply IH, Hs.
Qed.

Lemma numeral_take (n : Z) (s : string) : numeral s = true -> numeral (take n s) = true.
Proof. apply numeral_substring. Qed.

Lemma numeral_drop (n : Z) (s : string) : numeral s = true -> numeral (drop n s) = true.
Proof. apply numeral_substring. Qed.

Lemma numeral_layoutDigits (d E : Z) : numeral (layoutDigits d E) = true.
Proof.
  unfold layoutDigits.
  repeat match goal with
         | |- context [if ?b then _ else _] => destruct b
         end;
    rewrite ?numeral_app, ?numeral_zeros, ?numeral_take, ?numeral_drop, ?numeral_decimal;
    try reflexivity; apply numeral_decimal.
Qed.

Lemma numeral_numberToString (x : number) : numeral (numberToString x) = true.
Proof.
  destruct x as [s|s| |s m e]; cbn [numberToString]; try (destruct s; reflexivity);
    try reflexivity.
  destruct (shortest m e) as [d E]. rewrite numeral_app, numeral_layoutDigits.
  destruct s; reflexivity.
Qed.

Lemma numeral_toFixed1 (x : number) : numeral (toFixed1 x) = true.
Proof.
  destruct x as [s|s| |s m e]; cbn [toFixed1]; try (destruct s; reflexivity);
    try reflexivity.
  destruct (_ <=? _).
  - rewrite numeral_app, numeral_numberToString. destruct s; reflexivity.
  - set (ds := if _ <=? 1 then _ else _).
    assert (Hds : numeral ds = true).
    { subst ds. destruct (_ <=? 1); rewrite ?numeral_app, ?numeral_zeros;
        apply numeral_decimal. }
    rewrite !numeral_app, numeral_take, numeral_drop by exact Hds. destruct s; reflexivity.
Qed.

Lemma numeral_stripDotZero (s : string) :
  numeral s = true -> numeral (stripDotZero s) = true.
Proof.
  induction s as [|c s IH]; intros H; [reflexivity|].
  cbn [stripDotZero]. destruct (String.eqb _ _); [reflexivity|].
  cbn [numeral] in *. apply andb_true_iff in H as [Hc Hs]. rewrite Hc. apply IH, Hs.
Qed.

Lemma numeral_prettyNum (x : number) : numeral (prettyNum x) = true.
Proof.
  unfold prettyNum. destruct (isInteger x).
  - apply numeral_numberToString.
  - apply numeral_stripDotZero, numeral_toFixed1.
Qed.

Lemma numeralChar_plain (c : ascii) : numeralChar c = true -> plainChar c = true.
Proof.
  destruct c as [[|] [|] [|] [|] [|] [|] [|] [|]]; vm_compute; intros H;
    (reflexivity || discriminate H).
Qed.

Lemma numeralChar_markupFree (c : ascii) : numeralChar c = true -> markupChar c = false.
Proof.
  destruct c as [[|] [|] [|] [|] [|] [|] [|] [|]]; vm_compute; intros H;
    (reflexivity || discriminate H).
Qed.

Lemma numeral_plain (s : string) : numeral s = true -> plain s = true.
Proof.
  induction s as [|c s IH]; [reflexivity|]. cbn [numeral plain]. intros H.
  apply andb_true_iff in H as [Hc Hs]. rewrite (numeralChar_plain c Hc). apply IH, Hs.
Qed.

Lemma numeral_markupFree (s : string) : numeral s = true -> markupFree s = true.
Proof.
  induction s as [|c s IH]; [reflexivity|]. cbn [numeral markupFree]. intros H.
  apply andb_true_iff in H as [Hc Hs]. rewrite (numeralChar_markupFree c Hc). apply IH, Hs.
Qed.

Lemma markupFree_app (a b : string) : markupFree (a ++ b) = markupFree a && markupFree b.
Proof.
  induction a as [|c a IH]; [reflexivity|].
  rewrite append_cons. cbn [markupFree]. rewrite IH, andb_assoc. reflexivity.
Qed.

(** The suffix is empty, or a text of numeral characters between [" ("]
    and [")"]. *)
Lemma suffix_numeral (h : option number) (isHome : bool) :
  spreadSuffixForSide h isHome = ""
  \/ exists body, spreadSuffixForSide h isHome = " (" ++ body ++ ")" /\ numeral body = true.
Proof.
  destruct h as [x|]; [|left; reflexivity]. right. unfold spreadSuffixForSide.
  destruct (lt _ _).
  - exists "PK". split; reflexivity.
  - exists ((if gt (sideValue x isHome) pzero then "+" else "")
            ++ prettyNum (sideValue x isHome)).
    split; [rewrite append_assoc; reflexivity|].
    rewrite numeral_app, numeral_prettyNum. destruct (gt _ _); reflexivity.
Qed.

Lemma suffix_shape (h : option number) (isHome : bool) :
  spreadSuffixForSide h isHome = ""
  \/ exists body, spreadSuffixForSide h isHome = " (" ++ body ++ ")" /\ plain body = true.
Proof.
  destruct (suffix_numeral h isHome) as [E|(body & E & Hb)]; [left; exact E|right].
  exists body. split; [exact E|apply numeral_plain, Hb].
Qed.

(** The HTML parser takes a suffix as it is written. *)
Lemma suffix_markupFree (h : option number) (isHome : bool) :
  markupFree (spreadSuffixForSide h isHome) = true.
Proof.
  destruct (suffix_numeral h isHome) as [->|(body & -> & Hb)]; [reflexivity|].
  rewrite !markupFree_app, (numeral_markupFree body Hb). reflexivity.
Qed.

(** *** The spread a pick posts and the spread a button shows *)

Lemma cardOf_buttons (e : Event) (c : Card) :
  cardOf e = Returned c ->
  exists h, parseHomeSpread (competitionOf e) = Returned h
  /\ card_awayBtn c
     = disable (negb (String.eqb (getState e) "pre"))
               (teamCell (pickCompetitor "away" 0 (competitionOf e)) h false)
  /\ card_homeBtn c
     = disable (negb (String.eqb (getState e) "pre"))
               (teamCell (pickCompetitor "home" 1 (competitionOf e)) h true).
Proof.
  unfold cardOf, createCard. fold (competitionOf e). rewrite createCard_state.
  destruct (parseHomeSpread (competitionOf e)) as [h|err]; cbn [lift]; [|discriminate].
  unfold bind, ret, throw, get, setLive, modify, lift.
  destruct (String.eqb (getState e) "in"), (String.eqb (getState e) "post"),
    (String.eqb (getState e) "pre"),
    (scoreText (score (pickCompetitor "away" 0 (competitionOf e)))),
    (scoreText (score (pickCompetitor "home" 1 (competitionOf e)))),
    (hasLineScores (competitionOf e)), (buildLineScoreTable (competitionOf e));
    cbn [fst]; intros H; try discriminate; injection H as <-; exists h; repeat split.
Qed.

(** The two lines of a button whose team names hold no markup. *)
Lemma teamCell_lines (comp : Competitor) (h : option number) (isHome : bool) :
  markupFree (teamNickname (team comp)) = true ->
  markupFree (teamCity (team comp)) = true ->
  btn_lineA (teamCell comp h isHome) = Some (teamNickname (team comp))
  /\ btn_lineB (teamCell comp h isHome)
     = Some (teamCity (team comp) ++ spreadSuffixForSide h isHome).
Proof.
  intros Hn Hc. unfold teamCell. cbn [btn_lineA btn_lineB].
  rewrite markupFree_app, Hn, Hc, suffix_markupFree. split; reflexivity.
Qed.

(** X9: for an event that has odds and whose team names hold no markup
    (no [<], [&], NUL or carriage return), the spread a pick posts is the
    number whose suffix the picked button shows, and the team it posts is
    that of the competitor the button was built from. *)
Theorem X9_posted_spread_is_the_one_shown (st : State) (e : Event) (h : number) (c : Card) :
  parseHomeSpread (competitionOf e) = Returned (Some h) ->
  cardOf e = Returned c ->
  let home := pickCompetitor "home" 1 (competitionOf e) in
  let away := pickCompetitor "away" 0 (competitionOf e) in
  markupFree (teamNickname (team home)) = true ->
  markupFree (teamCity (team home)) = true ->
  markupFree (teamNickname (team away)) = true ->
  markupFree (teamCity (team away)) = true ->
  exists ph pa,
    pickPayload st e "home" = Returned ph
    /\ pickPayload st e "away" = Returned pa
    /\ pl_spread ph = Some h
    /\ pl_spread pa = Some (neg h)
    /\ btn_lineB (card_homeBtn c)
       = Some (teamCity (team home) ++ spreadSuffixForSide (pl_spread ph) true)
    /\ btn_lineB (card_awayBtn c)
       = Some (teamCity (team away) ++ spreadSuffixForSide (pl_spread pa) true)
    /\ btn_lineA (card_homeBtn c) = Some (teamNickname (team home))
    /\ btn_lineA (card_awayBtn c) = Some (teamNickname (team away))
    /\ teamButtonName ph = teamTag home
    /\ teamButtonName pa = teamTag away.
Proof.
  intros Hh Hc home away Hnh Hch Hna Hca.
  destruct (cardOf_buttons e c Hc) as (h' & Hp & Ha & Hb).
  rewrite Hh in Hp. injection Hp as <-.
  destruct (teamCell_lines home (Some h) true Hnh Hch) as [HA HB].
  destruct (teamCell_lines away (Some h) false Hna Hca) as [AA AB].
  unfold pickPayload. fold (competitionOf e). rewrite Hh. cbn [andThen].
  eexists. eexists. split; [reflexivity|]. split; [reflexivity|].
  rewrite Ha, Hb.
  change (btn_lineA (disable ?b ?t)) with (btn_lineA t).
  change (btn_lineB (disable ?b ?t)) with (btn_lineB t).
  fold home away. rewrite HA, HB, AA, AB. repeat split.
Qed.

Lemma X9_witness :
  parseHomeSpread (competitionOf homeFavoured) = Returned (Some (StringToNumber "-3.5"))
  /\ (exists c, cardOf homeFavoured = Returned c
                /\ btn_lineB (card_awayBtn c) = Some "Dallas (+3.5)")
  /\ (let? p := pickPayload initialState homeFavoured "away" in Returned (spreadJSON p))
     = Returned "3.5".
Proof.
  assert (H : parseHomeSpread (competitionOf homeFavoured)
              = Returned (Some (StringToNumber "-3.5"))) by (vm_compute; reflexivity).
  split; [exact H|]. split; [|vm_compute; reflexivity].
  destruct (cardOf homeFavoured) as [c|err] eqn:Hc; [|vm_compute in Hc; discriminate].
  exists c. split; [reflexivity|].
  destruct (X9_posted_spread_is_the_one_shown initialState homeFavoured _ c H Hc
              ltac:(vm_compute; reflexivity) ltac:(vm_compute; reflexivity)
              ltac:(vm_compute; reflexivity) ltac:(vm_compute; reflexivity))
    as (ph & pa & _ & Ea & _ & Es & _ & Eb & _).
  rewrite Eb, Es. vm_compute. reflexivity.
Defined.

Lemma stripDotZero_minus (r : string) :
  stripDotZero (String "-" r) = String "-" (stripDotZero r).
Proof.
  cbn [stripDotZero].
  destruct (String.eqb (String "-" r) ".0") eqn:E; [|reflexivity].
  apply String.eqb_eq in E. discriminate.
Qed.

Lemma prefix_cons (a : ascii) (p r : string) :
  String.prefix (String a p) (String a r) = String.prefix p r.
Proof. cbn. destruct (Ascii.ascii_dec a a); [reflexivity|congruence]. Qed.

Lemma prefix_empty (r : string) : String.prefix "" r = true.
Proof. destruct r; reflexivity. Qed.

Lemma prettyNum_negative (m : positive) (e : Z) :
  exists r, prettyNum (S754_finite true m e) = String "-" r.
Proof.
  unfold prettyNum. destruct (isInteger (S754_finite true m e)).
  - cbn [numberToString]. destruct (shortest m e). eexists. reflexivity.
  - cbn [toFixed1]. destruct (_ <=? _).
    + change ("-" ++ ?x) with (String "-" x). rewrite stripDotZero_minus.
      eexists. reflexivity.
    + change ("-" ++ ?x) with (String "-" x). rewrite stripDotZero_minus.
      eexists. reflexivity.
Qed.

Lemma parseHomeSpread_finite (c : Competition) (h : option number) :
  parseHomeSpread c = Returned h ->
  match h with
  | Some x => isFinite x = true
  | None => True
  end.
Proof.
  unfold parseHomeSpread. destruct (ToNumber _) as [n|err]; cbn [andThen]; [|discriminate].
  destruct (isFinite n) eqn:E; intros H; injection H as <-; [exact E|exact I].
Qed.

(** X10: the suffixes on the two buttons of a card go together: both
    are empty (no odds), both are " (PK)", or one starts with " (+" and
    the other with " (-". *)
Theorem X10_the_two_sides_show_opposite_signs (c : Competition) (h : option number) :
  parseHomeSpread c = Returned h ->
  let home := spreadSuffixForSide h true in
  let away := spreadSuffixForSide h false in
  (home = "" /\ away = "")
  \/ (home = " (PK)" /\ away = " (PK)")
  \/ (String.prefix " (+" home = true /\ String.prefix " (-" away = true)
  \/ (String.prefix " (-" home = true /\ String.prefix " (+" away = true).
Proof.
  intros Hp. apply parseHomeSpread_finite in Hp. cbn zeta.
  destruct h as [[s|s| |s m e]|]; cbn [isFinite] in Hp; try discriminate;
    [right; left; split; reflexivity| |left; split; reflexivity].
  unfold spreadSuffixForSide, sideValue.
  assert (Habs : abs (neg (S754_finite s m e)) = abs (S754_finite s m e)) by reflexivity.
  rewrite Habs.
  destruct (lt (abs (S754_finite s m e)) EPSILON); [right; left; split; reflexivity|].
  right. right. destruct s; cbn [neg SFopp negb gt SFltb SFcompare pzero].
  - right. destruct (prettyNum_negative m e) as [r ->]. split.
    + change (" (" ++ "" ++ String "-" r ++ ")")
        with (String " " (String "(" (String "-" (r ++ ")")))).
      rewrite !prefix_cons. apply prefix_empty.
    + change (" (" ++ "+" ++ ?x) with (String " " (String "(" (String "+" x))).
      rewrite !prefix_cons. apply prefix_empty.
  - left. destruct (prettyNum_negative m e) as [r ->]. split.
    + change (" (" ++ "+" ++ ?x) with (String " " (String "(" (String "+" x))).
      rewrite !prefix_cons. apply prefix_empty.
    + change (" (" ++ "" ++ String "-" r ++ ")")
        with (String " " (String "(" (String "-" (r ++ ")")))).
      rewrite !prefix_cons. apply prefix_empty.
Qed.

Lemma X10_witness :
  parseHomeSpread (competitionOf homeFavoured) = Returned (Some (StringToNumber "-3.5"))
  /\ String.prefix " (-" (spreadSuffixForSide (Some (StringToNumber "-3.5")) true) = true
  /\ String.prefix " (+" (spreadSuffixForSide (Some (StringToNumber "-3.5")) false) = true.
Proof.
  assert (H : parseHomeSpread (competitionOf homeFavoured)
              = Returned (Some (StringToNumber "-3.5"))) by (vm_compute; reflexivity).
  split; [exact H|].
  destruct (X10_the_two_sides_show_opposite_signs _ _ H) as [[E _]|[[E _]|[[E _]|E]]];
    [vm_compute in E; discriminate E..|exact E].
Defined.

(** *** Sorting *)

Lemma elem_of_liveIdsOf (l : list Event) (i : option string) :
  i ∈ liveIdsOf l <-> exists e, In e l /\ getState e = "in" /\ ev_id e = i.
Proof.
  unfold liveIdsOf. rewrite elem_of_list_to_set, list_elem_of_In, in_map_iff.
  split.
  - intros (e & Hid & Hin). apply filter_In in Hin as [Hin Hst].
    exists e. repeat split; try assumption. apply String.eqb_eq, Hst.
  - intros (e & Hin & Hst & Hid). exists e. split; [assumption|].
    apply filter_In. split; [assumption|]. apply String.eqb_eq, Hst.
Qed.

Lemma liveIdsOf_perm (l l' : list Event) :
  Permutation l l' -> liveIdsOf l = liveIdsOf l'.
Proof.
  intros H. apply set_eq. intros i. rewrite !elem_of_liveIdsOf.
  split; intros (e & Hin & Hrest); exists e; (split; [|exact Hrest]).
  - apply (Permutation_in _ H), Hin.
  - apply (Permutation_in _ (Permutation_sym H)), Hin.
Qed.

Lemma liveIdsOf_nonempty (l : list Event) :
  liveIdsOf l <> ∅ <-> exists e, In e l /\ getState e = "in".
Proof.
  split.
  - intros H. apply set_choose_L in H as [i Hi]. apply elem_of_liveIdsOf in Hi.
    destruct Hi as (e & Hin & Hst & _). exists e. split; assumption.
  - intros (e & Hin & Hst) Hempty.
    assert (Hi : ev_id e ∈ liveIdsOf l) by (apply elem_of_liveIdsOf; exists e; auto).
    rewrite Hempty in Hi. set_solver.
Qed.

Section SortFacts.
Variable Date_parse : string -> option Z.

Lemma sorted_fixed (l : list Event) :
  Forall (fun e => timeOf Date_parse e <> None /\ ownState e = true) l ->
  StronglySorted (eventLe Date_parse) l ->
  sortEvents Date_parse l = l.
Proof.
  induction l as [|x l IH]; intros Hd Hs; [reflexivity|].
  inversion Hd as [|? ? Hx Hl]; inversion Hs as [|? ? Hsl Hall]; subst.
  unfold sortEvents, Array_sort in *. cbn [fold_right]. rewrite IH by assumption.
  destruct l as [|y r]; [reflexivity|]. cbn [insertSorted].
  inversion Hl; inversion Hall; subst.
  assert (H : (SortCompare (compareEvents Date_parse) x y <=? 0) = true)
    by (apply cmp_le; assumption).
  rewrite H. reflexivity.
Qed.

(** X11: on events whose dates all parse and whose states are not names
    that [STATUS_ORDER] inherits, sorting a list that is already in
    status-then-kickoff order returns it unchanged, so sorting twice is
    sorting once. *)
Theorem X11_sorting_an_ordered_list_changes_nothing (evts : list Event) :
  Forall (fun e => timeOf Date_parse e <> None /\ ownState e = true) evts ->
  sortEvents Date_parse (sortEvents Date_parse evts) = sortEvents Date_parse evts
  /\ (StronglySorted (eventLe Date_parse) evts -> sortEvents Date_parse evts = evts).
Proof.
  intros Hd. split.
  - apply sorted_fixed.
    + apply (Permutation_Forall (sortEvents_perm Date_parse evts)), Hd.
    + apply sortEvents_sorted, Hd.
  - apply sorted_fixed, Hd.
Qed.

Lemma renderable_perm (l l' : list Event) :
  Permutation l l' ->
  Forall (fun e => renderable e = true) l -> Forall (fun e => renderable e = true) l'.
Proof. intros H. apply Permutation_Forall, H. Qed.

(** X12: whatever the dates and the states, [sortEvents] returns a
    rearrangement of its input; so when the events can be rendered, a
    render of the sorted events shows one card per event and has the Live
    Set of a render of the unsorted ones, and that set is non-empty
    exactly when some event is "in", with or without an id. *)
Theorem X12_sorting_keeps_every_event (evts : list Event) (w : World) :
  Permutation evts (sortEvents Date_parse evts)
  /\ (Forall (fun e => renderable e = true) evts ->
      liveEventIds (state (exec (renderEvents (sortEvents Date_parse evts)) w))
      = liveEventIds (state (exec (renderEvents evts) w))
      /\ (liveEventIds (state (exec (renderEvents (sortEvents Date_parse evts)) w)) <> ∅
          <-> exists e, In e evts /\ getState e = "in")
      /\ cardCount (GRID (page (exec (renderEvents (sortEvents Date_parse evts)) w)))
         = length evts).
Proof.
  pose proof (sortEvents_perm Date_parse evts) as Hp. split; [exact Hp|]. intros Hall.
  pose proof (renderable_perm _ _ Hp Hall) as Hsorted.
  unfold exec. rewrite !renderEvents_run by assumption. cbn.
  rewrite <- (liveIdsOf_perm _ _ Hp), cardCount_viewOf by exact Hsorted.
  repeat split.
  - apply liveIdsOf_nonempty.
  - apply liveIdsOf_nonempty.
  - symmetry. apply Permutation_length, Hp.
Qed.

(** X13: for every list of events whose dates all parse and whose
    states are not names that [STATUS_ORDER] inherits, [sortEvents]
    returns a permutation of the list ordered by status priority (post 0,
    in 1, pre 2, any other or missing state 3, on the lower-cased state of
    [getState]) and then by kickoff time, and the events with the same
    priority and the same kickoff time keep their relative order. *)
Theorem X13_sortEvents_is_a_stable_sort (evts : list Event) :
  Forall (fun e => timeOf Date_parse e <> None /\ ownState e = true) evts ->
  Permutation evts (sortEvents Date_parse evts)
  /\ StronglySorted (eventLe Date_parse) (sortEvents Date_parse evts)
  /\ (forall r t, List.filter (hasKey Date_parse r t) (sortEvents Date_parse evts)
                  = List.filter (hasKey Date_parse r t) evts)
  /\ (forall e, In e evts ->
                statusRank e = RankNumber (priority e) /\ 0 <= priority e <= 3).
Proof.
  intros H. split; [apply sortEvents_perm|]. split; [apply sortEvents_sorted, H|].
  split; [intros r t; apply sortEvents_stable, H|].
  intros e He. rewrite List.Forall_forall in H. destruct (H e He) as [_ Ho].
  split; [apply statusRank_priority, Ho|apply priority_range].
Qed.

End SortFacts.

Lemma X11_witness :
  Forall (fun e => timeOf exampleDates e <> None /\ ownState e = true)
         (mondayGame :: thursdayGame :: sundayLiveGame :: nil)
  /\ sortEvents exampleDates
       (sortEvents exampleDates (mondayGame :: thursdayGame :: sundayLiveGame :: nil))
     = sundayLiveGame :: thursdayGame :: mondayGame :: nil.
Proof.
  assert (H : Forall (fun e => timeOf exampleDates e <> None /\ ownState e = true)
                     (mondayGame :: thursdayGame :: sundayLiveGame :: nil))
    by (repeat constructor; vm_compute; discriminate).
  split; [exact H|].
  destruct (X11_sorting_an_ordered_list_changes_nothing exampleDates _ H) as [E _].
  rewrite E. vm_compute. reflexivity.
Defined.

Lemma X12_witness :
  Forall (fun e => renderable e = true) (mondayGame :: sundayLiveGame :: nil)
  /\ cardCount (GRID (page (exec (renderEvents
                                    (sortEvents exampleDates
                                       (mondayGame :: sundayLiveGame :: nil)))
                                 initialWorld))) = 2%nat.
Proof.
  assert (H : Forall (fun e => renderable e = true) (mondayGame :: sundayLiveGame :: nil))
    by (repeat constructor).
  split; [exact H|].
  exact (proj2 (proj2 (proj2 (X12_sorting_keeps_every_event exampleDates _ initialWorld)
                             H))).
Defined.

(** A live game listed after two upcoming ones, the later kickoff first. *)
Lemma X13_witness :
  Forall (fun e => timeOf exampleDates e <> None /\ ownState e = true)
         (mondayGame :: thursdayGame :: sundayLiveGame :: nil)
  /\ sortEvents exampleDates (mondayGame :: thursdayGame :: sundayLiveGame :: nil)
     = sundayLiveGame :: thursdayGame :: mondayGame :: nil
  /\ StronglySorted (eventLe exampleDates)
       (sortEvents exampleDates (mondayGame :: thursdayGame :: sundayLiveGame :: nil)).
Proof.
  assert (H : Forall (fun e => timeOf exampleDates e <> None /\ ownState e = true)
                     (mondayGame :: thursdayGame :: sundayLiveGame :: nil))
    by (repeat constructor; vm_compute; discriminate).
  split; [exact H|]. split; [vm_compute; reflexivity|].
  apply (X13_sortEvents_is_a_stable_sort exampleDates _ H).
Defined.

(** *** Marking the picked side *)

Lemma hasClasses_toggle (classes : list string) (b : bool) (x : Element) :
  ~ In "selected" classes -> hasClasses classes (toggle "selected" b x) = hasClasses classes x.
Proof.
  intros Hn. unfold hasClasses. induction classes as [|c classes IH]; [reflexivity|].
  cbn [forallb]. rewrite IH by (intros H; apply Hn; right; exact H). f_equal.
  assert (c <> "selected") by (intros ->; apply Hn; left; reflexivity).
  apply bool_decide_ext. destruct b; cbn; set_solver.
Qed.

Lemma querySelector_alter (classes : list string) (f : Element -> Element) (k : nat)
  (l : list Element) :
  (forall x, hasClasses classes (f x) = hasClasses classes x) ->
  querySelector classes (alter f k l) = querySelector classes l.
Proof.
  intros Hf. revert k. induction l as [|x l IH]; intros k; [reflexivity|].
  destruct k as [|k]; cbn.
  - rewrite Hf. reflexivity.
  - rewrite IH. reflexivity.
Qed.

Lemma querySelector_Some (classes : list string) (l : list Element) (k : nat) :
  querySelector classes l = Some k ->
  exists x, l !! k = Some x /\ hasClasses classes x = true.
Proof.
  revert k. induction l as [|x l IH]; intros k H; [discriminate|].
  cbn in H. destruct (hasClasses classes x) eqn:E.
  - injection H as <-. exists x. split; [reflexivity|exact E].
  - destruct (querySelector classes l) as [j|]; [|discriminate].
    injection H as <-. destruct (IH j eq_refl) as (y & Hy & Hc). exists y. split; assumption.
Qed.

Lemma lookup_alter_list (f : Element -> Element) (i k : nat) (l : list Element) :
  alter f i l !! k = if decide (i = k) then f <$> l !! k else l !! k.
Proof.
  rewrite list_lookup_alter. destruct (decide (i = k)) as [->|Hne]; reflexivity.
Qed.

Lemma toggle_absorb (X : gset string) (t : string) (b1 b2 : bool) :
  (if b2 then (if b1 then X ∪ {[ t ]} else X ∖ {[ t ]}) ∪ {[ t ]}
   else (if b1 then X ∪ {[ t ]} else X ∖ {[ t ]}) ∖ {[ t ]})
  = (if b2 then X ∪ {[ t ]} else X ∖ {[ t ]}).
Proof.
  apply set_eq. intros y. destruct (decide (y = t)); destruct b1, b2; set_solver.
Qed.

Lemma applySelection_found (c : CardEl) (side : string) (i j : nat) :
  querySelector ("team-btn" :: "away" :: nil) (descendants c) = Some i ->
  querySelector ("team-btn" :: "home" :: nil) (descendants c) = Some j ->
  dataset (applySelection c side) = <[ "selectedSide" := side ]> (dataset c)
  /\ forall k, descendants (applySelection c side) !! k
               = (if decide (j = k) then setAttribute "aria-pressed"
                                           (booleanToString (String.eqb side "home"))
                  else id)
                 <$> ((if decide (i = k) then setAttribute "aria-pressed"
                                                (booleanToString (String.eqb side "away"))
                       else id)
                 <$> ((if decide (j = k) then toggle "selected" (String.eqb side "home") else id)
                 <$> ((if decide (i = k) then toggle "selected" (String.eqb side "away") else id)
                 <$> descendants c !! k))).
Proof.
  intros Hi Hj. unfold applySelection. rewrite Hi, Hj. cbn [dataset descendants].
  split; [reflexivity|]. intros k. rewrite !lookup_alter_list.
  destruct (descendants c !! k) as [x|]; repeat destruct (decide _); reflexivity.
Qed.

Lemma applySelection_queries (c : CardEl) (side : string) (classes : list string) :
  ~ In "selected" classes ->
  querySelector classes (descendants (applySelection c side))
  = querySelector classes (descendants c).
Proof.
  intros Hn. unfold applySelection.
  destruct (querySelector ("team-btn" :: "away" :: nil) (descendants c)) as [i|]; [|reflexivity].
  destruct (querySelector ("team-btn" :: "home" :: nil) (descendants c)) as [j|]; [|reflexivity].
  cbn [descendants].
  rewrite !querySelector_alter; try reflexivity; intros x; apply hasClasses_toggle, Hn.
Qed.

(** X14: on a card whose away and home buttons are found and are two
    elements, [applySelection] leaves the away button with the class
    [selected] exactly when the side is "away" and the home button exactly
    when it is "home", sets [aria-pressed] of each to say so, records the
    side in the dataset of the card and touches no other element. *)
Theorem X14_selection_marks_exactly_the_picked_side
  (c : CardEl) (side : string) (i j : nat) :
  querySelector ("team-btn" :: "away" :: nil) (descendants c) = Some i ->
  querySelector ("team-btn" :: "home" :: nil) (descendants c) = Some j ->
  i <> j ->
  let c' := applySelection c side in
  (exists a, descendants c' !! i = Some a
             /\ isSelected a = String.eqb side "away"
             /\ attributes a !! "aria-pressed"
                = Some (if String.eqb side "away" then "true" else "false"))
  /\ (exists h, descendants c' !! j = Some h
                /\ isSelected h = String.eqb side "home"
                /\ attributes h !! "aria-pressed"
                   = Some (if String.eqb side "home" then "true" else "false"))
  /\ (forall k, k <> i -> k <> j -> descendants c' !! k = descendants c !! k)
  /\ dataset c' !! "selectedSide" = Some side.
Proof.
  intros Hi Hj Hne c'. subst c'.
  destruct (applySelection_found c side i j Hi Hj) as [Hd Hl].
  destruct (querySelector_Some _ _ _ Hi) as (a & Ha & _).
  destruct (querySelector_Some _ _ _ Hj) as (h & Hh & _).
  split; [|split; [|split]].
  - rewrite Hl, Ha. destruct (decide (j = i)); [congruence|].
    destruct (decide (i = i)); [|congruence]. cbn.
    eexists. split; [reflexivity|]. split.
    + unfold isSelected. cbn. destruct (String.eqb side "away");
        [apply bool_decide_eq_true|apply bool_decide_eq_false]; set_solver.
    + cbn. rewrite lookup_insert_eq. reflexivity.
  - rewrite Hl, Hh. destruct (decide (i = j)); [congruence|].
    destruct (decide (j = j)); [|congruence]. cbn.
    eexists. split; [reflexivity|]. split.
    + unfold isSelected. cbn. destruct (String.eqb side "home");
        [apply bool_decide_eq_true|apply bool_decide_eq_false]; set_solver.
    + cbn. rewrite lookup_insert_eq. reflexivity.
  - intros k Hki Hkj. rewrite Hl.
    destruct (decide (i = k)); [congruence|]. destruct (decide (j = k)); [congruence|].
    destruct (descendants c !! k); reflexivity.
  - rewrite Hd. apply lookup_insert_eq.
Qed.

Lemma X14_witness :
  querySelector ("team-btn" :: "away" :: nil) (descendants freshCard) = Some 1%nat
  /\ querySelector ("team-btn" :: "home" :: nil) (descendants freshCard) = Some 3%nat
  /\ dataset (applySelection freshCard "home") !! "selectedSide" = Some "home".
Proof.
  assert (Hi : querySelector ("team-btn" :: "away" :: nil) (descendants freshCard) = Some 1%nat)
    by (vm_compute; reflexivity).
  assert (Hj : querySelector ("team-btn" :: "home" :: nil) (descendants freshCard) = Some 3%nat)
    by (vm_compute; reflexivity).
  assert (Hne : 1%nat <> 3%nat) by discriminate.
  pose proof (X14_selection_marks_exactly_the_picked_side freshCard "home" 1 3 Hi Hj Hne)
    as (_ & _ & _ & H).
  repeat split; assumption.
Defined.

(** X15: the last selection wins: applying a selection after another
    one gives the card that the second alone gives; and a card that lacks
    one of the two buttons is left as it is. *)
Theorem X15_the_last_selection_wins (c : CardEl) (s1 s2 : string) :
  applySelection (applySelection c s1) s2 = applySelection c s2
  /\ (querySelector ("team-btn" :: "away" :: nil) (descendants c) = None
      \/ querySelector ("team-btn" :: "home" :: nil) (descendants c) = None ->
      applySelection c s1 = c).
Proof.
  split.
  2:{ unfold applySelection. intros [-> | ->]; [reflexivity|].
      destruct (querySelector _ _); reflexivity. }
  destruct (querySelector ("team-btn" :: "away" :: nil) (descendants c)) as [i|] eqn:Hi.
  2:{ unfold applySelection at 2. rewrite Hi. reflexivity. }
  destruct (querySelector ("team-btn" :: "home" :: nil) (descendants c)) as [j|] eqn:Hj.
  2:{ unfold applySelection at 2. rewrite Hi, Hj. reflexivity. }
  assert (Hi' : querySelector ("team-btn" :: "away" :: nil)
                  (descendants (applySelection c s1)) = Some i).
  { rewrite applySelection_queries; [exact Hi|]. cbn. intros [H|[H|[]]]; discriminate. }
  assert (Hj' : querySelector ("team-btn" :: "home" :: nil)
                  (descendants (applySelection c s1)) = Some j).
  { rewrite applySelection_queries; [exact Hj|]. cbn. intros [H|[H|[]]]; discriminate. }
  destruct (applySelection_found _ s2 i j Hi' Hj') as [Hd2 Hl2].
  destruct (applySelection_found c s1 i j Hi Hj) as [Hd1 Hl1].
  destruct (applySelection_found c s2 i j Hi Hj) as [Hd Hl].
  destruct (applySelection (applySelection c s1) s2) as [d2 ds2].
  destruct (applySelection c s2) as [d ds]. cbn in *. f_equal.
  - apply list_eq. intros k. rewrite Hl2, Hl, Hl1.
    destruct (descendants c !! k) as [x|]; [|reflexivity]. cbn. f_equal.
    unfold setAttribute, toggle.
    generalize (String.eqb s1 "away"), (String.eqb s1 "home"),
               (String.eqb s2 "away"), (String.eqb s2 "home").
    intros b1 b2 b3 b4.
    destruct (decide (i = k)), (decide (j = k)); cbn; f_equal;
      rewrite ?insert_insert_eq, ?toggle_absorb; reflexivity.
  - rewrite Hd2, Hd, Hd1. apply insert_insert_eq.
Qed.

(** *** The line-score table *)

Lemma mapOutcome_each {A B : Type} (f : A -> outcome B) (l : list A) (ys : list B) :
  mapOutcome f l = Returned ys -> Forall2 (fun x y => f x = Returned y) l ys.
Proof.
  revert ys. induction l as [|x l IH]; cbn [mapOutcome]; intros ys H.
  - injection H as <-. constructor.
  - destruct (f x) as [y|err] eqn:E; cbn [andThen] in H; [|discriminate].
    destruct (mapOutcome f l) as [zs|err]; cbn [andThen] in H; [|discriminate].
    injection H as <-. constructor; [exact E|]. apply IH. reflexivity.
Qed.

Lemma Forall2_nth_error {A B : Type} (P : A -> B -> Prop) (l : list A) (l' : list B)
  (k : nat) (x : A) (y : B) :
  Forall2 P l l' -> nth_error l k = Some x -> nth_error l' k = Some y -> P x y.
Proof.
  intros H. revert k. induction H as [|a b l l' Hab H IH]; intros [|k] Hx Hy;
    try discriminate.
  - injection Hx as <-. injection Hy as <-. exact Hab.
  - exact (IH k Hx Hy).
Qed.

Lemma hasLineScores_shape (c : Competition) :
  hasLineScores c = true ->
  exists a b rest, competitors c = Some (a :: b :: rest)
                   /\ Forall (fun x => lineScoresOf x <> nil) (a :: b :: rest).
Proof.
  unfold hasLineScores. intros H. apply andb_true_iff in H as [Hlen Hall].
  destruct (competitors c) as [[|a [|b rest]]|]; try discriminate.
  exists a, b, rest. split; [reflexivity|].
  rewrite forallb_forall in Hall. apply List.Forall_forall. intros x Hx.
  specialize (Hall x Hx). unfold lineScoresOf.
  destruct (linescores x) as [[|]|]; congruence.
Qed.

(** The cells of a row: a Number for each period the feed has, blanks up
    to the longest row, and the total. *)
Lemma row_cells (mx : nat) (c : Competitor) (r : string * list (option number)) :
  (let? byP := mapOutcome (fun ls => let? n := safeInt (periodValue ls) in
                                     Returned (Some n))
                          (lineScoresOf c) in
   let byP := (byP ++ repeat None (mx - length byP))%list in
   let? total := safeInt (score c) in
   Returned (match team c with
             | Some t => orEmpty (orElse (team_abbreviation t)
                                    (orElse (team_shortDisplayName t) (Some "")))
             | None => ""
             end,
             (byP ++ Some total :: nil)%list)) = Returned r ->
  exists (ns : list number) (total : number),
    length ns = length (lineScoresOf c)
    /\ safeInt (score c) = Returned total
    /\ snd r = ((List.map Some ns ++ repeat None (mx - length ns))
                ++ Some total :: nil)%list.
Proof.
  intros H.
  destruct (mapOutcome _ (lineScoresOf c)) as [byP|err] eqn:E; cbn [andThen] in H;
    [|discriminate].
  destruct (safeInt (score c)) as [total|err]; cbn [andThen] in H; [|discriminate].
  injection H as <-. cbn [snd].
  apply mapOutcome_each in E.
  assert (Hns : exists ns, byP = List.map Some ns /\ length ns = length (lineScoresOf c)).
  { induction E as [|ls y l l' Hy E IH]; [exists nil; split; reflexivity|].
    destruct IH as (ns & -> & Hlen).
    destruct (safeInt (periodValue ls)) as [n|err]; cbn [andThen] in Hy; [|discriminate].
    injection Hy as <-. exists (n :: ns). split; [reflexivity|]. cbn. lia. }
  destruct Hns as (ns & -> & Hlen). exists ns, total.
  rewrite length_map. repeat split. exact Hlen.
Qed.



Lemma nth_error_cells (ns : list number) (n i : nat) (total : number) :
  (i < length ns + n)%nat ->
  (nth_error (List.map cellText
                (List.map Some ns ++ repeat None n ++ Some total :: nil)) i = Some ""
   <-> (length ns <= i)%nat).
Proof.
  revert i. induction ns as [|x ns IH]; intros i Hi.
  - cbn [List.map app length]. split; [lia|]. intros _.
    revert i Hi. induction n as [|n IHn]; intros i Hi; [cbn in Hi; lia|].
    destruct i as [|i]; [reflexivity|]. cbn. apply IHn. cbn in Hi. lia.
  - destruct i as [|i].
    + cbn. split; [|lia]. intros H. injection H as H.
      exfalso. exact (numberToString_nonempty _ H).
    + cbn [List.map app nth_error length]. rewrite IH by (cbn in Hi; lia). lia.
Qed.

(** X17: in the row of a competitor a period cell is empty exactly from
    the first period on for which the feed has no line score; the last
    cell of the row is the total [String(safeInt(score))], never empty,
    under the header "T". *)
Theorem X17_a_period_cell_is_blank_only_past_the_data
  (competition : Competition) (comps : list Competitor) (t : LineTable) (k : nat)
  (c : Competitor) (r : string * list string) :
  competitors competition = Some comps ->
  buildLineScoreTable competition = Returned t ->
  nth_error comps k = Some c ->
  nth_error (lt_rows t) k = Some r ->
  (forall i, (S i < length (snd r))%nat ->
             (nth_error (snd r) i = Some "" <-> (length (lineScoresOf c) <= i)%nat))
  /\ scoreText (score c) = Returned (List.last (snd r) "")
  /\ List.last (snd r) "" <> ""
  /\ List.last (lt_header t) "" = "T".
Proof.
  intros Hcomps Ht Hc Hr. unfold buildLineScoreTable in Ht. rewrite Hcomps in Ht.
  set (mx := Nat.max _ _) in Ht.
  destruct (mapOutcome _ comps) as [rows|err] eqn:Hrows; cbn [andThen] in Ht;
    [|discriminate].
  injection Ht as <-. apply mapOutcome_each in Hrows.
  cbn [lt_rows lt_header] in *.
  rewrite nth_error_map in Hr.
  destruct (nth_error rows k) as [r0|] eqn:Hr0; [|discriminate].
  injection Hr as <-. cbn [snd].
  pose proof (Forall2_nth_error _ _ _ _ _ _ Hrows Hc Hr0) as Hrow.
  apply row_cells in Hrow as (ns & total & Hns & Htotal & ->).
  split; [|split; [|split]].
  - intros i Hi. rewrite <- Hns, <- app_assoc. apply nth_error_cells.
    rewrite length_map, !length_app, repeat_length, length_map in Hi. cbn in Hi. lia.
  - rewrite map_app. cbn [List.map]. rewrite last_last. unfold scoreText.
    rewrite Htotal. reflexivity.
  - rewrite map_app. cbn [List.map]. rewrite last_last. apply numberToString_nonempty.
  - change ("" :: List.map periodLabel (seq 0 mx) ++ "T" :: nil)%list
      with (("" :: List.map periodLabel (seq 0 mx)) ++ "T" :: nil)%list.
    apply last_last.
Qed.

Lemma X17_witness :
  competitors unevenGame = Some (shortHome :: longAway :: nil)
  /\ buildLineScoreTable unevenGame = Returned unevenTable
  /\ nth_error (shortHome :: longAway :: nil) 0 = Some shortHome
  /\ nth_error (lt_rows unevenTable) 0 = Some ("PHI", "7" :: "17" :: "" :: "24" :: nil)
  /\ (nth_error ("7" :: "17" :: "" :: "24" :: nil) 2 = Some ""
      <-> (length (lineScoresOf shortHome) <= 2)%nat).
Proof.
  assert (Ht : buildLineScoreTable unevenGame = Returned unevenTable)
    by (vm_compute; reflexivity).
  pose proof (X17_a_period_cell_is_blank_only_past_the_data
                unevenGame (shortHome :: longAway :: nil) unevenTable 0 shortHome
                ("PHI", "7" :: "17" :: "" :: "24" :: nil) eq_refl Ht eq_refl eq_refl)
    as (H & _).
  split; [reflexivity|]. split; [exact Ht|]. split; [reflexivity|]. split; [reflexivity|].
  apply (H 2%nat). cbn. lia.
Defined.

(** *** Scores and spreads given as integers *)

Lemma safeInt_decimal (n : Z) (rest : string) :
  0 <= n < 2 ^ 53 -> noDigitAhead rest = true ->
  safeInt (VStr (decimal n ++ rest)) = Returned (of_Z n).
Proof.
  intros Hn Hrest. unfold safeInt. cbn [ToString andThen].
  rewrite parseInt10_decimal by (try assumption; lia).
  destruct (Z.eqb_spec n 0) as [->|Hne]; [reflexivity|].
  rewrite isFinite_of_Z by exact Hn. reflexivity.
Qed.

(** X18: a score given as the decimal digits of an integer below 2^53,
    possibly followed by text that does not start with a digit, or given
    as that Number, is read by [safeInt] as that integer and shown as its
    digits. *)
Theorem X18_a_score_in_digits_is_shown_as_it_is (n : Z) (rest : string) :
  0 <= n < 2 ^ 53 -> noDigitAhead rest = true ->
  safeInt (VStr (decimal n ++ rest)) = Returned (of_Z n)
  /\ safeInt (VNum (of_Z n)) = Returned (of_Z n)
  /\ scoreText (VStr (decimal n ++ rest)) = Returned (decimal n)
  /\ scoreText (VNum (of_Z n)) = Returned (decimal n).
Proof.
  intros Hn Hrest.
  assert (H1 : safeInt (VStr (decimal n ++ rest)) = Returned (of_Z n))
    by (apply safeInt_decimal; assumption).
  assert (H2 : safeInt (VNum (of_Z n)) = Returned (of_Z n)).
  { unfold safeInt. cbn [ToString andThen]. rewrite numberToString_of_Z by exact Hn.
    rewrite <- (append_empty_r (decimal n)).
    rewrite parseInt10_decimal by (try reflexivity; lia).
    destruct (Z.eqb_spec n 0) as [->|Hne]; [reflexivity|].
    rewrite isFinite_of_Z by exact Hn. reflexivity. }
  unfold scoreText. rewrite H1, H2. cbn [andThen].
  rewrite numberToString_of_Z by exact Hn. repeat split.
Qed.

Lemma X18_witness :
  0 <= 27 < 2 ^ 53
  /\ noDigitAhead " (OT)" = true
  /\ scoreText (VStr "27 (OT)") = Returned "27".
Proof.
  assert (Hn : 0 <= 27 < 2 ^ 53) by (split; [lia|reflexivity]).
  assert (Hr : noDigitAhead " (OT)" = true) by reflexivity.
  pose proof (X18_a_score_in_digits_is_shown_as_it_is 27 " (OT)" Hn Hr) as (_ & _ & H & _).
  split; [exact Hn|]. split; [exact Hr|]. exact H.
Defined.

Lemma prefixRest_digit (d : Z) (r : string) :
  0 <= d <= 9 ->
  prefixRest "Infinity" (digitChar d ++ r) = None
  /\ String.eqb (digitChar d ++ r) "" = false.
Proof.
  intros Hd.
  assert (H : d = 0 \/ d = 1 \/ d = 2 \/ d = 3 \/ d = 4 \/ d = 5 \/ d = 6 \/ d = 7
              \/ d = 8 \/ d = 9) by lia.
  destruct H as [->|[->|[->|[->|[->|[->|[->|[->|[->| ->]]]]]]]]]; split; reflexivity.
Qed.

Lemma skipWhite_minus (x : string) : skipWhite (String "-" x) = String "-" x.
Proof. destruct x as [|b [|c r]]; reflexivity. Qed.

Lemma strlen_decimal_safe (n : Z) : 0 <= n < 2 ^ 53 -> 1 <= strlen (decimal n) <= 16.
Proof.
  intros [H0 H1]. apply (strlen_decimal_le 15). split; [exact H0|].
  change (10 ^ Z.of_nat 16) with 10000000000000000.
  change (2 ^ 53) with 9007199254740992 in H1. lia.
Qed.

(** The numeric literal made of the digits of [n], with or without a minus
    sign, is read as the Number of that integer. *)
Lemma StringToNumber_digits (sg : bool) (n : Z) :
  1 <= n < 2 ^ 53 ->
  StringToNumber ((if sg then "-" else "") ++ decimal n) = of_Z (if sg then - n else n).
Proof.
  intros Hn.
  destruct (decimal_head_all n ltac:(lia)) as (d & r & Hd & Hr & H1).
  specialize (H1 ltac:(lia)).
  destruct (digit_first d r Hr) as [Hskip Hsig].
  destruct (prefixRest_digit d r Hr) as [Hpre Heqb].
  rewrite <- Hd in Hskip, Hsig, Hpre, Heqb.
  assert (Hrun : digitsRun 10 (decimal n) 0 0 = (n, strlen (decimal n), "")).
  { rewrite <- (append_empty_r (decimal n)) at 1. rewrite digitsRun_all by lia. reflexivity. }
  pose proof (strlen_decimal_safe n ltac:(lia)) as Hlen.
  assert (Hbody :
    (let '(sg0, s1) := (sg, decimal n) in
     match prefixRest "Infinity" s1 with
     | Some rest => if onlyWhite rest then S754_infinity sg0 else NaN
     | None =>
         let '(ip, ic, r1) := digitsRun 10 s1 0 0 in
         let '(D, fc, r2) :=
           match r1 with
           | String "." r => digitsRun 10 r ip 0
           | _ => (ip, 0, r1)
           end in
         if ic + fc =? 0 then NaN
         else
           let '(X, r3) :=
             match r2 with
             | String ("e" | "E") r =>
                 let '(esg, r') := signOf r in
                 let '(x, xc, r'') := digitsRun 10 r' 0 0 in
                 if 0 <? xc then ((if esg then - x else x), r'') else (0, r2)
             | _ => (0, r2)
             end in
           if onlyWhite r3 then decimalToNumber sg0 D (X - fc) else NaN
     end) = of_Z (if sg then - n else n)).
  { cbv iota beta. rewrite Hpre, Hrun. cbv iota beta.
    destruct (strlen (decimal n) + 0 =? 0) eqn:E; [apply Z.eqb_eq in E; lia|].
    change (onlyWhite "") with true. cbv iota. change (0 - 0) with 0.
    unfold decimalToNumber.
    destruct (n =? 0) eqn:E0; [apply Z.eqb_eq in E0; lia|].
    destruct (400 <? strlen (decimal n) + 0) eqn:E1; [apply Z.ltb_lt in E1; lia|].
    destruct (strlen (decimal n) + 0 <? -400) eqn:E2; [apply Z.ltb_lt in E2; lia|].
    change (0 <=? 0) with true. cbv iota. unfold of_Z. f_equal.
    change (10 ^ 0) with 1. destruct sg; lia. }
  unfold StringToNumber. destruct sg.
  - change ("-" ++ decimal n) with (String "-" (decimal n)).
    rewrite skipWhite_minus.
    change (String.eqb (String "-" (decimal n)) "") with false.
    cbv iota beta zeta.
    change (signOf (String "-" (decimal n))) with (true, decimal n).
    exact Hbody.
  - change ("" ++ decimal n) with (decimal n). rewrite Hskip, Heqb. cbv zeta.
    rewrite Hsig.
    assert (H : d = 1 \/ d = 2 \/ d = 3 \/ d = 4 \/ d = 5 \/ d = 6 \/ d = 7
                \/ d = 8 \/ d = 9) by lia.
    destruct H as [->|[->|[->|[->|[->|[->|[->|[->| ->]]]]]]]];
      rewrite Hd at 1; cbv iota beta; exact Hbody.
Qed.

(** *** An integer spread, from the feed to the buttons *)

Lemma suffix_of_integer (n : Z) (sg : bool) :
  1 <= n < 2 ^ 53 ->
  spreadSuffixForSide (Some (of_Z (if sg then - n else n))) true
  = " (" ++ (if sg then "-" else "+") ++ decimal n ++ ")".
Proof.
  intros Hn. destruct (of_Z_signed n Hn) as (m & e & Hr & He & Hm & Hb).
  rewrite (Hr sg). unfold spreadSuffixForSide, sideValue.
  assert (Hpk : lt (abs (S754_finite sg m e)) EPSILON = false).
  { unfold lt, abs, SFltb, SFabs, EPSILON, SFcompare.
    destruct (Z.compare_spec e (-82)); [lia|lia|reflexivity]. }
  rewrite Hpk.
  assert (Hint : isInteger (S754_finite sg m e) = true).
  { cbn [isInteger]. apply orb_true_iff. right. apply Z.eqb_eq.
    rewrite Hm. apply Z.mod_mul. apply Z.pow_nonzero; lia. }
  unfold prettyNum. rewrite Hint.
  rewrite (numberToString_integer m e n ltac:(lia) ltac:(lia) Hm Hb sg).
  destruct sg; reflexivity.
Qed.


Lemma StringToNumber_showZ (z : Z) :
  - 2 ^ 53 < z < 2 ^ 53 -> StringToNumber (showZ z) = of_Z z.
Proof.
  intros Hz. unfold showZ. destruct (Z.ltb_spec z 0) as [Hneg|Hpos].
  - rewrite (StringToNumber_digits true (- z)) by lia. f_equal. lia.
  - destruct (Z.eq_dec z 0) as [->|Hne]; [reflexivity|].
    apply (StringToNumber_digits false z). lia.
Qed.

(** X19: an integer spread [z] of magnitude below 2^53, which the feed
    gives as a Number or as its decimal text, is parsed as that integer
    and shown as " (PK)" when it is 0, and otherwise with its sign on the
    home button and with the opposite sign on the away button. *)
Theorem X19_an_integer_spread_from_the_feed_to_the_buttons
  (z : Z) (c : Competition) (raw : value) (rest : list Odds) :
  - 2 ^ 53 < z < 2 ^ 53 ->
  raw = VStr (showZ z) \/ raw = VNum (of_Z z) ->
  odds c = Some ({| spread := raw |} :: rest) ->
  parseHomeSpread c = Returned (Some (of_Z z))
  /\ (let? h := parseHomeSpread c in Returned (spreadSuffixForSide h true))
     = Returned (if z =? 0 then " (PK)"
                 else " (" ++ (if z <? 0 then "-" else "+") ++ decimal (Z.abs z) ++ ")")
  /\ (let? h := parseHomeSpread c in Returned (spreadSuffixForSide h false))
     = Returned (if z =? 0 then " (PK)"
                 else " (" ++ (if z <? 0 then "+" else "-") ++ decimal (Z.abs z) ++ ")").
Proof.
  intros Hz Hraw Ho.
  assert (Hnum : ToNumber raw = Returned (of_Z z)).
  { destruct Hraw as [-> | ->]; [cbn; f_equal; apply StringToNumber_showZ, Hz|reflexivity]. }
  assert (Hfin : isFinite (of_Z z) = true).
  { destruct (Z.eq_dec z 0) as [->|Hne]; [reflexivity|].
    destruct (of_Z_signed (Z.abs z) ltac:(lia)) as (m & e & Hr & _).
    destruct (Z.ltb_spec z 0).
    - replace z with (- Z.abs z) by lia. rewrite (Hr true). reflexivity.
    - replace z with (Z.abs z) by lia. rewrite (Hr false). reflexivity. }
  assert (Hp : parseHomeSpread c = Returned (Some (of_Z z))).
  { unfold parseHomeSpread. rewrite Ho. cbn [first spread]. rewrite Hnum. cbn [andThen].
    rewrite Hfin. reflexivity. }
  rewrite Hp. cbn [andThen]. split; [reflexivity|].
  destruct (Z.eqb_spec z 0) as [->|Hne]; [split; reflexivity|].
  assert (Haway : spreadSuffixForSide (Some (of_Z z)) false
                  = spreadSuffixForSide (Some (of_Z (- z))) true).
  { unfold spreadSuffixForSide, sideValue.
    destruct (of_Z_signed (Z.abs z) ltac:(lia)) as (m & e & Hr & _).
    pose proof (Hr true) as Ht. pose proof (Hr false) as Hf. cbv iota in Ht, Hf.
    destruct (Z.ltb_spec z 0).
    - replace (- z) with (Z.abs z) by lia. rewrite Hf.
      replace z with (- Z.abs z) by lia. rewrite Ht. reflexivity.
    - replace (- z) with (- Z.abs z) by lia. rewrite Ht.
      replace z with (Z.abs z) by lia. rewrite Hf. reflexivity. }
  rewrite Haway.
  destruct (Z.ltb_spec z 0) as [Hneg|Hpos].
  - split; f_equal.
    + replace z with (- Z.abs z) at 1 by lia.
      apply (suffix_of_integer (Z.abs z) true). lia.
    + replace (- z) with (Z.abs z) by lia.
      apply (suffix_of_integer (Z.abs z) false). lia.
  - split; f_equal.
    + replace z with (Z.abs z) at 1 by lia.
      apply (suffix_of_integer (Z.abs z) false). lia.
    + replace (- z) with (- Z.abs z) by lia.
      apply (suffix_of_integer (Z.abs z) true). lia.
Qed.

Lemma X19_witness :
  - 2 ^ 53 < -3 < 2 ^ 53
  /\ parseHomeSpread (oddsOnly (VStr "-3")) = Returned (Some (of_Z (-3)))
  /\ (let? h := parseHomeSpread (oddsOnly (VStr "-3")) in
      Returned (spreadSuffixForSide h false)) = Returned " (+3)".
Proof.
  assert (Hz : - 2 ^ 53 < -3 < 2 ^ 53) by (split; reflexivity).
  pose proof (X19_an_integer_spread_from_the_feed_to_the_buttons (-3)
                (oddsOnly (VStr "-3")) (VStr "-3") nil Hz (or_introl eq_refl) eq_refl)
    as (H1 & _ & H3).
  split; [exact Hz|]. split; [exact H1|exact H3].
Defined.

(** *** White space at the two ends *)

Lemma white3_ascii2 (x y z : Z) : y < 128 -> white3 x y z = false.
Proof.
  intros H. unfold white3. lia.
Qed.

Lemma white3_ascii3 (x y z : Z) : z < 128 -> white3 x y z = false.
Proof.
  intros H. unfold white3. lia.
Qed.

Lemma whiteStep_total (s : string) : exists o, whiteStep s o.
Proof.
  destruct s as [|a r]; [exists None; constructor|].
  destruct ((code a =? 9) || (code a =? 10) || (code a =? 11) || (code a =? 12)
            || (code a =? 13) || (code a =? 32)) eqn:E1.
  { exists (Some r). apply ws_one, E1. }
  destruct r as [|b r].
  { exists None. apply ws_none.
    - cbn [skipWhite]. rewrite E1. reflexivity.
    - intros y Hy. rewrite append_cons. change ("" ++ y) with y.
      cbn [skipWhite]. rewrite E1. destruct y as [|c y]; [reflexivity|].
      cbn [asciiHead] in Hy. apply Z.ltb_lt in Hy.
      destruct (Z.eqb_spec (code c) 160); [lia|]. rewrite andb_false_r.
      destruct y as [|d y]; [reflexivity|].
      rewrite white3_ascii2 by exact Hy. reflexivity. }
  destruct ((code a =? 194) && (code b =? 160)) eqn:E2.
  { exists (Some r). apply ws_two; assumption. }
  destruct r as [|c r].
  { exists None. apply ws_none.
    - cbn [skipWhite]. rewrite E1, E2. reflexivity.
    - intros y Hy. rewrite !append_cons. change ("" ++ y) with y.
      cbn [skipWhite]. rewrite E1, E2. destruct y as [|d y]; [reflexivity|].
      cbn [asciiHead] in Hy. apply Z.ltb_lt in Hy.
      rewrite white3_ascii3 by exact Hy. reflexivity. }
  destruct (white3 (code a) (code b) (code c)) eqn:E3.
  { exists (Some r). apply ws_three; assumption. }
  exists None. apply ws_none.
  - cbn [skipWhite]. rewrite E1, E2, E3. reflexivity.
  - intros y Hy. rewrite !append_cons. cbn [skipWhite]. rewrite E1, E2, E3. reflexivity.
Qed.

Lemma whiteStep_skip (s r : string) (y : string) :
  whiteStep s (Some r) ->
  skipWhite (s ++ y) = skipWhite (r ++ y)
  /\ (String.length r < String.length s)%nat
  /\ exists p, s = p ++ r /\ noParen p = true.
Proof.
  assert (Hparen : forall a : ascii, code a <> 40 -> negb (Ascii.eqb a "(") = true).
  { intros a Ha. apply negb_true_iff.
    destruct (Ascii.eqb_spec a "(") as [->|]; [|reflexivity]. exfalso. apply Ha. reflexivity. }
  intros H. inversion H as [|a r0 E1|a b r0 E1 E2|a b c r0 E1 E2 E3|]; subst.
  - rewrite append_cons. cbn [skipWhite]. rewrite E1. split; [reflexivity|].
    split; [cbn; lia|]. exists (String a ""). split; [reflexivity|].
    cbn [noParen]. rewrite Hparen by lia. reflexivity.
  - rewrite !append_cons. cbn [skipWhite]. rewrite E1, E2. split; [reflexivity|].
    split; [cbn; lia|]. exists (String a (String b "")). split; [reflexivity|].
    cbn [noParen]. rewrite !Hparen by lia. reflexivity.
  - rewrite !append_cons. cbn [skipWhite]. rewrite E1, E2, E3. split; [reflexivity|].
    split; [cbn; lia|]. exists (String a (String b (String c ""))). split; [reflexivity|].
    unfold white3 in E3.
    cbn [noParen]. rewrite !Hparen by lia. reflexivity.
Qed.

Lemma noParen_app (a b : string) : noParen (a ++ b) = noParen a && noParen b.
Proof.
  induction a as [|c a IH]; [reflexivity|].
  rewrite append_cons. cbn [noParen]. rewrite IH, andb_assoc. reflexivity.
Qed.

Lemma skipWhite_empty_r (x : string) : skipWhite (x ++ "") = skipWhite x.
Proof. rewrite append_empty_r. reflexivity. Qed.

(** What [skipWhite] does to a text that is followed by more text: either
    the text is white space altogether, or what is left of it starts with
    a character that is not white space and the rest is untouched. *)
Lemma skipWhite_spec (n : nat) :
  forall x, (String.length x <= n)%nat ->
  (onlyWhite x = true
   /\ forall y, skipWhite (x ++ y) = skipWhite y)
  \/ (onlyWhite x = false
      /\ (forall y, asciiHead y = true -> skipWhite (x ++ y) = skipWhite x ++ y)
      /\ exists p a r, x = p ++ String a r /\ skipWhite x = String a r
                       /\ noParen p = true).
Proof.
  induction n as [|n IH]; intros x Hlen.
  - destruct x; [|cbn in Hlen; lia]. left. split; [reflexivity|]. reflexivity.
  - destruct (whiteStep_total x) as [[r|] Hstep].
    + destruct (whiteStep_skip x r "" Hstep) as (Hs0 & Hlt & p & Hx & Hp).
      rewrite !skipWhite_empty_r in Hs0.
      assert (Hy : forall y, skipWhite (x ++ y) = skipWhite (r ++ y))
        by (intros y; apply (whiteStep_skip x r y Hstep)).
      destruct (IH r ltac:(lia)) as [[Hw Hr]|(Hw & Hr & p0 & a & r0 & Hr0 & Hsk & Hp0)].
      * left. split.
        { unfold onlyWhite in *. rewrite Hs0. exact Hw. }
        intros y. rewrite Hy. apply Hr.
      * right. split; [unfold onlyWhite in *; rewrite Hs0; exact Hw|].
        split.
        { intros y Hh. rewrite Hy, Hs0. apply Hr, Hh. }
        exists (p ++ p0), a, r0. split; [rewrite Hx, Hr0, append_assoc; reflexivity|].
        split; [rewrite Hs0; exact Hsk|]. rewrite noParen_app, Hp, Hp0. reflexivity.
    + inversion Hstep as [| | | |a r0 Hsk Happ]; subst.
      * left. split; reflexivity.
      * right. split; [unfold onlyWhite; rewrite Hsk; reflexivity|].
        split; [intros y Hh; rewrite Hsk; apply Happ, Hh|].
        exists "", a, r0. repeat split. exact Hsk.
Qed.

Lemma skipWhite_cases (x : string) :
  (onlyWhite x = true
   /\ forall y, skipWhite (x ++ y) = skipWhite y)
  \/ (onlyWhite x = false
      /\ (forall y, asciiHead y = true -> skipWhite (x ++ y) = skipWhite x ++ y)
      /\ exists p a r, x = p ++ String a r /\ skipWhite x = String a r
                       /\ noParen p = true).
Proof. apply (skipWhite_spec (String.length x)). lia. Qed.

Lemma noParen_skipWhite (x : string) : noParen x = true -> noParen (skipWhite x) = true.
Proof.
  intros H. destruct (skipWhite_cases x) as [[Hw _]|(_ & _ & p & a & r & Hx & Hs & _)].
  - unfold onlyWhite in Hw. apply String.eqb_eq in Hw. rewrite Hw. reflexivity.
  - rewrite Hs. rewrite Hx, noParen_app in H. apply andb_true_iff in H as [_ H]. exact H.
Qed.

Lemma noParen_trimEnd (x : string) : noParen x = true -> noParen (trimEnd x) = true.
Proof.
  induction x as [|a r IH]; intros H; [reflexivity|].
  cbn [trimEnd]. destruct (onlyWhite _); [reflexivity|].
  cbn [noParen] in *. apply andb_true_iff in H as [Ha Hr]. rewrite Ha. apply IH, Hr.
Qed.

Lemma onlyWhite_closed (z : string) : onlyWhite (z ++ ")") = false.
Proof.
  unfold onlyWhite. apply String.eqb_neq.
  destruct (skipWhite_cases z) as [[_ H]|(_ & H & _)].
  - rewrite H. discriminate.
  - rewrite H by reflexivity. destruct (skipWhite z); discriminate.
Qed.

Lemma trimEnd_closed (x : string) : trimEnd (x ++ ")") = x ++ ")".
Proof.
  induction x as [|a r IH]; [reflexivity|].
  rewrite append_cons. cbn [trimEnd]. rewrite <- append_cons, onlyWhite_closed.
  rewrite append_cons, IH. reflexivity.
Qed.

Lemma lineBreakAt_plain (c : ascii) (r : string) :
  plainChar c = true -> lineBreakAt (String c r) = false.
Proof.
  unfold plainChar, lineBreakAt. intros H. destruct r as [|b [|d r]]; lia.
Qed.

Lemma closesParen_plain (body : string) :
  plain body = true -> closesParen (body ++ ")") = true.
Proof.
  induction body as [|c b IH]; intros H; [reflexivity|].
  cbn [plain] in H. apply andb_true_iff in H as [Hc Hb].
  rewrite append_cons. cbn [closesParen].
  rewrite lineBreakAt_plain by exact Hc. rewrite IH by exact Hb.
  apply orb_true_r.
Qed.

Lemma skipWhite_open (r : string) : skipWhite (String "(" r) = String "(" r.
Proof. destruct r as [|b [|c r]]; reflexivity. Qed.

Lemma parenTail_suffix (x body : string) :
  noParen x = true -> plain body = true ->
  parenTail (x ++ " (" ++ body ++ ")") = onlyWhite x.
Proof.
  intros Hx Hb. unfold parenTail.
  destruct (skipWhite_cases x) as [[Hw H]|(Hw & H & p & a & r & Hxe & Hs & Hp)].
  - rewrite H, Hw.
    change (skipWhite (" (" ++ body ++ ")")) with (skipWhite (String "(" (body ++ ")"))).
    rewrite skipWhite_open. rewrite closesParen_plain by exact Hb. reflexivity.
  - rewrite H by reflexivity. rewrite Hw, Hs, append_cons.
    rewrite Hxe, noParen_app in Hx. apply andb_true_iff in Hx as [_ Hx].
    cbn [noParen] in Hx. apply andb_true_iff in Hx as [Ha _].
    apply negb_true_iff in Ha. rewrite Ha. reflexivity.
Qed.

Lemma parenTail_noParen (x : string) : noParen x = true -> parenTail x = false.
Proof.
  intros H. apply noParen_skipWhite in H. unfold parenTail.
  destruct (skipWhite x) as [|c r]; [reflexivity|].
  cbn [noParen] in H. apply andb_true_iff in H as [Ha _].
  apply negb_true_iff in Ha. rewrite Ha. reflexivity.
Qed.

Lemma stripParenTail_noParen (x : string) : noParen x = true -> stripParenTail x = x.
Proof.
  induction x as [|a r IH]; intros H; [reflexivity|].
  cbn [stripParenTail]. rewrite parenTail_noParen by exact H.
  cbn [noParen] in H. apply andb_true_iff in H as [_ Hr]. rewrite IH by exact Hr.
  reflexivity.
Qed.

Lemma stripParenTail_suffix (x body : string) :
  noParen x = true -> plain body = true ->
  stripParenTail (x ++ " (" ++ body ++ ")") = trimEnd x.
Proof.
  intros Hx Hb. induction x as [|a r IH].
  - pose proof (parenTail_suffix "" body eq_refl Hb) as H.
    change ("" ++ " (" ++ body ++ ")") with (String " " (String "(" (body ++ ")"))) in *.
    cbn [stripParenTail]. rewrite H. reflexivity.
  - pose proof (parenTail_suffix (String a r) body Hx Hb) as H.
    cbn [noParen] in Hx. apply andb_true_iff in Hx as [_ Hr].
    specialize (IH Hr). revert H IH. generalize (" (" ++ body ++ ")"). intros suf H IH.
    rewrite append_cons in H |- *. cbn [stripParenTail trimEnd]. rewrite H, IH.
    reflexivity.
Qed.

(** The city a button shows, read back from its second line. *)
Lemma city_read_back (city : string) (h : option number) (isHome : bool) :
  noParen city = true ->
  stripParenTail (trim (city ++ spreadSuffixForSide h isHome)) = trim city.
Proof.
  intros Hc. destruct (suffix_shape h isHome) as [-> | (body & -> & Hb)].
  - rewrite append_empty_r. apply stripParenTail_noParen.
    unfold trim. apply noParen_trimEnd, noParen_skipWhite, Hc.
  - unfold trim.
    destruct (skipWhite_cases city) as [[Hw H]|(Hw & H & _)].
    + rewrite H. unfold onlyWhite in Hw. apply String.eqb_eq in Hw. rewrite Hw.
      change (skipWhite (" (" ++ body ++ ")")) with (skipWhite (String "(" (body ++ ")"))).
      rewrite skipWhite_open.
      change (String "(" (body ++ ")")) with (("(" ++ body) ++ ")").
      rewrite trimEnd_closed.
      change (("(" ++ body) ++ ")") with (String "(" (body ++ ")")).
      cbn [stripParenTail]. unfold parenTail. rewrite skipWhite_open.
      rewrite closesParen_plain by exact Hb. reflexivity.
    + rewrite H by reflexivity.
      replace (skipWhite city ++ " (" ++ body ++ ")")
        with ((skipWhite city ++ " (" ++ body) ++ ")")
        by (rewrite !append_assoc; reflexivity).
      rewrite trimEnd_closed.
      replace ((skipWhite city ++ " (" ++ body) ++ ")")
        with (skipWhite city ++ " (" ++ body ++ ")")
        by (rewrite !append_assoc; reflexivity).
      apply stripParenTail_suffix; [apply noParen_skipWhite, Hc|exact Hb].
Qed.

(** *** The labels of a team button *)

(** X20: for a team whose names hold no markup (no [<], [&], NUL or
    carriage return) and whose city has no opening parenthesis, the label
    read back from a team button is the trimmed nickname and the trimmed
    city joined by " • ": the spread suffix never gets into it. *)
Theorem X20_the_label_drops_the_spread
  (comp : Competitor) (h : option number) (isHome : bool) :
  markupFree (teamNickname (team comp)) = true ->
  markupFree (teamCity (team comp)) = true ->
  noParen (teamCity (team comp)) = true ->
  readableTeamLabel (teamCell comp h isHome)
  = Some (trim (trim (teamNickname (team comp)) ++ " • " ++ trim (teamCity (team comp)))).
Proof.
  intros Hn Hm Hc. unfold readableTeamLabel.
  destruct (teamCell_lines comp h isHome Hn Hm) as [-> ->].
  rewrite city_read_back by exact Hc. reflexivity.
Qed.

Lemma X20_witness :
  markupFree (teamNickname (team (competitorOf "away" "DAL" "Cowboys" "Dallas" (VStr "0"))))
  = true
  /\ markupFree (teamCity (team (competitorOf "away" "DAL" "Cowboys" "Dallas" (VStr "0"))))
     = true
  /\ noParen (teamCity (team (competitorOf "away" "DAL" "Cowboys" "Dallas" (VStr "0"))))
     = true
  /\ readableTeamLabel
       (teamCell (competitorOf "away" "DAL" "Cowboys" "Dallas" (VStr "0"))
                 (Some (StringToNumber "-3.5")) false)
     = Some "Cowboys • Dallas".
Proof.
  assert (H : noParen (teamCity (team (competitorOf "away" "DAL" "Cowboys" "Dallas"
                                                    (VStr "0")))) = true) by reflexivity.
  assert (Hn : markupFree (teamNickname (team (competitorOf "away" "DAL" "Cowboys" "Dallas"
                                                            (VStr "0")))) = true)
    by reflexivity.
  assert (Hm : markupFree (teamCity (team (competitorOf "away" "DAL" "Cowboys" "Dallas"
                                                        (VStr "0")))) = true)
    by reflexivity.
  split; [exact Hn|]. split; [exact Hm|]. split; [exact H|].
  rewrite (X20_the_label_drops_the_spread _ (Some (StringToNumber "-3.5")) false Hn Hm H).
  vm_compute. reflexivity.
Defined.

Lemma removeParens_plain (s : string) : plain s = true -> removeParens s = s.
Proof.
  induction s as [|c s IH]; intros H; [reflexivity|].
  cbn [plain] in H. apply andb_true_iff in H as [Hc Hs].
  cbn [removeParens]. rewrite IH by exact Hs.
  assert (E1 : Ascii.eqb c "(" = false).
  { destruct (Ascii.eqb_spec c "(") as [->|]; [discriminate|reflexivity]. }
  assert (E2 : Ascii.eqb c ")" = false).
  { destruct (Ascii.eqb_spec c ")") as [->|]; [discriminate|reflexivity]. }
  rewrite E1, E2. reflexivity.
Qed.

(** X21: the [aria-label] of a team button is "nick, city" when there
    is no suffix, and otherwise "nick, city", two spaces, and the text of
    the suffix without its parentheses. *)
Theorem X21_the_aria_label_reads_the_spread_without_parentheses
  (comp : Competitor) (h : option number) (isHome : bool) :
  (spreadSuffixForSide h isHome = ""
   /\ ariaLabel comp h isHome
      = teamNickname (team comp) ++ ", " ++ teamCity (team comp))
  \/ (exists body,
        spreadSuffixForSide h isHome = " (" ++ body ++ ")"
        /\ removeParens body = body
        /\ ariaLabel comp h isHome
           = teamNickname (team comp) ++ ", " ++ teamCity (team comp) ++ "  " ++ body).
Proof.
  unfold ariaLabel. destruct (suffix_shape h isHome) as [-> | (body & -> & Hb)].
  - left. split; [reflexivity|]. cbn. rewrite append_empty_r. reflexivity.
  - right. exists body. split; [reflexivity|].
    split; [apply removeParens_plain, Hb|].
    change (String.eqb (" (" ++ body ++ ")") "") with false. cbv iota.
    change (removeParens (" (" ++ body ++ ")"))
      with (String " " (removeParens (body ++ ")"))).
    assert (Hrm : removeParens (body ++ ")") = body).
    { clear - Hb. induction body as [|c b IH]; [reflexivity|].
      cbn [plain] in Hb. apply andb_true_iff in Hb as [Hc Hs].
      rewrite append_cons. cbn [removeParens]. rewrite IH by exact Hs.
      assert (E1 : Ascii.eqb c "(" = false).
      { destruct (Ascii.eqb_spec c "(") as [->|]; [discriminate|reflexivity]. }
      assert (E2 : Ascii.eqb c ")" = false).
      { destruct (Ascii.eqb_spec c ")") as [->|]; [discriminate|reflexivity]. }
      rewrite E1, E2. reflexivity. }
    rewrite Hrm. reflexivity.
Qed.

(** *** Events that can always be rendered *)

Lemma primitive_coercible (v : value) : primitive v = true -> coercible v = true.
Proof. destruct v; (reflexivity || discriminate). Qed.

Lemma lowerChar_idem (c : ascii) : lowerChar (lowerChar c) = lowerChar c.
Proof. destruct c as [[|] [|] [|] [|] [|] [|] [|] [|]]; vm_compute; reflexivity. Qed.

Lemma toLowerCase_idem (s : string) : toLowerCase (toLowerCase s) = toLowerCase s.
Proof.
  induction s as [|c s IH]; [reflexivity|]. cbn [toLowerCase]. rewrite lowerChar_idem, IH.
  reflexivity.
Qed.

Lemma getState_lower (e : Event) : toLowerCase (getState e) = getState e.
Proof. unfold getState. apply toLowerCase_idem. Qed.

(** Of the names every object inherits, a lower-cased state can only be
    one of the two that have no capital letter. *)
Lemma ownState_false (e : Event) :
  ownState e = false <-> getState e = "constructor" \/ getState e = "__proto__".
Proof.
  unfold ownState, inheritedName. rewrite negb_false_iff, existsb_exists. split.
  - intros (name & Hin & E). apply eqb_string_eq in E. subst name.
    pose proof (getState_lower e) as L.
    unfold ObjectPrototype in Hin. cbn [In] in Hin.
    repeat (destruct Hin as [Hin|Hin];
            [first [ left; symmetry; exact Hin
                   | right; symmetry; exact Hin
                   | exfalso; rewrite <- Hin in L; vm_compute in L; discriminate L ]|]).
    contradiction.
  - intros [E|E]; exists (getState e); (split; [|apply String.eqb_refl]); rewrite E;
      unfold ObjectPrototype; cbn [In]; tauto.
Qed.



(** *** Start-up *)

Lemma markedSelected_fold (n : Z) (l : list Z) (acc : option Z) :
  - 2 ^ 53 < n < 2 ^ 53 -> Forall (fun i => - 2 ^ 53 < i < 2 ^ 53) l ->
  fold_left (fun sel i => if strictEq (of_Z i) (of_Z n) then Some i else sel) l acc
  = if existsb (Z.eqb n) l then Some n else acc.
Proof.
  intros Hn Hl. revert acc. induction Hl as [|x l Hx Hl IH]; intros acc; [reflexivity|].
  cbn [fold_left existsb]. rewrite IH, strictEq_of_Z by assumption.
  rewrite (Z.eqb_sym n x).
  destruct (Z.eqb_spec x n) as [->|Hne]; cbn [orb]; [|reflexivity].
  destruct (existsb (Z.eqb n) l); reflexivity.
Qed.

(** The loop that fills the selector marks the option of the week. *)
Lemma markedSelected_option (n k : Z) :
  1 <= n <= k -> k < 2 ^ 53 -> markedSelected (of_Z n) (optionsUpTo k) = Some n.
Proof.
  intros Hn Hk. unfold markedSelected. rewrite markedSelected_fold.
  - replace (existsb (Z.eqb n) (optionsUpTo k)) with true; [reflexivity|].
    symmetry. apply existsb_eqb_In, In_optionsUpTo, Hn.
  - lia.
  - apply List.Forall_forall. intros i Hi. apply In_optionsUpTo in Hi. lia.
Qed.



